(** * databot frontend: the chat pipeline of [DataAnalysisInterface]

    A shallow embedding of the response parser
    ([parseChartDataFromResponse], data-visualization.tsx), the display
    formatter ([formatAIResponse]), the typing renderer
    ([simulateTyping]), the conversation store and the upload handler
    ([handleFileUpload], [sendMessage]) of data-analysis-interface.tsx,
    together with the fetch wrappers of services/api.ts; then of the
    suggestion generator ([generateSuggestions]), of what the cards of
    the component show, of [DataVisualization] and of the connection
    test of api-test.tsx.

    JavaScript strings are sequences of UTF-16 code units; they are
    modelled as [list N].  The regular expressions of the source are kept
    as regular expressions and run by a small backtracking matcher with
    the priorities of the ECMAScript one. *)

From Stdlib Require Import List NArith Arith Lia Bool Permutation.
From Stdlib Require String Ascii DecimalString.
Import ListNotations.
Import String.StringSyntax.
Delimit Scope string_scope with string.

Set Implicit Arguments.
Set Warnings "-register-all".

(* ================================================================== *)
(** ** JavaScript strings *)
(* ================================================================== *)

Module JS.

Definition jsstring := list N.

(** A source literal, unit by unit. *)
Definition js (s : String.string) : jsstring :=
  map Ascii.N_of_ascii (String.list_ascii_of_string s).

(** A literal in which every apostrophe stands for a double quote. *)
Definition jsq (s : String.string) : jsstring :=
  map (fun c => if N.eqb c 39 then 34%N else c) (js s).

Arguments js s%_string.
Arguments jsq s%_string.

Definition nl : N := 10%N.
Definition backtick : N := 96%N.

(** [WhiteSpace] and [LineTerminator] of ECMAScript: the class [\s] of a
    regular expression and the units removed by [String.prototype.trim]. *)
Definition isWhiteSpace (c : N) : bool :=
  match c with
  | 9 | 10 | 11 | 12 | 13 | 32 | 160 | 5760
  | 8232 | 8233 | 8239 | 8287 | 12288 | 65279 => true
  | _ => N.leb 8192 c && N.leb c 8202
  end%N.

Fixpoint trimStart (s : jsstring) : jsstring :=
  match s with
  | c :: r => if isWhiteSpace c then trimStart r else s
  | [] => []
  end.

Definition trimEnd (s : jsstring) : jsstring := rev (trimStart (rev s)).

Definition trim (s : jsstring) : jsstring := trimEnd (trimStart s).

Fixpoint startsWith (s p : jsstring) : bool :=
  match p, s with
  | [], _ => true
  | x :: p', y :: s' => N.eqb x y && startsWith s' p'
  | _ :: _, [] => false
  end.

Definition endsWith (s p : jsstring) : bool := startsWith (rev s) (rev p).

(** [a === b] on strings. *)
Fixpoint strict_eq (a b : jsstring) : bool :=
  match a, b with
  | [], [] => true
  | x :: a', y :: b' => N.eqb x y && strict_eq a' b'
  | _, _ => false
  end.

(** [s.substring(i, j)] for [i <= j]. *)
Definition substring (s : jsstring) (i j : nat) : jsstring :=
  firstn (j - i) (skipn i s).

(** [s.charAt(i)]: the empty string out of range. *)
Definition charAt (s : jsstring) (i : nat) : jsstring :=
  match nth_error s i with Some c => [c] | None => [] end.

(** [s.includes(p)]. *)
Fixpoint includes (s p : jsstring) : bool :=
  startsWith s p || match s with _ :: r => includes r p | [] => false end.



(** Template-literal rendering of a number that is a non-negative integer
    up to [MAX_SAFE_INTEGER]: JavaScript prints it in plain decimal.  A
    greater [n] need not be a number at all, and from 10^21 on JavaScript
    prints in exponent notation: the function is meant for no such [n]. *)
Definition Number_toString (n : N) : jsstring :=
  js (DecimalString.NilZero.string_of_uint (N.to_uint n)).

(** ASCII lower-casing; the instance of [toLowerCase] used to run the
    scenarios. *)
Definition ascii_toLowerCase (s : jsstring) : jsstring :=
  map (fun c => if N.leb 65 c && N.leb c 90 then (c + 32)%N else c) s.

End JS.
Import JS.

(* ================================================================== *)
(** ** The regular-expression fragment of the source *)
(* ================================================================== *)

Module RegExp.

(** One code unit, or a quantified class: [Rep 0 g cls] is [cls*] or
    [cls*?], [Rep 3 true cls] is [cls{3,}]. *)
Inductive atom : Type :=
| Chr (c : N)
| Rep (min : nat) (greedy : bool) (cls : N -> bool).

Definition regex := list atom.

Definition lit (s : jsstring) : regex := map Chr s.

Definition any (c : N) : bool := true.
Definition only (d c : N) : bool := N.eqb c d.

(** Backtracking match anchored at the head of [s]: the length of the
    first match in priority order.  A greedy quantifier tries one more
    repetition before the rest of the pattern, a lazy one the rest of the
    pattern first. *)
Fixpoint match_here (re : regex) (s : jsstring) {struct re} : option nat :=
  match re with
  | [] => Some 0
  | Chr c :: re' =>
      match s with
      | x :: r => if N.eqb x c then option_map S (match_here re' r) else None
      | [] => None
      end
  | Rep min greedy cls :: re' =>
      (fix rep (min : nat) (s : jsstring) {struct s} : option nat :=
         match min with
         | S m =>
             match s with
             | x :: r => if cls x then option_map S (rep m r) else None
             | [] => None
             end
         | O =>
             if greedy then
               match (match s with
                      | x :: r => if cls x then option_map S (rep O r) else None
                      | [] => None
                      end) with
               | Some n => Some n
               | None => match_here re' s
               end
             else
               match match_here re' s with
               | Some n => Some n
               | None =>
                   match s with
                   | x :: r => if cls x then option_map S (rep O r) else None
                   | [] => None
                   end
               end
         end) min s
  end.

(** [s.replace(re, repl)] for a global ([/g]) expression: matches are
    taken left to right, the search resuming where the last match ended
    (one unit further after an empty match).  [skip] counts the units of
    the current match still to be dropped. *)
Fixpoint replace_from (re : regex) (repl : jsstring) (skip : nat)
         (s : jsstring) : jsstring :=
  match s with
  | [] =>
      match skip, match_here re [] with
      | O, Some _ => repl
      | _, _ => []
      end
  | c :: r =>
      match skip with
      | S k => replace_from re repl k r
      | O =>
          match match_here re s with
          | None => c :: replace_from re repl 0 r
          | Some O => repl ++ c :: replace_from re repl 0 r
          | Some (S k) => repl ++ replace_from re repl k r
          end
      end
  end.

Definition replace (re : regex) (repl : jsstring) (s : jsstring) : jsstring :=
  replace_from re repl 0 s.

(** [[...s.matchAll(re)]]: the matched substrings ([match[0]]) in order. *)
Fixpoint matchAll_from (re : regex) (skip : nat) (s : jsstring)
  : list jsstring :=
  match s with
  | [] =>
      match skip, match_here re [] with
      | O, Some _ => [[]]
      | _, _ => []
      end
  | c :: r =>
      match skip with
      | S k => matchAll_from re k r
      | O =>
          match match_here re s with
          | None => matchAll_from re 0 r
          | Some O => [] :: matchAll_from re 0 r
          | Some (S k) => firstn (S k) s :: matchAll_from re k r
          end
      end
  end.

Definition matchAll (re : regex) (s : jsstring) : list jsstring :=
  matchAll_from re 0 s.

End RegExp.
Import RegExp.

(** [/```chart-data\n([\s\S]*?)\n```/g] *)
Definition chartOpen : jsstring := js "```chart-data" ++ [nl].
Definition chartClose : jsstring := nl :: js "```".
Definition chartDataRegex : regex :=
  lit chartOpen ++ [Rep 0 false any] ++ lit chartClose.

(** [match[1]]: what the group [([\s\S]*?)] matched, that is the match
    without its opening literal and without its closing literal. *)
Definition group1 (m : jsstring) : jsstring :=
  firstn (length m - length chartOpen - length chartClose)
         (skipn (length chartOpen) m).

(** [/```\s*```/g] *)
Definition emptyBlockRegex : regex :=
  lit (js "```") ++ [Rep 0 true isWhiteSpace] ++ lit (js "```").

(** [/\n{3,}/g] *)
Definition lineBreaksRegex : regex := [Rep 3 true (only nl)].

(** [/---\s*\n\s*\n/g] *)
Definition ruleRegex : regex :=
  lit (js "---") ++ [Rep 0 true isWhiteSpace; Chr nl;
                     Rep 0 true isWhiteSpace; Chr nl].

(** [formatAIResponse] (data-analysis-interface.tsx). *)
Definition formatAIResponse (content : jsstring) : jsstring :=
  let cleanedContent := replace chartDataRegex [] content in
  let noEmptyBlocks := replace emptyBlockRegex [] cleanedContent in
  trim (replace ruleRegex (js "---" ++ [nl])
          (replace lineBreaksRegex [nl; nl] noEmptyBlocks)).


(* ================================================================== *)
(** ** JSON values *)
(* ================================================================== *)

Module JSON.

(** What [JSON.parse] returns.  A number is kept as its lexeme; an object
    as its members in document order. *)
Inductive json : Type :=
| JNull
| JBool (b : bool)
| JNumber (lexeme : jsstring)
| JString (s : jsstring)
| JArray (items : list json)
| JObject (members : list (jsstring * json)).

Definition is_null (v : json) : bool :=
  match v with JNull => true | _ => false end.

(** Property read [v.key]: the last member of that name, as [JSON.parse]
    lets a later duplicate win. *)
Definition get (key : jsstring) (v : json) : option json :=
  match v with
  | JObject members =>
      fold_left (fun acc kv =>
                   if strict_eq (fst kv) key then Some (snd kv) else acc)
                members None
  | _ => None
  end.

(** A reader for the JSON grammar (ECMA-404), the instance of
    [JSON.parse] used to run the scenarios: [None] stands for the
    [SyntaxError] that [JSON.parse] throws. *)
Definition is_json_ws (c : N) : bool :=
  match c with 32 | 9 | 10 | 13 => true | _ => false end%N.

Fixpoint skip_ws (s : jsstring) : jsstring :=
  match s with
  | c :: r => if is_json_ws c then skip_ws r else s
  | [] => []
  end.

Definition is_digit (c : N) : bool := N.leb 48 c && N.leb c 57.

Definition hex_value (c : N) : option N :=
  if is_digit c then Some (c - 48)%N
  else if N.leb 97 c && N.leb c 102 then Some (c - 87)%N
  else if N.leb 65 c && N.leb c 70 then Some (c - 55)%N
  else None.

Fixpoint span_digits (s : jsstring) : jsstring * jsstring :=
  match s with
  | c :: r =>
      if is_digit c then let (d, t) := span_digits r in (c :: d, t)
      else ([], s)
  | [] => ([], [])
  end.

(** A number lexeme: an optional minus, an integer part without leading
    zero, an optional fraction and an optional exponent. *)
Definition scan_number (s : jsstring) : option (jsstring * jsstring) :=
  let (sign, s1) :=
    match s with
    | 45%N :: r => ([45%N], r)
    | _ => ([], s)
    end in
  let (int, s2) := span_digits s1 in
  match int with
  | [] => None
  | d :: more =>
      if N.eqb d 48 && negb (Nat.eqb (length more) 0) then None else
      let frac :=
        match s2 with
        | 46%N :: r =>
            let (f, t) := span_digits r in
            match f with [] => None | _ => Some (46%N :: f, t) end
        | _ => Some ([], s2)
        end in
      match frac with
      | None => None
      | Some (f, s3) =>
          let exp :=
            match s3 with
            | e :: r =>
                if N.eqb e 101 || N.eqb e 69 then
                  let (sg, r') :=
                    match r with
                    | x :: t => if N.eqb x 43 || N.eqb x 45
                                then ([x], t) else ([], r)
                    | [] => ([], r)
                    end in
                  let (ds, t) := span_digits r' in
                  match ds with
                  | [] => None
                  | _ => Some (e :: sg ++ ds, t)
                  end
                else Some ([], s3)
            | [] => Some ([], s3)
            end in
          match exp with
          | None => None
          | Some (x, s4) => Some (sign ++ int ++ f ++ x, s4)
          end
      end
  end.

(** The units of a string literal after its opening quote. *)
Fixpoint scan_string (s : jsstring) : option (jsstring * jsstring) :=
  match s with
  | [] => None
  | 34%N :: r => Some ([], r)
  | 92%N :: e :: r =>
      let simple (c : N) :=
        match scan_string r with
        | Some (t, rest) => Some (c :: t, rest)
        | None => None
        end in
      match e with
      | 34 => simple 34 | 92 => simple 92 | 47 => simple 47
      | 98 => simple 8 | 102 => simple 12 | 110 => simple 10
      | 114 => simple 13 | 116 => simple 9
      | 117 =>
          match r with
          | a :: b :: c :: d :: r' =>
              match hex_value a, hex_value b, hex_value c, hex_value d,
                    scan_string r' with
              | Some a, Some b, Some c, Some d, Some (t, rest) =>
                  Some ((a * 4096 + b * 256 + c * 16 + d) :: t, rest)
              | _, _, _, _, _ => None
              end
          | _ => None
          end
      | _ => None
      end%N
  | 92%N :: [] => None
  | c :: r =>
      if N.ltb c 32 then None else
      match scan_string r with
      | Some (t, rest) => Some (c :: t, rest)
      | None => None
      end
  end.

Fixpoint parse_value (fuel : nat) (s : jsstring) : option (json * jsstring) :=
  match fuel with
  | O => None
  | S f =>
      match skip_ws s with
      | [] => None
      | c :: r =>
          if N.eqb c 123 then
            match skip_ws r with
            | 125%N :: r' => Some (JObject [], r')
            | _ => parse_members f r []
            end
          else if N.eqb c 91 then
            match skip_ws r with
            | 93%N :: r' => Some (JArray [], r')
            | _ => parse_elements f r []
            end
          else if N.eqb c 34 then
            match scan_string r with
            | Some (t, rest) => Some (JString t, rest)
            | None => None
            end
          else if startsWith (c :: r) (js "true")
          then Some (JBool true, skipn 4 (c :: r))
          else if startsWith (c :: r) (js "false")
          then Some (JBool false, skipn 5 (c :: r))
          else if startsWith (c :: r) (js "null")
          then Some (JNull, skipn 4 (c :: r))
          else
            match scan_number (c :: r) with
            | Some (lexeme, rest) => Some (JNumber lexeme, rest)
            | None => None
            end
      end
  end

with parse_elements (fuel : nat) (s : jsstring) (acc : list json)
  : option (json * jsstring) :=
  match fuel with
  | O => None
  | S f =>
      match parse_value f s with
      | None => None
      | Some (v, r) =>
          match skip_ws r with
          | 44%N :: r' => parse_elements f r' (v :: acc)
          | 93%N :: r' => Some (JArray (rev (v :: acc)), r')
          | _ => None
          end
      end
  end

with parse_members (fuel : nat) (s : jsstring) (acc : list (jsstring * json))
  : option (json * jsstring) :=
  match fuel with
  | O => None
  | S f =>
      match skip_ws s with
      | 34%N :: r =>
          match scan_string r with
          | None => None
          | Some (key, r1) =>
              match skip_ws r1 with
              | 58%N :: r2 =>
                  match parse_value f r2 with
                  | None => None
                  | Some (v, r3) =>
                      match skip_ws r3 with
                      | 44%N :: r4 => parse_members f r4 ((key, v) :: acc)
                      | 125%N :: r4 =>
                          Some (JObject (rev ((key, v) :: acc)), r4)
                      | _ => None
                      end
                  end
              | _ => None
              end
          end
      | _ => None
      end
  end.

Definition parse (text : jsstring) : option json :=
  match parse_value (2 * length text + 2) text with
  | Some (v, rest) =>
      match skip_ws rest with
      | [] => Some v
      | _ :: _ => None
      end
  | None => None
  end.

End JSON.
Import JSON.


(* ================================================================== *)
(** ** Console output and exceptions *)
(* ================================================================== *)

Module Eff.

Inductive exn : Type := SyntaxError.

(** How an evaluation ends: with a value, or with a thrown exception. *)
Inductive completion (A : Type) : Type :=
| Normal (a : A)
| Thrown (e : exn).
Arguments Thrown {A} e.

(** A computation that may write to the console and may throw. *)
Definition M (A : Type) : Type :=
  list String.string -> completion A * list String.string.

Definition ret {A} (a : A) : M A := fun log => (Normal a, log).

Definition bind {A B} (m : M A) (k : A -> M B) : M B :=
  fun log =>
    match m log with
    | (Normal a, log') => k a log'
    | (Thrown e, log') => (Thrown e, log')
    end.

Definition throw {A} (e : exn) : M A := fun log => (Thrown e, log).

(** [try { body } catch (err) { handler(err) }] *)
Definition try_catch {A} (body : M A) (handler : exn -> M A) : M A :=
  fun log =>
    match body log with
    | (Normal a, log') => (Normal a, log')
    | (Thrown e, log') => handler e log'
    end.

(** [console.error(label, ...)]: the label is recorded. *)
Definition console_error (label : String.string) : M unit :=
  fun log => (Normal tt, log ++ [label]).
Arguments console_error label%_string.

(** [xs.map(f)] for a callback with effects, left to right. *)
Fixpoint mapM {A B} (f : A -> M B) (xs : list A) : M (list B) :=
  match xs with
  | [] => ret []
  | x :: r => bind (f x) (fun y => bind (mapM f r) (fun ys => ret (y :: ys)))
  end.

End Eff.
Import Eff.

Notation "x <- m ;; k" := (bind m (fun x => k))
  (at level 61, m at next level, right associativity).
Notation "m ;;; k" := (bind m (fun _ => k))
  (at level 61, right associativity).

(* ================================================================== *)
(** ** data-visualization.tsx: [parseChartDataFromResponse] *)
(* ================================================================== *)

Section ChartData.

(** [JSON.parse] of the host: [None] when it throws. *)
Variable JSON_parse : jsstring -> option json.

Definition JSON_parse_M (text : jsstring) : M json :=
  match JSON_parse text with
  | Some v => ret v
  | None => throw SyntaxError
  end.

(** The callback of [matches.map]: the parse of [match[1]], or [null]
    after logging when the parse throws. *)
Definition parseMatch (m : jsstring) : M json :=
  try_catch (JSON_parse_M (group1 m))
            (fun err => console_error "Failed to parse chart data:" ;;;
                        ret JNull).

Definition parseChartDataFromResponse (analysisText : jsstring)
  : M (list json) :=
  let matches := matchAll chartDataRegex analysisText in
  if Nat.eqb (length matches) 0 then ret []
  else
    parsed <- mapM parseMatch matches ;;
    ret (filter (fun chart => negb (is_null chart)) parsed).

End ChartData.

(* ================================================================== *)
(** ** services/api.ts *)
(* ================================================================== *)

Module Api.

(** The interfaces of api.ts: a document that has every field, each of
    its declared type; [rows] is a count. *)
Record Summary : Type := {
  rows : N;
  columns : list jsstring;
  data_types : list (jsstring * jsstring)
}.

Record UploadResponse : Type := {
  file_id : jsstring;
  filename : jsstring;
  summary : Summary;
  data_preview : list (list (jsstring * json))
}.

(** A JSON object as it arrives in the body of an upload response: each
    field of the interface is absent ([None], it reads as [undefined]) or
    has its declared type, [rows] being a count as in [Summary].
    [uploadFile] returns such an object as it is, whatever it lacks.  A
    body that is JSON but not an object, or in which a field has another
    type, is not modelled. *)
Record SummaryDocument : Type := {
  rows_of : option N;
  columns_of : option (list jsstring);
  data_types_of : option (list (jsstring * jsstring))
}.

Record Document : Type := {
  file_id_of : option jsstring;
  filename_of : option jsstring;
  summary_of : option SummaryDocument;
  data_preview_of : option (list (list (jsstring * json)))
}.

(** A document of the interface as the JSON object it is. *)
Definition document (data : UploadResponse) : Document :=
  {| file_id_of := Some (file_id data);
     filename_of := Some (filename data);
     summary_of :=
       Some {| rows_of := Some (rows (summary data));
               columns_of := Some (columns (summary data));
               data_types_of := Some (data_types (summary data)) |};
     data_preview_of := Some (data_preview data) |}.

Record ChatResponse : Type := {
  chat_file_id : jsstring;
  chat_filename : jsstring;
  analysis : jsstring;
  conversation_length : option N
}.

(** What [fetch] and [response.json()] produce: the request fails, or a
    response arrives with a status and a body; the body is [None] when
    it is not JSON, so that [response.json()] rejects. *)
Inductive FetchOutcome (A : Type) : Type :=
| NetworkError
| HttpResponse (status : N) (body : option A).
Arguments NetworkError {A}.

(** [response.ok]: a status in the range 200-299. *)
Definition response_ok (status : N) : bool :=
  N.leb 200 status && N.leb status 299.

(** The promise of [uploadFile] and of [sendChatMessage]: resolved with
    the document, or rejected. *)
Inductive Settled (A : Type) : Type :=
| Resolved (data : A)
| Rejected.
Arguments Rejected {A}.

Definition settle {A} (o : FetchOutcome A) : Settled A :=
  match o with
  | NetworkError => Rejected
  | HttpResponse status body =>
      if response_ok status then
        match body with
        | Some data => Resolved data
        | None => Rejected
        end
      else Rejected
  end.

Definition uploadFile (o : FetchOutcome Document)
  : Settled Document := settle o.

(** A JSON body without an [analysis] string is counted with the bodies
    that are not JSON: [sendMessage] hands [data.analysis] to
    [parseChartDataFromResponse] before it writes any state, the call
    throws a [TypeError] on a value that is not a string, and the [catch]
    block of [sendMessage] runs as it does after a rejection. *)
Definition sendChatMessage (o : FetchOutcome ChatResponse)
  : Settled ChatResponse := settle o.

End Api.
Import Api.

(* ================================================================== *)
(** ** data-analysis-interface.tsx: the component *)
(* ================================================================== *)

Module Message.

Inductive Role : Type := user | assistant.

(** [interface Message]; an absent optional field is [None]. *)
Record t : Type := mk {
  role : Role;
  content : jsstring;
  formattedContent : option jsstring;
  timestamp : jsstring;
  charts : option (list json);
  isTyping : option bool
}.

End Message.

(** The [useState] cells of [DataAnalysisInterface].  [fileData] holds
    the object [uploadFile] resolved with, which the type [FileData]
    describes only when the server sent every field. *)
Record State : Type := {
  activeFileId : option jsstring;
  fileData : option Document;
  messages : list Message.t;
  newMessage : jsstring;
  isUploading : bool;
  isSending : bool;
  uploadProgress : N;
  visualizationCharts : list json;
  typingText : jsstring;
  isTyping : bool;
  fullResponse : jsstring
}.

Definition setActiveFileId (v : option jsstring) (r : State) : State :=
  {| activeFileId := v; fileData := fileData r; messages := messages r;
     newMessage := newMessage r; isUploading := isUploading r;
     isSending := isSending r; uploadProgress := uploadProgress r;
     visualizationCharts := visualizationCharts r;
     typingText := typingText r; isTyping := isTyping r;
     fullResponse := fullResponse r |}.

Definition setFileData (v : option Document) (r : State) : State :=
  {| activeFileId := activeFileId r; fileData := v; messages := messages r;
     newMessage := newMessage r; isUploading := isUploading r;
     isSending := isSending r; uploadProgress := uploadProgress r;
     visualizationCharts := visualizationCharts r;
     typingText := typingText r; isTyping := isTyping r;
     fullResponse := fullResponse r |}.

Definition setMessages (v : list Message.t) (r : State) : State :=
  {| activeFileId := activeFileId r; fileData := fileData r; messages := v;
     newMessage := newMessage r; isUploading := isUploading r;
     isSending := isSending r; uploadProgress := uploadProgress r;
     visualizationCharts := visualizationCharts r;
     typingText := typingText r; isTyping := isTyping r;
     fullResponse := fullResponse r |}.

Definition setNewMessage (v : jsstring) (r : State) : State :=
  {| activeFileId := activeFileId r; fileData := fileData r;
     messages := messages r; newMessage := v; isUploading := isUploading r;
     isSending := isSending r; uploadProgress := uploadProgress r;
     visualizationCharts := visualizationCharts r;
     typingText := typingText r; isTyping := isTyping r;
     fullResponse := fullResponse r |}.

Definition setIsUploading (v : bool) (r : State) : State :=
  {| activeFileId := activeFileId r; fileData := fileData r;
     messages := messages r; newMessage := newMessage r; isUploading := v;
     isSending := isSending r; uploadProgress := uploadProgress r;
     visualizationCharts := visualizationCharts r;
     typingText := typingText r; isTyping := isTyping r;
     fullResponse := fullResponse r |}.

Definition setIsSending (v : bool) (r : State) : State :=
  {| activeFileId := activeFileId r; fileData := fileData r;
     messages := messages r; newMessage := newMessage r;
     isUploading := isUploading r; isSending := v;
     uploadProgress := uploadProgress r;
     visualizationCharts := visualizationCharts r;
     typingText := typingText r; isTyping := isTyping r;
     fullResponse := fullResponse r |}.

Definition setUploadProgress (v : N) (r : State) : State :=
  {| activeFileId := activeFileId r; fileData := fileData r;
     messages := messages r; newMessage := newMessage r;
     isUploading := isUploading r; isSending := isSending r;
     uploadProgress := v; visualizationCharts := visualizationCharts r;
     typingText := typingText r; isTyping := isTyping r;
     fullResponse := fullResponse r |}.

Definition setVisualizationCharts (v : list json) (r : State) : State :=
  {| activeFileId := activeFileId r; fileData := fileData r;
     messages := messages r; newMessage := newMessage r;
     isUploading := isUploading r; isSending := isSending r;
     uploadProgress := uploadProgress r; visualizationCharts := v;
     typingText := typingText r; isTyping := isTyping r;
     fullResponse := fullResponse r |}.

Definition setTypingText (v : jsstring) (r : State) : State :=
  {| activeFileId := activeFileId r; fileData := fileData r;
     messages := messages r; newMessage := newMessage r;
     isUploading := isUploading r; isSending := isSending r;
     uploadProgress := uploadProgress r;
     visualizationCharts := visualizationCharts r; typingText := v;
     isTyping := isTyping r; fullResponse := fullResponse r |}.

Definition setIsTyping (v : bool) (r : State) : State :=
  {| activeFileId := activeFileId r; fileData := fileData r;
     messages := messages r; newMessage := newMessage r;
     isUploading := isUploading r; isSending := isSending r;
     uploadProgress := uploadProgress r;
     visualizationCharts := visualizationCharts r;
     typingText := typingText r; isTyping := v;
     fullResponse := fullResponse r |}.

Definition setFullResponse (v : jsstring) (r : State) : State :=
  {| activeFileId := activeFileId r; fileData := fileData r;
     messages := messages r; newMessage := newMessage r;
     isUploading := isUploading r; isSending := isSending r;
     uploadProgress := uploadProgress r;
     visualizationCharts := visualizationCharts r;
     typingText := typingText r; isTyping := isTyping r;
     fullResponse := v |}.

Record File : Type := { name : jsstring }.

Inductive Toast : Type :=
| toast_error (text : String.string)
| toast_success (text : String.string).
Arguments toast_error text%_string.
Arguments toast_success text%_string.

Inductive Request : Type :=
| POST_upload_file (file : File)
| POST_chat (file_id message : jsstring).

(** The callback handed to [simulateTyping] by [sendMessage]; it closes
    over [timestamp], [data.analysis] and [formattedContent]. *)
Inductive Callback : Type :=
| onTypingDone (timestamp analysis formattedContent : jsstring).

(** One call of [simulateTyping]: the closure [typeNextCharacter] with its
    cursor [index], and the delay of its pending timer in half
    milliseconds. *)
Record TypingTask : Type := {
  text : jsstring;
  index : nat;
  timer : N;
  callback : option Callback;
  live : bool
}.

(** The component together with what it has done to the outside: the
    notifications shown, the console, the requests issued, the handlers
    suspended at an [await] and the timers that are pending. *)
Record World : Type := {
  state : State;
  toasts : list Toast;
  console : list String.string;
  requests : list Request;
  uploadsPending : nat;
  chatsPending : nat;
  progressInterval : bool;
  uploadingTimers : nat;
  typing : list TypingTask
}.

Definition withState (v : State) (r : World) : World :=
  {| state := v; toasts := toasts r; console := console r;
     requests := requests r; uploadsPending := uploadsPending r;
     chatsPending := chatsPending r; progressInterval := progressInterval r;
     uploadingTimers := uploadingTimers r; typing := typing r |}.

Definition withToasts (v : list Toast) (r : World) : World :=
  {| state := state r; toasts := v; console := console r;
     requests := requests r; uploadsPending := uploadsPending r;
     chatsPending := chatsPending r; progressInterval := progressInterval r;
     uploadingTimers := uploadingTimers r; typing := typing r |}.

Definition withConsole (v : list String.string) (r : World) : World :=
  {| state := state r; toasts := toasts r; console := v;
     requests := requests r; uploadsPending := uploadsPending r;
     chatsPending := chatsPending r; progressInterval := progressInterval r;
     uploadingTimers := uploadingTimers r; typing := typing r |}.

Definition withRequests (v : list Request) (r : World) : World :=
  {| state := state r; toasts := toasts r; console := console r;
     requests := v; uploadsPending := uploadsPending r;
     chatsPending := chatsPending r; progressInterval := progressInterval r;
     uploadingTimers := uploadingTimers r; typing := typing r |}.

Definition withUploadsPending (v : nat) (r : World) : World :=
  {| state := state r; toasts := toasts r; console := console r;
     requests := requests r; uploadsPending := v;
     chatsPending := chatsPending r; progressInterval := progressInterval r;
     uploadingTimers := uploadingTimers r; typing := typing r |}.

Definition withChatsPending (v : nat) (r : World) : World :=
  {| state := state r; toasts := toasts r; console := console r;
     requests := requests r; uploadsPending := uploadsPending r;
     chatsPending := v; progressInterval := progressInterval r;
     uploadingTimers := uploadingTimers r; typing := typing r |}.

Definition withProgressInterval (v : bool) (r : World) : World :=
  {| state := state r; toasts := toasts r; console := console r;
     requests := requests r; uploadsPending := uploadsPending r;
     chatsPending := chatsPending r; progressInterval := v;
     uploadingTimers := uploadingTimers r; typing := typing r |}.

Definition withUploadingTimers (v : nat) (r : World) : World :=
  {| state := state r; toasts := toasts r; console := console r;
     requests := requests r; uploadsPending := uploadsPending r;
     chatsPending := chatsPending r; progressInterval := progressInterval r;
     uploadingTimers := v; typing := typing r |}.

Definition withTyping (v : list TypingTask) (r : World) : World :=
  {| state := state r; toasts := toasts r; console := console r;
     requests := requests r; uploadsPending := uploadsPending r;
     chatsPending := chatsPending r; progressInterval := progressInterval r;
     uploadingTimers := uploadingTimers r; typing := v |}.

Definition onState (f : State -> State) (w : World) : World :=
  withState (f (state w)) w.

Definition toast (t : Toast) (w : World) : World :=
  withToasts (toasts w ++ [t]) w.

Definition log_error (label : String.string) (w : World) : World :=
  withConsole (console w ++ [label]) w.
Arguments log_error label%_string w.

Definition fetch (r : Request) (w : World) : World :=
  withRequests (requests w ++ [r]) w.

Definition initialState : State :=
  {| activeFileId := None; fileData := None; messages := [];
     newMessage := []; isUploading := false; isSending := false;
     uploadProgress := 0; visualizationCharts := [];
     typingText := []; isTyping := false; fullResponse := [] |}.

Definition initial : World :=
  {| state := initialState; toasts := []; console := []; requests := [];
     uploadsPending := 0; chatsPending := 0; progressInterval := false;
     uploadingTimers := 0; typing := [] |}.

(** [!!s] for [s : string | null]: neither [null] nor empty. *)
Definition truthy (s : option jsstring) : bool :=
  match s with
  | Some (_ :: _) => true
  | _ => false
  end.

Fixpoint update_nth {A} (i : nat) (f : A -> A) (l : list A) : list A :=
  match l, i with
  | [], _ => []
  | x :: r, O => f x :: r
  | x :: r, S j => x :: update_nth j f r
  end.

(** The store update of the completion callback (lines 195-204):
    [prev.map(msg => msg.timestamp === timestamp
       ? {...msg, content, formattedContent, isTyping: false} : msg)]. *)
Definition updateByTimestamp (ts analysis formatted : jsstring)
           (prev : list Message.t) : list Message.t :=
  map (fun msg =>
         if strict_eq (Message.timestamp msg) ts then
           {| Message.role := Message.role msg;
              Message.content := analysis;
              Message.formattedContent := Some formatted;
              Message.timestamp := Message.timestamp msg;
              Message.charts := Message.charts msg;
              Message.isTyping := Some false |}
         else msg) prev.

Definition run_callback (cb : option Callback) (s : State) : State :=
  match cb with
  | Some (onTypingDone ts analysis formatted) =>
      setMessages (updateByTimestamp ts analysis formatted (messages s)) s
  | None => s
  end.

(** *** [simulateTyping] *)

Definition typingInterval (text : jsstring) : N :=
  if Nat.ltb 1000 (length text) then 1%N else 2%N.

Definition chunkSize (text : jsstring) : nat :=
  if Nat.ltb 2000 (length text) then 10
  else if Nat.ltb 1000 (length text) then 8
  else if Nat.ltb 500 (length text) then 5
  else 3.

Definition sentence_end (c : jsstring) : bool :=
  strict_eq c (js ".") || strict_eq c (js "?") || strict_eq c (js "!").

Definition simulateTyping (text : jsstring) (callback : option Callback)
           (w : World) : World :=
  let w := onState (fun s => setFullResponse text
                               (setTypingText [] (setIsTyping true s))) w in
  withTyping (typing w ++ [{| text := text; index := 0;
                              timer := typingInterval text;
                              callback := callback; live := true |}]) w.

(** The timer of task [i] fires: one call of [typeNextCharacter]. *)
Definition typeNextCharacter (i : nat) (w : World) : World :=
  match nth_error (typing w) i with
  | None => w
  | Some task =>
      if negb (live task) then w
      else
        let text := text task in
        if Nat.ltb (index task) (length text) then
          let endIndex :=
            Nat.min (index task + chunkSize text) (length text) in
          let chunk := substring text (index task) endIndex in
          let nextInterval :=
            if sentence_end (charAt text (endIndex - 1))
            then (typingInterval text * 2)%N
            else typingInterval text in
          let w := onState (fun s =>
                     setTypingText (typingText s ++ chunk) s) w in
          withTyping
            (update_nth i (fun t => {| text := text; index := endIndex;
                                       timer := nextInterval;
                                       callback := callback t;
                                       live := true |}) (typing w)) w
        else
          let w := onState (fun s => run_callback (callback task)
                                       (setIsTyping false s)) w in
          withTyping
            (update_nth i (fun t => {| text := text; index := index t;
                                       timer := timer t;
                                       callback := callback t;
                                       live := false |}) (typing w)) w
  end.

(** [`${column}`] for [column : string | undefined]. *)
Definition template (column : option jsstring) : jsstring :=
  match column with
  | Some s => s
  | None => js "undefined"
  end.

(** [`${count}`] for [count : number | undefined]. *)
Definition template_number (count : option N) : jsstring :=
  match count with
  | Some n => Number_toString n
  | None => js "undefined"
  end.

Section Handlers.

(** The host functions the handlers call. *)
Variable JSON_parse : jsstring -> option json.
Variable toLowerCase : jsstring -> jsstring.

(** *** [handleFileUpload] *)

Definition allowedExtension (fileName : jsstring) : bool :=
  endsWith fileName (js ".xlsx") || endsWith fileName (js ".xls")
  || endsWith fileName (js ".csv").

(** Up to the [await]: validation, then the request. *)
Definition handleFileUpload (file : option File) (w : World) : World :=
  match file with
  | None => w
  | Some file =>
      let fileName := toLowerCase (name file) in
      if negb (endsWith fileName (js ".xlsx"))
         && negb (endsWith fileName (js ".xls"))
         && negb (endsWith fileName (js ".csv"))
      then
        toast (toast_error
          "Please upload an Excel file (.xlsx, .xls) or CSV file (.csv)") w
      else
        let w := onState (fun s => setUploadProgress 0
                                     (setIsUploading true s)) w in
        let w := withProgressInterval true w in
        withUploadsPending (S (uploadsPending w))
          (fetch (POST_upload_file file) w)
  end.

(** The callback of [setInterval]. *)
Definition progressTick (w : World) : World :=
  if N.leb 95 (uploadProgress (state w))
  then withProgressInterval false w
  else onState (fun s => setUploadProgress (uploadProgress s + 5) s) w.

(** The template literal of the welcome message, with the texts of its
    three substitutions. *)
Definition welcomeText (filename rows columns : jsstring) : jsstring :=
  js "**File Analysis Complete!**" ++ [nl; nl]
  ++ js "I've processed your file " ++ [34%N] ++ js "**"
  ++ filename ++ js "**" ++ [34%N] ++ js ". " ++ [nl; nl]
  ++ js "Here's a summary of your data:" ++ [nl]
  ++ js "* **Rows:** " ++ rows ++ [nl]
  ++ js "* **Columns:** " ++ columns ++ [nl; nl]
  ++ js "How can I help you analyze this data? You can ask me to:" ++ [nl]
  ++ js "* Generate visualizations" ++ [nl]
  ++ js "* Calculate statistics" ++ [nl]
  ++ js "* Find trends or patterns" ++ [nl]
  ++ js "* Summarize key insights".

(** [const welcomeMessage = `...`]: [None] stands for the [TypeError] of
    [data.summary.rows] when [summary] is absent and of
    [data.summary.columns.length] when [columns] is absent; an absent
    [filename] or [rows] is printed as [undefined]. *)
Definition welcomeMessage (data : Document) : option jsstring :=
  match summary_of data with
  | Some summary =>
      match columns_of summary with
      | Some columns =>
          Some (welcomeText
                  (template (filename_of data))
                  (template_number (rows_of summary))
                  (Number_toString (N.of_nat (length columns))))
      | None => None
      end
  | None => None
  end.

(** The [catch] block of [handleFileUpload]. *)
Definition handleFileUpload_catch (w : World) : World :=
  toast (toast_error "Failed to upload file. Please try again.")
        (log_error "Error uploading file:" w).

(** From the [await] on: [try] continues or [catch] runs, then
    [finally].  When the promise resolves, [setFileData] and
    [setActiveFileId] run before the welcome message is built, so that a
    [TypeError] of the template literal reaches [catch] with both cells
    written and the messages as they were. *)
Definition handleFileUpload_settled (result : Settled Document)
           (now : jsstring) (w : World) : World :=
  let w :=
    match result with
    | Resolved data =>
        let w :=
          onState (fun s =>
            setActiveFileId (file_id_of data)
              (setFileData (Some data) s)) w in
        match welcomeMessage data with
        | Some welcomeMessage =>
            let w :=
              onState
                (setMessages
                   [{| Message.role := Message.assistant;
                       Message.content := welcomeMessage;
                       Message.formattedContent := Some welcomeMessage;
                       Message.timestamp := now;
                       Message.charts := None;
                       Message.isTyping := None |}]) w in
            toast (toast_success "File uploaded successfully!") w
        | None => handleFileUpload_catch w
        end
    | Rejected => handleFileUpload_catch w
    end in
  let w := withProgressInterval false w in
  let w := onState (setUploadProgress 100) w in
  withUploadingTimers (S (uploadingTimers w))
    (withUploadsPending (pred (uploadsPending w)) w).

(** [setTimeout(() => setIsUploading(false), 500)] fires. *)
Definition uploadingTimeout (w : World) : World :=
  withUploadingTimers (pred (uploadingTimers w))
    (onState (setIsUploading false) w).

(** *** [sendMessage] *)

(** [messageText || newMessage] *)
Definition messageContent (messageText : option jsstring)
           (newMessage : jsstring) : jsstring :=
  match messageText with
  | Some (c :: r) => c :: r
  | _ => newMessage
  end.

(** Up to the [await].  The handler reads [newMessage] and
    [activeFileId] from the render it was created in ([closure]); its
    state updates apply to the current state. *)
Definition sendMessage_in (closure : State) (messageText : option jsstring)
           (now : jsstring) (w : World) : World :=
  let messageContent := messageContent messageText (newMessage closure) in
  match trim messageContent, activeFileId closure with
  | _ :: _, Some (i :: d) =>
      let userMessage :=
        {| Message.role := Message.user;
           Message.content := messageContent;
           Message.formattedContent := None;
           Message.timestamp := now;
           Message.charts := None;
           Message.isTyping := None |} in
      let w := onState (fun s =>
                 setIsSending true
                   (setNewMessage []
                      (setMessages (messages s ++ [userMessage]) s))) w in
      withChatsPending (S (chatsPending w))
        (fetch (POST_chat (i :: d) (Message.content userMessage)) w)
  | _, _ => w
  end.

(** A call from the current render. *)
Definition sendMessage (messageText : option jsstring) (now : jsstring)
           (w : World) : World :=
  sendMessage_in (state w) messageText now w.

(** The [catch] block of [sendMessage]. *)
Definition sendMessage_catch (now : jsstring) (w : World) : World :=
  let errorMessage :=
    js "**Sorry!** I encountered an error. Please try again." in
  let w := toast (toast_error "Failed to get a response. Please try again.")
                 (log_error "Error sending message:" w) in
  onState (fun s =>
    setMessages
      (messages s ++
         [{| Message.role := Message.assistant;
             Message.content := errorMessage;
             Message.formattedContent := Some errorMessage;
             Message.timestamp := now;
             Message.charts := None;
             Message.isTyping := None |}]) s) w.

(** From the [await] on. *)
Definition sendMessage_settled (result : Settled ChatResponse)
           (now : jsstring) (w : World) : World :=
  let w :=
    match result with
    | Resolved data =>
        match parseChartDataFromResponse JSON_parse (analysis data)
                                         (console w) with
        | (Normal charts, log) =>
            let w := withConsole log w in
            let w :=
              match charts with
              | _ :: _ => onState (setVisualizationCharts charts) w
              | [] => w
              end in
            let formattedContent := formatAIResponse (analysis data) in
            let timestamp := now in
            let newMessage :=
              {| Message.role := Message.assistant;
                 Message.content := [];
                 Message.formattedContent := Some [];
                 Message.timestamp := timestamp;
                 Message.isTyping := Some true;
                 Message.charts :=
                   match charts with _ :: _ => Some charts | [] => None end
              |} in
            let w := onState (fun s =>
                       setMessages (messages s ++ [newMessage]) s) w in
            simulateTyping formattedContent
              (Some (onTypingDone timestamp (analysis data)
                                  formattedContent)) w
        | (Thrown _, log) => sendMessage_catch now (withConsole log w)
        end
    | Rejected => sendMessage_catch now w
    end in
  withChatsPending (pred (chatsPending w)) (onState (setIsSending false) w).

(** [handleInsightClick]: [setNewMessage(insight); sendMessage(insight)],
    the second call still seeing the state of the render. *)
Definition handleInsightClick (insight now : jsstring) (w : World) : World :=
  sendMessage_in (state w) (Some insight) now
                 (onState (setNewMessage insight) w).

(** *** The event loop *)

(** What can happen next: a user action on a control, the settlement of a
    suspended request, or the firing of a pending timer. *)
Inductive Event : Type :=
| FileInputChange (file : option File)
| UploadSettled (outcome : FetchOutcome Document) (now : jsstring)
| ProgressInterval
| UploadingTimeout
| TextareaChange (value : jsstring)
| SubmitMessage (now : jsstring)
| InsightClick (insight now : jsstring)
| ChatSettled (outcome : FetchOutcome ChatResponse) (now : jsstring)
| TypingTimeout (task : nat).

(** When an event can occur.  The upload card is rendered while
    [!activeFileId] and its input is [disabled={isUploading}]; the chat
    card is rendered otherwise, its textarea is [disabled={isSending}]
    and the insight badges are always clickable. *)
Definition enabled (w : World) (e : Event) : bool :=
  match e with
  | FileInputChange _ =>
      negb (truthy (activeFileId (state w))) && negb (isUploading (state w))
  | UploadSettled _ _ => Nat.ltb 0 (uploadsPending w)
  | ProgressInterval => progressInterval w
  | UploadingTimeout => Nat.ltb 0 (uploadingTimers w)
  | TextareaChange _ =>
      truthy (activeFileId (state w)) && negb (isSending (state w))
  | SubmitMessage _ =>
      truthy (activeFileId (state w)) && negb (isSending (state w))
  | InsightClick _ _ => truthy (activeFileId (state w))
  | ChatSettled _ _ => Nat.ltb 0 (chatsPending w)
  | TypingTimeout i =>
      match nth_error (typing w) i with
      | Some task => live task
      | None => false
      end
  end.

Definition step (w : World) (e : Event) : World :=
  match e with
  | FileInputChange file => handleFileUpload file w
  | UploadSettled outcome now =>
      handleFileUpload_settled (uploadFile outcome) now w
  | ProgressInterval => progressTick w
  | UploadingTimeout => uploadingTimeout w
  | TextareaChange value => onState (setNewMessage value) w
  | SubmitMessage now => sendMessage None now w
  | InsightClick insight now => handleInsightClick insight now w
  | ChatSettled outcome now =>
      sendMessage_settled (sendChatMessage outcome) now w
  | TypingTimeout i => typeNextCharacter i w
  end.

Definition run (w : World) (trace : list Event) : World :=
  fold_left step trace w.

(** The worlds a session can be in.  A render that throws unmounts the
    component, which ends its session; [enabled] does not look for that,
    so that the worlds which would follow such a render are counted as
    well: what holds of every reachable world holds of every world of a
    session. *)
Inductive reachable : World -> Prop :=
| reachable_initial : reachable initial
| reachable_step w e :
    reachable w -> enabled w e = true -> reachable (step w e).

End Handlers.

(* ================================================================== *)
(** ** Vocabulary of the statements *)
(* ================================================================== *)

(** How many messages of the store are being revealed. *)
Definition revealing (msgs : list Message.t) : nat :=
  length (filter (fun m => match Message.isTyping m with
                           | Some true => true
                           | _ => false
                           end) msgs).

(** A trace each of whose events is enabled when it occurs. *)
Fixpoint legal (JSON_parse : jsstring -> option json)
         (toLowerCase : jsstring -> jsstring)
         (w : World) (trace : list Event) : bool :=
  match trace with
  | [] => true
  | e :: rest =>
      enabled w e
      && legal JSON_parse toLowerCase (step JSON_parse toLowerCase w e) rest
  end.

(** [k] consecutive firings of the timer of task [i]. *)
Definition run_ticks (i k : nat) (w : World) : World :=
  Nat.iter k (typeNextCharacter i) w.

(** The number of chunks of a text: its length over the chunk size,
    rounded up. *)
Definition chunks (text : jsstring) : nat :=
  (length text + chunkSize text - 1) / chunkSize text.


(** The entry that [matches.map] produces for one match. *)
Definition parsed_or_null (JSON_parse : jsstring -> option json)
           (m : jsstring) : json :=
  match JSON_parse (group1 m) with
  | Some v => v
  | None => JNull
  end.

(** The console lines written for the matches whose body does not
    parse. *)
Definition parse_errors (JSON_parse : jsstring -> option json)
           (matches : list jsstring) : list String.string :=
  flat_map (fun m => match JSON_parse (group1 m) with
                     | Some _ => []
                     | None => ["Failed to parse chart data:"%string]
                     end) matches.

(** The charts of a reply. *)
Definition charts_of (JSON_parse : jsstring -> option json)
           (analysisText : jsstring) : list json :=
  filter (fun chart => negb (is_null chart))
         (map (parsed_or_null JSON_parse)
              (matchAll chartDataRegex analysisText)).

(** The placeholder that [sendMessage] appends for a reply. *)
Definition placeholder_for (charts : list json) (timestamp : jsstring)
  : Message.t :=
  {| Message.role := Message.assistant;
     Message.content := [];
     Message.formattedContent := Some [];
     Message.timestamp := timestamp;
     Message.charts := match charts with _ :: _ => Some charts | [] => None end;
     Message.isTyping := Some true |}.

(** What holds of every world of a session: at most one upload is
    suspended or waiting for its timer, and then [isUploading] is set; an
    upload is suspended only while no file is active; and while no file
    is active no chart has been published and no chat request is
    suspended. *)
Definition session_invariant (w : World) : Prop :=
  (isUploading (state w) = false ->
   uploadsPending w + uploadingTimers w = 0)
  /\ uploadsPending w + uploadingTimers w <= 1
  /\ (0 < uploadsPending w -> truthy (activeFileId (state w)) = false)
  /\ (truthy (activeFileId (state w)) = false ->
      visualizationCharts (state w) = [] /\ chatsPending w = 0).

(** A reply written as prose and chart blocks in turn: [prose], then for
    each pair a block with that body followed by that prose. *)
Definition chartBlock (body : jsstring) : jsstring :=
  chartOpen ++ body ++ chartClose.

Fixpoint render (prose : jsstring) (blocks : list (jsstring * jsstring))
  : jsstring :=
  match blocks with
  | [] => prose
  | (body, after) :: rest => prose ++ chartBlock body ++ render after rest
  end.

(** The prose of such a reply, the blocks taken out. *)
Definition prose_of (prose : jsstring) (blocks : list (jsstring * jsstring))
  : jsstring :=
  prose ++ concat (map snd blocks).

(** The blocks are the chart blocks of the reply: the prose before a
    block does not contain the opening fence, no body contains the
    closing fence, and no block starts in the prose after the last block
    (an opening fence that is never closed may stand there). *)
Fixpoint well_delimited (prose : jsstring)
         (blocks : list (jsstring * jsstring)) : bool :=
  match blocks with
  | [] =>
      match matchAll chartDataRegex prose with
      | [] => true
      | _ :: _ => false
      end
  | (body, after) :: rest =>
      negb (includes prose chartOpen)
      && negb (includes body chartClose)
      && well_delimited after rest
  end.

(** A body that is a chart: it parses, and not to [null]. *)
Definition well_formed (JSON_parse : jsstring -> option json)
           (body : jsstring) (chart : json) : Prop :=
  JSON_parse body = Some chart /\ is_null chart = false.

(** [formatAIResponse] after its first step: empty fences removed, line
    breaks and rules tidied, ends trimmed. *)
Definition tidy (cleanedContent : jsstring) : jsstring :=
  trim (replace ruleRegex (js "---" ++ [nl])
          (replace lineBreaksRegex [nl; nl]
             (replace emptyBlockRegex [] cleanedContent))).

(** No match of [re] starts anywhere in [s]. *)
Definition unmatched (re : regex) (s : jsstring) : Prop :=
  forall k, match_here re (skipn k s) = None.

(** A code fence: three backticks. *)
Definition fence : jsstring := js "```".

(** The length of the longest prefix of [s] made of units of [cls]. *)
Fixpoint lead (cls : N -> bool) (s : jsstring) : nat :=
  match s with
  | c :: r => if cls c then S (lead cls r) else 0
  | [] => 0
  end.

(** The number of line breaks in the white space that [s] starts with. *)
Fixpoint breaks (s : jsstring) : nat :=
  match s with
  | c :: r =>
      if isWhiteSpace c
      then (if N.eqb c nl then 1 else 0) + breaks r
      else 0
  | [] => 0
  end.

(** Where the last of these line breaks ends. *)
Fixpoint last_break (s : jsstring) : option nat :=
  match s with
  | c :: r =>
      if isWhiteSpace c then
        match last_break r with
        | Some n => Some (S n)
        | None => if N.eqb c nl then Some 1 else None
        end
      else None
  | [] => None
  end.

(* ================================================================== *)
(** ** Scenarios *)
(* ================================================================== *)

Module Scenario.

Definition sales : UploadResponse :=
  {| file_id := js "f-1"; filename := js "sales.csv";
     summary := {| rows := 3;
                   columns := [js "region"; js "revenue"];
                   data_types := [(js "region", js "object");
                                  (js "revenue", js "int64")] |};
     data_preview := [] |}.

Definition sales_file : File := {| name := js "sales.csv" |}.

Definition reply (analysis : jsstring) : FetchOutcome ChatResponse :=
  HttpResponse 200 (Some {| chat_file_id := js "f-1";
                            chat_filename := js "sales.csv";
                            analysis := analysis;
                            conversation_length := None |}).

(** A file is uploaded; no message has been sent yet. *)
Definition uploaded_trace : list Event :=
  [FileInputChange (Some sales_file);
   UploadSettled (HttpResponse 200 (Some (document sales))) (js "t0");
   UploadingTimeout].

Definition uploaded : World :=
  run JSON.parse ascii_toLowerCase initial uploaded_trace.

(** A second message is sent after the first reply has arrived and one
    chunk of it has been revealed; its reply arrives before the first
    reveal is over. *)
Definition overlapping_trace : list Event :=
  uploaded_trace ++
  [TextareaChange (js "a"); SubmitMessage (js "t1");
   ChatSettled (reply (js "Hello world.")) (js "t2");
   TypingTimeout 0;
   TextareaChange (js "b"); SubmitMessage (js "t3");
   ChatSettled (reply (js "Goodbye.")) (js "t4")].

Definition overlapping : World :=
  run JSON.parse ascii_toLowerCase initial overlapping_trace.

(** Stores for the update by timestamp. *)
Definition question : Message.t :=
  {| Message.role := Message.user; Message.content := js "total?";
     Message.formattedContent := None; Message.timestamp := js "t1";
     Message.charts := None; Message.isTyping := None |}.

Definition placeholder : Message.t :=
  {| Message.role := Message.assistant; Message.content := [];
     Message.formattedContent := Some []; Message.timestamp := js "t2";
     Message.charts := None; Message.isTyping := Some true |}.

(** A reply with one chart that parses and one that does not. *)
Definition bar_chart : jsstring :=
  jsq "{'title':'T','description':'D','type':'bar','labels':['a'],"
  ++ jsq "'datasets':[{'label':'s','data':[1]}]}".

Definition bar_chart_value : json :=
  JObject [(js "title", JString (js "T"));
           (js "description", JString (js "D"));
           (js "type", JString (js "bar"));
           (js "labels", JArray [JString (js "a")]);
           (js "datasets",
            JArray [JObject [(js "label", JString (js "s"));
                             (js "data", JArray [JNumber (js "1")])]])].


Definition totals : jsstring := js "Totals:" ++ [nl].
Definition done : jsstring := nl :: js "Done.".

(** A reply whose first part ends with the beginning of a fence that the
    text after the chart block completes. *)
Definition split_fence : jsstring :=
  render (js "```chart-")
         [(bar_chart, js "data" ++ [nl] ++ bar_chart ++ chartClose)].

(** A reply cut short inside its second chart block: the opening fence of
    that block is never closed. *)
Definition cut_short : jsstring :=
  render totals [(bar_chart, nl :: chartOpen ++ jsq "{'title':")].

(** A reply without chart block in which an empty pair of fences sits
    inside an opening fence. *)
Definition nested_fence : jsstring :=
  js "```chart-``````data" ++ [nl] ++ js "X" ++ chartClose.

(** A reply without chart block and without fence, to be tidied. *)
Definition untidy : jsstring :=
  js "  Totals:" ++ [nl; nl; nl; nl] ++ js "---  " ++ [nl; 32%N; nl]
  ++ js "Done. " ++ [nl].

End Scenario.


(* ================================================================== *)
(** ** data-analysis-interface.tsx: the suggested insights *)
(* ================================================================== *)

(** The four column lists that [generateSuggestions] fills. *)
Record Columns : Type := {
  numericColumns : list jsstring;
  dateColumns : list jsstring;
  textColumns : list jsstring;
  locationColumns : list jsstring
}.

Section Suggestions.

(** The host functions that the generator calls: [parseFloat] and
    [Number] on strings, [isNaN] and [isFinite] on their results. *)
Variable toLowerCase : jsstring -> jsstring.
Variable number : Type.
Variable parseFloat : jsstring -> number.
Variable Number : jsstring -> number.
Variable isNaN : number -> bool.
Variable isFinite : number -> bool.

(** [findColumnByKeywords] *)
Definition findColumnByKeywords (columns keywords : list jsstring)
  : option jsstring :=
  find (fun col =>
          existsb (fun keyword =>
                     includes (toLowerCase col) (toLowerCase keyword))
                  keywords)
       columns.

(** [isNumericString]: [false] unless [typeof value === 'string']. *)
Definition isNumericString (value : json) : bool :=
  match value with
  | JString s => negb (isNaN (parseFloat s)) && isFinite (Number s)
  | _ => false
  end.

(** [containsNumericData]: the loop over the rows
    [0 .. Math.min(3, data_preview.length) - 1], left at the first row in
    which the column holds a number or a numeric string. *)
Definition containsNumericData (data : UploadResponse)
           (columnName : jsstring) : bool :=
  existsb (fun row =>
             match get columnName (JObject row) with
             | Some (JNumber _) => true
             | Some value => isNumericString value
             | None => false
             end)
          (firstn 3 (data_preview data)).

(** The callback of [Object.entries(data.summary.data_types).forEach]:
    the column is pushed on one of the date, numeric and text lists, and
    on the location list besides when its name says so. *)
Definition categorize (data : UploadResponse) (cols : Columns)
           (entry : jsstring * jsstring) : Columns :=
  let (column, type) := entry in
  let cols :=
    if includes type (js "date") || includes type (js "time")
       || includes (toLowerCase column) (js "date")
       || includes (toLowerCase column) (js "time")
    then {| numericColumns := numericColumns cols;
            dateColumns := dateColumns cols ++ [column];
            textColumns := textColumns cols;
            locationColumns := locationColumns cols |}
    else if includes type (js "int") || includes type (js "float")
            || includes type (js "number") || includes type (js "double")
            || containsNumericData data column
    then {| numericColumns := numericColumns cols ++ [column];
            dateColumns := dateColumns cols;
            textColumns := textColumns cols;
            locationColumns := locationColumns cols |}
    else {| numericColumns := numericColumns cols;
            dateColumns := dateColumns cols;
            textColumns := textColumns cols ++ [column];
            locationColumns := locationColumns cols |} in
  if includes (toLowerCase column) (js "area")
     || includes (toLowerCase column) (js "location")
     || includes (toLowerCase column) (js "region")
     || includes (toLowerCase column) (js "city")
     || includes (toLowerCase column) (js "country")
     || includes (toLowerCase column) (js "hub")
  then {| numericColumns := numericColumns cols;
          dateColumns := dateColumns cols;
          textColumns := textColumns cols;
          locationColumns := locationColumns cols ++ [column] |}
  else cols.

(** The first pass of [generateSuggestions]; [data_types] lists the
    entries of the object in the order of [Object.entries]. *)
Definition categorized (data : UploadResponse) : Columns :=
  fold_left (categorize data) (data_types (summary data))
            {| numericColumns := []; dateColumns := [];
               textColumns := []; locationColumns := [] |}.

(** The suggestions pushed when fewer than three have been found. *)
Definition generalSuggestions : list jsstring :=
  [js "Detect patterns or anomalies";
   js "Generate summary statistics";
   js "Visualize key relationships"].

(** [generateSuggestions]; every [suggestions.push] under a condition is
    an append of one suggestion or of none. *)
Definition generateSuggestions (data : UploadResponse) : list jsstring :=
  let cols := categorized data in
  let numericColumns := numericColumns cols in
  let dateColumns := dateColumns cols in
  let textColumns := textColumns cols in
  let locationColumns := locationColumns cols in
  let suggestions : list jsstring := [] in
  let suggestions := suggestions ++
    match numericColumns with
    | n0 :: _ => [js "Show top 5 items by " ++ n0;
                  js "Analyze distribution of " ++ n0]
    | [] => []
    end in
  let suggestions := suggestions ++
    match dateColumns, numericColumns with
    | d0 :: _, n0 :: _ => [js "Show " ++ n0 ++ js " trends over " ++ d0]
    | d0 :: _, [] => [js "Analyze patterns in " ++ d0]
    | [], _ => []
    end in
  let suggestions := suggestions ++
    match textColumns, numericColumns with
    | t0 :: _, n0 :: _ => [js "Compare " ++ n0 ++ js " by " ++ t0]
    | _, _ => []
    end in
  let suggestions := suggestions ++
    match locationColumns, numericColumns with
    | l0 :: _, n0 :: _ => [js "View " ++ n0 ++ js " by " ++ l0]
    | _, _ => []
    end in
  let revenueColumn :=
    findColumnByKeywords numericColumns
      [js "revenue"; js "sales"; js "price"; js "amount"; js "total"] in
  let customerColumn :=
    findColumnByKeywords textColumns
      [js "customer"; js "client"; js "user"; js "name"] in
  let productColumn :=
    findColumnByKeywords textColumns
      [js "product"; js "item"; js "service"; js "goods"; js "dish";
       js "menu"] in
  let hubColumn :=
    findColumnByKeywords textColumns
      [js "hub"; js "branch"; js "location"; js "store"] in
  let deliveredColumn :=
    findColumnByKeywords numericColumns
      [js "delivered"; js "delivery"; js "fulfilled"] in
  let rejectedColumn :=
    findColumnByKeywords numericColumns
      [js "rejected"; js "cancelled"; js "returned"] in
  let discountColumn :=
    findColumnByKeywords numericColumns
      [js "discount"; js "promo"; js "coupon"] in
  let commissionColumn :=
    findColumnByKeywords numericColumns
      [js "commission"; js "fee"; js "charge"] in
  let suggestions := suggestions ++
    (if truthy customerColumn then
       (if truthy revenueColumn
        then [js "Show top " ++ template customerColumn ++ js "s by "
              ++ template revenueColumn]
        else [])
       ++ (if truthy deliveredColumn && truthy rejectedColumn
           then [js "Compare " ++ template deliveredColumn ++ js " vs "
                 ++ template rejectedColumn ++ js " by "
                 ++ template customerColumn]
           else [])
     else []) in
  let suggestions := suggestions ++
    (if truthy revenueColumn then
       (if truthy hubColumn
        then [js "Compare " ++ template revenueColumn
              ++ js " across different " ++ template hubColumn ++ js "s"]
        else [])
       ++ (if truthy discountColumn
           then [js "Analyze impact of " ++ template discountColumn
                 ++ js "s on " ++ template revenueColumn]
           else [])
       ++ [js "Show top performers by " ++ template revenueColumn]
     else []) in
  let suggestions := suggestions ++
    (if truthy deliveredColumn && truthy hubColumn
     then [js "Analyze delivery performance by " ++ template hubColumn]
     else []) in
  let suggestions := suggestions ++
    (if truthy commissionColumn && truthy revenueColumn
     then [js "Show relationship between " ++ template commissionColumn
           ++ js " and " ++ template revenueColumn]
     else []) in
  let suggestions := suggestions ++
    (if truthy productColumn
     then [js "Analyze performance of different "
           ++ template productColumn ++ js " types"]
     else []) in
  let suggestions :=
    if Nat.ltb (length suggestions) 3
    then suggestions ++ generalSuggestions
    else suggestions in
  firstn 5 suggestions.

(** The initial value of the [suggestedInsights] cell. *)
Definition initialSuggestions : list jsstring :=
  [js "Generate data visualizations";
   js "Analyze patterns in data";
   js "Show summary statistics";
   js "Detect outliers or anomalies";
   js "Compare key metrics"].

(** What [generateSuggestions] reads of the object in [fileData]:
    [data.summary.data_types], where an absent [summary] or an absent
    [data_types] is a [TypeError] ([None]), and [data.data_preview],
    where [!data.data_preview] makes an absent preview count as an empty
    one.  It reads no other field; they are left empty here. *)
Definition suggestionData (doc : Document) : option UploadResponse :=
  match summary_of doc with
  | Some summary =>
      match data_types_of summary with
      | Some data_types =>
          Some {| file_id := []; filename := [];
                  summary := {| rows := 0; columns := [];
                                data_types := data_types |};
                  data_preview :=
                    match data_preview_of doc with
                    | Some data_preview => data_preview
                    | None => []
                    end |}
      | None => None
      end
  | None => None
  end.

(** The [suggestedInsights] cell once the effects of a render have run:
    it is written by one effect only, which stores
    [generateSuggestions(fileData)] whenever [fileData] has changed to an
    object.  [None]: the call throws, which unmounts the component. *)
Definition suggestedInsights (s : State) : option (list jsstring) :=
  match fileData s with
  | Some doc => option_map generateSuggestions (suggestionData doc)
  | None => Some initialSuggestions
  end.

End Suggestions.

(* ================================================================== *)
(** ** data-analysis-interface.tsx: what the chat card shows *)
(* ================================================================== *)

(** The text of a message bubble: the typing text of the component while
    the message is being revealed, otherwise the formatted content of an
    assistant message when it has one that is not empty, otherwise the
    content. *)
Definition messageBody (typingText : jsstring) (message : Message.t)
  : jsstring :=
  match Message.isTyping message with
  | Some true => typingText
  | _ =>
      match Message.role message with
      | Message.assistant =>
          if truthy (Message.formattedContent message)
          then template (Message.formattedContent message)
          else Message.content message
      | Message.user => Message.content message
      end
  end.

(** The card that the component renders: the upload card while
    [!activeFileId], the chat card otherwise. *)
Inductive Card : Type := UploadCard | ChatCard.

Definition card (s : State) : Card :=
  if negb (truthy (activeFileId s)) then UploadCard else ChatCard.

(** Whether the File Information panel of the chat card can be rendered:
    under [fileData &&] it reads [fileData.filename.toLowerCase()],
    [fileData.summary.rows] and [fileData.summary.columns.length], each a
    [TypeError] when the field read from is absent; the preview and the
    data types are read under guards of their own. *)
Definition fileInformationRenders (s : State) : bool :=
  match fileData s with
  | None => true
  | Some doc =>
      match filename_of doc, summary_of doc with
      | Some _, Some summary =>
          match columns_of summary with
          | Some _ => true
          | None => false
          end
      | _, _ => false
      end
  end.

(* ================================================================== *)
(** ** data-visualization.tsx: [DataVisualization] *)
(* ================================================================== *)

Module Visualization.

(** The components of react-chartjs-2 that [renderChart] returns, and the
    options it hands them. *)
Inductive Component : Type := Bar | Line | Pie | Doughnut | PolarArea | Scatter.

Inductive Options : Type := options | histogramOptions | heatmapOptions.

(** The property read [chart.key]: [None] stands for the [TypeError] of
    a read on [null]; a property that is absent reads as [undefined]. *)
Definition read (key : jsstring) (chart : json) : option (option json) :=
  match chart with
  | JNull => None
  | _ => Some (get key chart)
  end.

(** The [switch (chart.type)] of [renderChart]; a case applies when the
    type is strictly equal to its string. *)
Definition renderChart (type : option json) : Component * Options :=
  match type with
  | Some (JString t) =>
      if strict_eq t (js "bar") then (Bar, options)
      else if strict_eq t (js "line") then (Line, options)
      else if strict_eq t (js "pie") then (Pie, options)
      else if strict_eq t (js "doughnut") then (Doughnut, options)
      else if strict_eq t (js "polarArea") then (PolarArea, options)
      else if strict_eq t (js "scatter") then (Scatter, options)
      else if strict_eq t (js "histogram") then (Bar, histogramOptions)
      else if strict_eq t (js "heatmap") then (Bar, heatmapOptions)
      else if strict_eq t (js "boxplot") then (Bar, options)
      else (Bar, options)
  | _ => (Bar, options)
  end.

(** What [SingleChart] renders: a card with the title and the
    description of the chart and the component drawn from its labels and
    data sets. *)
Record Panel : Type := {
  title : option json;
  description : option json;
  chart : Component * Options;
  labels : option json;
  datasets : option json
}.

Definition SingleChart (chart : json) : option Panel :=
  match read (js "title") chart, read (js "labels") chart,
        read (js "datasets") chart, read (js "type") chart,
        read (js "description") chart with
  | Some title, Some labels, Some datasets, Some type, Some description =>
      Some {| title := title; description := description;
              chart := renderChart type;
              labels := labels; datasets := datasets |}
  | _, _, _, _, _ => None
  end.

(** [charts.map(f)] for a callback that may throw. *)
Fixpoint traverse {A B} (f : A -> option B) (xs : list A) : option (list B) :=
  match xs with
  | [] => Some []
  | x :: r =>
      match f x, traverse f r with
      | Some y, Some ys => Some (y :: ys)
      | _, _ => None
      end
  end.

(** What [DataVisualization] returns: [null], one panel, or tabs with a
    grid of so many columns, a trigger for each chart labelled with its
    title, and a panel for each chart, the first one selected. *)
Inductive View : Type :=
| Null
| Single (panel : Panel)
| Tabs (gridColumns : nat) (triggers : list (option json))
       (contents : list Panel).

Definition DataVisualization (charts : list json) : option View :=
  match charts with
  | [] => Some Null
  | [chart] => option_map Single (SingleChart chart)
  | _ =>
      match traverse (read (js "title")) charts,
            traverse SingleChart charts with
      | Some triggers, Some contents =>
          Some (Tabs (Nat.min (length charts) 4) triggers contents)
      | _, _ => None
      end
  end.

End Visualization.

(** The content of the visualization card of the component: the
    placeholder while [visualizationCharts.length === 0], otherwise
    [<DataVisualization charts={visualizationCharts} />]. *)
Inductive CardContent : Type :=
| Placeholder
| Drawn (view : Visualization.View).

Definition visualizationCard (s : State) : option CardContent :=
  match visualizationCharts s with
  | [] => Some Placeholder
  | _ :: _ =>
      option_map Drawn (Visualization.DataVisualization (visualizationCharts s))
  end.

(* ================================================================== *)
(** ** api-test.tsx: [ApiTestComponent] *)
(* ================================================================== *)

Module ApiTest.

Record State : Type := {
  apiUrl : jsstring;
  status : option jsstring;
  isLoading : bool
}.

(** What [response.json()] gives: the document, or a rejection with the
    message of its error. *)
Inductive Body : Type :=
| Json (data : json)
| NotJson (message : jsstring).

(** What the request gives: a rejection of [fetch] with the message of
    its error, or a response. *)
Inductive Outcome : Type :=
| FetchRejected (message : jsstring)
| Response (status : N) (body : Body).

Record World : Type := {
  state : State;
  toasts : list Toast;
  requests : list jsstring
}.

Definition initial : World :=
  {| state := {| apiUrl := js "http://52.230.98.48"; status := None;
                 isLoading := false |};
     toasts := []; requests := [] |}.

Section Host.

Variable JSON_stringify : json -> jsstring.

(** [testApiConnection] up to the [await]. *)
Definition testApiConnection (w : World) : World :=
  {| state := {| apiUrl := apiUrl (state w); status := None;
                 isLoading := true |};
     toasts := toasts w;
     requests := requests w ++ [apiUrl (state w) ++ js "/"] |}.

(** The status line and the notification of an outcome: the branches of
    [if (response.ok)] and the [catch] block. *)
Definition report (outcome : Outcome) : jsstring * Toast :=
  match outcome with
  | Response status body =>
      if response_ok status then
        match body with
        | Json data =>
            (js "Connected successfully! API responded with: "
             ++ JSON_stringify data,
             toast_success "API connection successful!")
        | NotJson message =>
            (js "Error: " ++ message, toast_error "API connection failed")
        end
      else
        (js "Connection failed with status: " ++ Number_toString status,
         toast_error "API connection failed")
  | FetchRejected message =>
      (js "Error: " ++ message, toast_error "API connection failed")
  end.

(** From the [await] on, [finally] included. *)
Definition testApiConnection_settled (outcome : Outcome) (w : World)
  : World :=
  {| state := {| apiUrl := apiUrl (state w);
                 status := Some (fst (report outcome));
                 isLoading := false |};
     toasts := toasts w ++ [snd (report outcome)];
     requests := requests w |}.

End Host.

(** The colours of the status line. *)
Inductive StatusClass : Type := red | green.

(** [status.includes('Error') || status.includes('failed')] chooses the
    red classes. *)
Definition statusClass (status : jsstring) : StatusClass :=
  if includes status (js "Error") || includes status (js "failed")
  then red else green.

End ApiTest.

(* ================================================================== *)
(** ** Vocabulary of the further statements *)
(* ================================================================== *)

(** [a] is [b] with some of its units left out. *)
Inductive subsequence : jsstring -> jsstring -> Prop :=
| subsequence_nil : subsequence [] []
| subsequence_keep c a b : subsequence a b -> subsequence (c :: a) (c :: b)
| subsequence_drop c a b : subsequence a b -> subsequence a (c :: b).

(** The chat requests among the requests issued, as pairs of a file
    identifier and a message. *)
Definition chatRequests (rs : list Request) : list (jsstring * jsstring) :=
  flat_map (fun r => match r with
                     | POST_chat file_id message => [(file_id, message)]
                     | POST_upload_file _ => []
                     end) rs.

(** The messages of the user in a store. *)
Definition userMessages (msgs : list Message.t) : list Message.t :=
  filter (fun m => match Message.role m with
                   | Message.user => true
                   | Message.assistant => false
                   end) msgs.

(** A reveal that is still running and whose callback will update the
    messages of timestamp [ts]. *)
Definition reveals (ts : jsstring) (task : TypingTask) : Prop :=
  live task = true
  /\ exists analysis formatted,
       callback task = Some (onTypingDone ts analysis formatted).

(** What holds of the chat requests in every world of a session: there
    is none while no file is active, each one names the active file,
    which is the [file_id] of the object in [fileData], and there is one
    for each message of the user in the store. *)
Definition requests_invariant (w : World) : Prop :=
  (truthy (activeFileId (state w)) = false -> chatRequests (requests w) = [])
  /\ (forall id message,
         In (id, message) (chatRequests (requests w)) ->
         activeFileId (state w) = Some id)
  /\ activeFileId (state w)
     = match fileData (state w) with
       | Some doc => file_id_of doc
       | None => None
       end
  /\ length (chatRequests (requests w))
     = length (userMessages (messages (state w))).

(** What holds of the busy flags in every world of a session: while one
    is set, the event that clears it is still to come. *)
Definition busy_invariant (w : World) : Prop :=
  (isSending (state w) = true -> 0 < chatsPending w)
  /\ (isUploading (state w) = true ->
      uploadsPending w + uploadingTimers w = 1)
  /\ (isTyping (state w) = true ->
      exists task, In task (typing w) /\ live task = true).

(** Every message that is being revealed has a running reveal that will
    update it. *)
Definition reveal_invariant (w : World) : Prop :=
  forall m, In m (messages (state w)) ->
            Message.isTyping m = Some true ->
            exists task, In task (typing w)
                         /\ reveals (Message.timestamp m) task.

(** While a file is active whose File Information panel can be rendered,
    the conversation starts with a message of the assistant. *)
Definition conversation_invariant (w : World) : Prop :=
  truthy (activeFileId (state w)) = true ->
  fileInformationRenders (state w) = true ->
  exists m rest, messages (state w) = m :: rest
                 /\ Message.role m = Message.assistant.

(** What holds of the upload progress in every world of a session. *)
Definition progress_invariant (w : World) : Prop :=
  (exists k, uploadProgress (state w) = (5 * k)%N)
  /\ (uploadProgress (state w) <= 100)%N
  /\ (0 < uploadsPending w -> (uploadProgress (state w) <= 95)%N)
  /\ (truthy (activeFileId (state w)) = true ->
      uploadProgress (state w) = 100%N).


Unset Implicit Arguments.

(** The three ways in which [handleFileUpload] goes on after the [await]:
    the welcome message is built, its template literal throws, or the
    promise is rejected. *)
Ltac upload_cases outcome data :=
  simpl; unfold handleFileUpload_settled;
  destruct (uploadFile outcome) as [data|];
  [destruct (welcomeMessage data)|].

(* ================================================================== *)
(** ** Strings *)
(* ================================================================== *)

Lemma strict_eq_true (a b : jsstring) : strict_eq a b = true <-> a = b.
Proof.
  revert b; induction a as [|x a IH]; intros [|y b]; simpl;
    try (split; [discriminate | discriminate]); try tauto.
  rewrite andb_true_iff, N.eqb_eq, IH.
  split; [intros [-> ->]; reflexivity | intros H; inversion H; auto].
Qed.

Lemma strict_eq_refl (a : jsstring) : strict_eq a a = true.
Proof. apply strict_eq_true; reflexivity. Qed.

Lemma strict_eq_false (a b : jsstring) : strict_eq a b = false <-> a <> b.
Proof.
  rewrite <- strict_eq_true. destruct (strict_eq a b); split; congruence.
Qed.

(* ================================================================== *)
(** ** The conversation store *)
(* ================================================================== *)

Lemma updateByTimestamp_length ts analysis formatted prev :
  length (updateByTimestamp ts analysis formatted prev) = length prev.
Proof. apply length_map. Qed.

Lemma updateByTimestamp_app ts analysis formatted a b :
  updateByTimestamp ts analysis formatted (a ++ b)
  = updateByTimestamp ts analysis formatted a
    ++ updateByTimestamp ts analysis formatted b.
Proof. apply map_app. Qed.

Lemma updateByTimestamp_absent ts analysis formatted prev :
  (forall m, In m prev -> Message.timestamp m <> ts) ->
  updateByTimestamp ts analysis formatted prev = prev.
Proof.
  induction prev as [|m prev IH]; intros H; simpl; [reflexivity|].
  assert (Hm : strict_eq (Message.timestamp m) ts = false)
    by (apply strict_eq_false, H; left; reflexivity).
  rewrite Hm. f_equal. apply IH. intros x Hx. apply H. right; exact Hx.
Qed.

(** C8. Updating by a timestamp that no message carries returns the store
    as it is: same length, every message unchanged (the update is a total
    function, it cannot raise).  When exactly one message carries the
    timestamp, that message is replaced in place by a copy whose content,
    formatted content and typing flag are those of the patch and whose
    role, timestamp and charts are retained; every other message is
    unchanged. *)
Theorem updateByTimestamp_spec
        (ts analysis formatted : jsstring) (prev : list Message.t) :
  length (updateByTimestamp ts analysis formatted prev) = length prev
  /\ ((forall m, In m prev -> Message.timestamp m <> ts) ->
      updateByTimestamp ts analysis formatted prev = prev)
  /\ (forall before m after,
         prev = before ++ m :: after ->
         Message.timestamp m = ts ->
         (forall x, In x (before ++ after) -> Message.timestamp x <> ts) ->
         updateByTimestamp ts analysis formatted prev
         = before
             ++ {| Message.role := Message.role m;
                   Message.content := analysis;
                   Message.formattedContent := Some formatted;
                   Message.timestamp := ts;
                   Message.charts := Message.charts m;
                   Message.isTyping := Some false |}
             :: after).
Proof.
  split; [apply updateByTimestamp_length|].
  split; [apply updateByTimestamp_absent|].
  intros before m after -> Hm Hothers.
  rewrite updateByTimestamp_app. simpl.
  rewrite Hm, strict_eq_refl.
  rewrite !updateByTimestamp_absent; [reflexivity | |];
    intros x Hx; apply Hothers, in_or_app; [right | left]; exact Hx.
Qed.

(** The witness of [updateByTimestamp_spec]: a store of two messages,
    updated at the timestamp of the second and at a timestamp that is not
    in the store. *)
Lemma updateByTimestamp_spec_witness :
  updateByTimestamp (js "t9") (js "raw") (js "shown")
                    [Scenario.question; Scenario.placeholder]
  = [Scenario.question; Scenario.placeholder]
  /\ updateByTimestamp (js "t2") (js "raw") (js "shown")
                       [Scenario.question; Scenario.placeholder]
     = [Scenario.question;
        {| Message.role := Message.assistant; Message.content := js "raw";
           Message.formattedContent := Some (js "shown");
           Message.timestamp := js "t2"; Message.charts := None;
           Message.isTyping := Some false |}].
Proof.
  split.
  - apply (updateByTimestamp_spec (js "t9") (js "raw") (js "shown")
             [Scenario.question; Scenario.placeholder]).
    intros m [<- | [<- | []]]; vm_compute; discriminate.
  - apply (proj2 (proj2 (updateByTimestamp_spec (js "t2") (js "raw")
             (js "shown") [Scenario.question; Scenario.placeholder]))
             [Scenario.question] Scenario.placeholder []).
    + reflexivity.
    + reflexivity.
    + intros x [<- | []]; vm_compute; discriminate.
Defined.

(* ================================================================== *)
(** ** The upload handler *)
(* ================================================================== *)

Section UploadProofs.

Variable JSON_parse : jsstring -> option json.
Variable toLowerCase : jsstring -> jsstring.

Local Abbreviation step := (step JSON_parse toLowerCase).
Local Abbreviation reachable := (reachable JSON_parse toLowerCase).

Lemma settle_failure {A} (outcome : FetchOutcome A) :
  outcome = NetworkError
  \/ (exists status body,
         outcome = HttpResponse status body /\ response_ok status = false) ->
  settle outcome = Rejected.
Proof.
  intros [-> | (status & body & -> & Hok)]; simpl; [reflexivity|].
  rewrite Hok; reflexivity.
Qed.

(** C9. When the upload request fails after validation, by a transport
    error or by a response outside the 2xx range, the handler leaves the
    active dataset, the active file identifier, the messages and the
    chart slot as they were and shows an error notification. *)
Theorem upload_failure_keeps_state
        (outcome : FetchOutcome Document) (now : jsstring) (w : World) :
  outcome = NetworkError
  \/ (exists status body,
         outcome = HttpResponse status body /\ response_ok status = false) ->
  let w' := step w (UploadSettled outcome now) in
  fileData (state w') = fileData (state w)
  /\ activeFileId (state w') = activeFileId (state w)
  /\ messages (state w') = messages (state w)
  /\ visualizationCharts (state w') = visualizationCharts (state w)
  /\ toasts w'
     = toasts w ++ [toast_error "Failed to upload file. Please try again."].
Proof.
  intros Hfail. simpl. unfold uploadFile.
  rewrite (settle_failure outcome Hfail). simpl. repeat split; reflexivity.
Qed.

(** C5 as amended. A file whose lower-cased name ends in none of .xlsx,
    .xls and .csv is rejected before any request: nothing but an error
    notification is added to the world.  An empty or whitespace-only
    message is rejected before any request as well, without any
    notification: the world is left exactly as it was. *)
Theorem validation_rejects_before_request (w : World) :
  (forall file : File,
      allowedExtension (toLowerCase (name file)) = false ->
      handleFileUpload toLowerCase (Some file) w
      = toast (toast_error
          "Please upload an Excel file (.xlsx, .xls) or CSV file (.csv)") w)
  /\ (forall (messageText : option jsstring) (now : jsstring),
         trim (messageContent messageText (newMessage (state w))) = [] ->
         sendMessage messageText now w = w).
Proof.
  split.
  - intros file Hext. unfold handleFileUpload, allowedExtension in *.
    apply orb_false_iff in Hext as [Hext Hcsv].
    apply orb_false_iff in Hext as [Hxlsx Hxls].
    rewrite Hxlsx, Hxls, Hcsv. reflexivity.
  - intros messageText now Hblank. unfold sendMessage, sendMessage_in.
    rewrite Hblank. reflexivity.
Qed.

End UploadProofs.

(** The witness of [upload_failure_keeps_state]: a 500 response to the
    upload of sales.csv. *)
Lemma upload_failure_keeps_state_witness :
  let w := step JSON.parse ascii_toLowerCase initial
                (FileInputChange (Some Scenario.sales_file)) in
  let w' := step JSON.parse ascii_toLowerCase w
                 (UploadSettled (HttpResponse 500 None) (js "t0")) in
  fileData (state w') = None
  /\ activeFileId (state w') = None
  /\ messages (state w') = []
  /\ visualizationCharts (state w') = []
  /\ toasts w' = [toast_error "Failed to upload file. Please try again."].
Proof.
  apply (upload_failure_keeps_state JSON.parse ascii_toLowerCase
           (HttpResponse 500 None) (js "t0")
           (step JSON.parse ascii_toLowerCase initial
                 (FileInputChange (Some Scenario.sales_file)))).
  right. exists 500%N, None. split; reflexivity.
Defined.

(** The witness of [validation_rejects_before_request]: notes.txt is
    refused with a notification and no request; three spaces are refused
    with nothing at all. *)
Lemma validation_rejects_before_request_witness :
  (let w' := handleFileUpload ascii_toLowerCase
               (Some {| name := js "notes.txt" |}) initial in
   requests w' = [] /\ uploadsPending w' = 0 /\ state w' = state initial
   /\ toasts w' = [toast_error
        "Please upload an Excel file (.xlsx, .xls) or CSV file (.csv)"])
  /\ sendMessage (Some (js "   ")) (js "t1") Scenario.uploaded
     = Scenario.uploaded.
Proof.
  destruct (validation_rejects_before_request ascii_toLowerCase initial)
    as [Hfile _].
  destruct (validation_rejects_before_request ascii_toLowerCase
              Scenario.uploaded) as [_ Hsend].
  split.
  - rewrite (Hfile {| name := js "notes.txt" |}) by reflexivity.
    repeat split; reflexivity.
  - apply Hsend. reflexivity.
Defined.

(** C5 as stated fails: the send of a whitespace-only message in a
    session with an active file issues no request and shows no
    notification either. *)
Lemma blank_send_is_not_notified :
  let w := Scenario.uploaded in
  let w' := step JSON.parse ascii_toLowerCase
                 (step JSON.parse ascii_toLowerCase w
                       (TextareaChange (js "   ")))
                 (SubmitMessage (js "t1")) in
  legal JSON.parse ascii_toLowerCase w
        [TextareaChange (js "   "); SubmitMessage (js "t1")] = true
  /\ trim (newMessage (state (step JSON.parse ascii_toLowerCase w
                                   (TextareaChange (js "   "))))) = []
  /\ requests w' = requests w
  /\ toasts w' = toasts w.
Proof. vm_compute. repeat split; reflexivity. Qed.

(* ================================================================== *)
(** ** The chart parser never throws *)
(* ================================================================== *)

Section ParserProofs.

Variable JSON_parse : jsstring -> option json.

Lemma parseMatch_run (m : jsstring) (log : list String.string) :
  parseMatch JSON_parse m log
  = (Normal (parsed_or_null JSON_parse m),
     log ++ parse_errors JSON_parse [m]).
Proof.
  unfold parseMatch, try_catch, JSON_parse_M, parsed_or_null, parse_errors.
  simpl. destruct (JSON_parse (group1 m)); simpl.
  - rewrite app_nil_r. reflexivity.
  - reflexivity.
Qed.

Lemma mapM_parseMatch_run (ms : list jsstring) (log : list String.string) :
  mapM (parseMatch JSON_parse) ms log
  = (Normal (map (parsed_or_null JSON_parse) ms),
     log ++ parse_errors JSON_parse ms).
Proof.
  revert log; induction ms as [|m ms IH]; intros log.
  - simpl. unfold ret. rewrite app_nil_r. reflexivity.
  - cbn [mapM]. unfold bind at 1. rewrite parseMatch_run.
    unfold bind at 1. rewrite IH. unfold ret.
    rewrite <- app_assoc. unfold parse_errors. simpl.
    rewrite app_nil_r. reflexivity.
Qed.

(** The run of the chart extraction: a normal completion with the
    charts of the text, one console line per body that does not parse. *)
Lemma parseChartDataFromResponse_run
      (analysisText : jsstring) (log : list String.string) :
  parseChartDataFromResponse JSON_parse analysisText log
  = (Normal (charts_of JSON_parse analysisText),
     log ++ parse_errors JSON_parse (matchAll chartDataRegex analysisText)).
Proof.
  unfold parseChartDataFromResponse, charts_of.
  destruct (matchAll chartDataRegex analysisText) as [|m ms] eqn:E.
  - simpl. unfold ret. rewrite app_nil_r. reflexivity.
  - cbn [length Nat.eqb]. unfold bind. rewrite mapM_parseMatch_run.
    reflexivity.
Qed.

(** C10. On every string the chart extraction completes normally, never
    by a throw: every match is parsed under a guard, a failed parse
    leaves a null entry (and a console line), and the result is the list
    of entries with the nulls filtered out, so that no chart returned is
    null.  The function is total and its result is determined by its
    input. *)
Theorem parseChartDataFromResponse_never_throws
        (analysisText : jsstring) (log : list String.string) :
  parseChartDataFromResponse JSON_parse analysisText log
  = (Normal (filter (fun chart => negb (is_null chart))
               (map (parsed_or_null JSON_parse)
                    (matchAll chartDataRegex analysisText))),
     log ++ parse_errors JSON_parse (matchAll chartDataRegex analysisText))
  /\ Forall (fun chart => is_null chart = false)
            (charts_of JSON_parse analysisText)
  /\ length (charts_of JSON_parse analysisText)
     <= length (matchAll chartDataRegex analysisText).
Proof.
  split; [apply parseChartDataFromResponse_run|]. unfold charts_of. split.
  - apply Forall_forall. intros c Hc.
    apply filter_In in Hc as [_ Hc]. apply negb_true_iff in Hc. exact Hc.
  - etransitivity; [apply filter_length_le|]. rewrite length_map. lia.
Qed.

End ParserProofs.

(* ================================================================== *)
(** ** The typing renderer *)
(* ================================================================== *)

Lemma nth_error_update_nth_eq {A} (f : A -> A) (l : list A) (i : nat) :
  nth_error (update_nth i f l) i = option_map f (nth_error l i).
Proof.
  revert i; induction l as [|x l IH]; intros [|i]; simpl; auto.
Qed.

Lemma nth_error_update_nth_ne {A} (f : A -> A) (l : list A) (i j : nat) :
  i <> j -> nth_error (update_nth i f l) j = nth_error l j.
Proof.
  revert i j; induction l as [|x l IH]; intros [|i] [|j] H; simpl; auto.
  congruence.
Qed.

Lemma chunkSize_pos (text : jsstring) : 0 < chunkSize text.
Proof.
  unfold chunkSize.
  destruct (Nat.ltb 2000 (length text)), (Nat.ltb 1000 (length text)),
    (Nat.ltb 500 (length text)); lia.
Qed.

Lemma below_chunks (text : jsstring) (k : nat) :
  k < chunks text -> k * chunkSize text < length text.
Proof.
  unfold chunks. pose proof (chunkSize_pos text) as Hc.
  set (c := chunkSize text) in *. set (L := length text).
  intros Hk.
  pose proof (Nat.Div0.mul_div_le (L + c - 1) c) as Hle.
  assert (c * S k <= c * ((L + c - 1) / c)) by (apply Nat.mul_le_mono_l; lia).
  nia.
Qed.

Lemma chunks_cover (text : jsstring) :
  length text <= chunks text * chunkSize text.
Proof.
  unfold chunks. pose proof (chunkSize_pos text) as Hc.
  set (c := chunkSize text) in *. set (L := length text).
  pose proof (Nat.div_mod_eq (L + c - 1) c) as Heq.
  pose proof (Nat.mod_upper_bound (L + c - 1) c ltac:(lia)) as Hlt.
  nia.
Qed.

(** One firing of the timer while the cursor is short of the end: the
    cursor moves forward by a chunk, the chunk is added to the typing
    text, the store is not touched. *)
Lemma typeNextCharacter_advance (i : nat) (w : World) (task : TypingTask) :
  nth_error (typing w) i = Some task ->
  live task = true ->
  index task < length (text task) ->
  let w' := typeNextCharacter i w in
  let stop := Nat.min (index task + chunkSize (text task))
                      (length (text task)) in
  messages (state w') = messages (state w)
  /\ typingText (state w')
     = typingText (state w) ++ substring (text task) (index task) stop
  /\ (exists task',
         nth_error (typing w') i = Some task'
         /\ text task' = text task /\ index task' = stop
         /\ callback task' = callback task /\ live task' = true)
  /\ (forall j, j <> i -> nth_error (typing w') j = nth_error (typing w) j).
Proof.
  intros Hi Hlive Hlt. unfold typeNextCharacter. rewrite Hi, Hlive.
  apply Nat.ltb_lt in Hlt. cbn [negb]. rewrite Hlt. cbn.
  repeat split.
  - rewrite nth_error_update_nth_eq, Hi. cbn. eexists. split; [reflexivity|].
    cbn. repeat split; reflexivity.
  - intros j Hj. apply nth_error_update_nth_ne. congruence.
Qed.

(** The firing of the timer once the cursor is at the end: the typing
    flag of the component is cleared, the callback updates the store and
    the task is over. *)
Lemma typeNextCharacter_finish (i : nat) (w : World) (task : TypingTask) :
  nth_error (typing w) i = Some task ->
  live task = true ->
  index task = length (text task) ->
  let w' := typeNextCharacter i w in
  state w' = run_callback (callback task) (setIsTyping false (state w))
  /\ enabled w' (TypingTimeout i) = false.
Proof.
  intros Hi Hlive Hend. unfold typeNextCharacter. rewrite Hi, Hlive.
  cbn [negb]. rewrite Hend, Nat.ltb_irrefl. cbn. split; [reflexivity|].
  rewrite nth_error_update_nth_eq, Hi. reflexivity.
Qed.

Lemma run_ticks_S (i k : nat) (w : World) :
  run_ticks i (S k) w = typeNextCharacter i (run_ticks i k w).
Proof. reflexivity. Qed.

(** The cursor after [k] firings, as long as [k] is at most the number of
    chunks. *)
Lemma run_ticks_cursor (i : nat) (w : World) (task : TypingTask) (k : nat) :
  nth_error (typing w) i = Some task ->
  live task = true ->
  index task = 0 ->
  k <= chunks (text task) ->
  let w' := run_ticks i k w in
  messages (state w') = messages (state w)
  /\ exists task',
      nth_error (typing w') i = Some task'
      /\ text task' = text task
      /\ index task' = Nat.min (k * chunkSize (text task)) (length (text task))
      /\ callback task' = callback task /\ live task' = true.
Proof.
  intros Hi Hlive H0. induction k as [|k IH]; intros Hk.
  - simpl. split; [reflexivity|]. exists task. rewrite H0.
    repeat split; auto.
  - destruct IH as (Hmsgs & task' & Hi' & Htext & Hidx & Hcb & Hlive');
      [lia|].
    pose proof (below_chunks (text task) k ltac:(lia)) as Hbelow.
    rewrite Nat.min_l in Hidx by lia.
    destruct (typeNextCharacter_advance i (run_ticks i k w) task' Hi' Hlive')
      as (Hm & _ & (task'' & Hi'' & Htext' & Hidx' & Hcb' & Hlive'') & _).
    { rewrite Htext, Hidx. exact Hbelow. }
    rewrite run_ticks_S. cbn zeta. split; [congruence|].
    exists task''. repeat split; try congruence.
    rewrite Hidx', Htext, Hidx. f_equal. simpl. lia.
Qed.

Section RevealProofs.

Variable JSON_parse : jsstring -> option json.

(** What the arrival of a reply does: the placeholder is appended, a
    typing task is started on the formatted text, no notification is
    shown. *)
Lemma sendMessage_settled_resolved
      (data : ChatResponse) (now : jsstring) (w : World) :
  let w1 := sendMessage_settled JSON_parse (Resolved data) now w in
  let shown := formatAIResponse (analysis data) in
  messages (state w1)
  = messages (state w)
      ++ [placeholder_for (charts_of JSON_parse (analysis data)) now]
  /\ typing w1
     = typing w
         ++ [{| text := shown; index := 0; timer := typingInterval shown;
                callback := Some (onTypingDone now (analysis data) shown);
                live := true |}]
  /\ toasts w1 = toasts w
  /\ console w1
     = console w
         ++ parse_errors JSON_parse
              (matchAll chartDataRegex (analysis data))
  /\ requests w1 = requests w.
Proof.
  unfold sendMessage_settled.
  rewrite parseChartDataFromResponse_run.
  destruct (charts_of JSON_parse (analysis data)); cbn;
    repeat split; reflexivity.
Qed.

(** A task that has just been started, run alone: its cursor is at
    [min (k * chunk) L] after [k] firings of its timer, the store being
    left alone; after [chunks] firings the cursor is at the length [L] of
    the text, and the next firing clears the typing flag of the component,
    runs the callback and ends the task. *)
Lemma fresh_task_terminates (i : nat) (w1 : World) (task : TypingTask) :
  nth_error (typing w1) i = Some task ->
  live task = true ->
  index task = 0 ->
  let n := chunks (text task) in
  let cursor k :=
    Nat.min (k * chunkSize (text task)) (length (text task)) in
  (forall k, k <= n ->
     exists task',
       nth_error (typing (run_ticks i k w1)) i = Some task'
       /\ live task' = true /\ index task' = cursor k)
  /\ (forall k, k < n -> cursor k < cursor (S k))
  /\ cursor n = length (text task)
  /\ let w2 := run_ticks i (S n) w1 in
     enabled w2 (TypingTimeout i) = false
     /\ isTyping (state w2) = false
     /\ messages (state w2)
        = messages (run_callback (callback task) (state w1)).
Proof.
  intros Hi Hlive H0 n cursor.
  pose proof (chunkSize_pos (text task)) as Hc.
  pose proof (chunks_cover (text task)) as Hcover. fold n in Hcover.
  split.
  { intros k Hk.
    destruct (run_ticks_cursor i w1 task k Hi Hlive H0 Hk)
      as (_ & task' & H1 & _ & H2 & _ & H3).
    exists task'. auto. }
  split.
  { intros k Hk. unfold cursor.
    pose proof (below_chunks (text task) k Hk). simpl. lia. }
  split; [unfold cursor; lia|].
  intros w2.
  destruct (run_ticks_cursor i w1 task n Hi Hlive H0 (le_n _))
    as (Hkeep & task' & Hi' & Htext & Hidx & Hcb & Hlive').
  assert (Hend : index task' = length (text task')).
  { rewrite Hidx, Htext. lia. }
  destruct (typeNextCharacter_finish i (run_ticks i n w1) task' Hi' Hlive'
                                     Hend) as (Hstate & Hoff).
  change (typeNextCharacter i (run_ticks i n w1)) with w2 in Hstate, Hoff.
  split; [exact Hoff|]. rewrite Hstate, Hcb.
  destruct (callback task) as [[ts analysis formatted]|]; cbn;
    rewrite ?Hkeep; split; reflexivity.
Qed.

(** C2. The reveal terminates, whatever the text and its length [L]: the
    cursor of the task that [simulateTyping] starts moves forward at
    every firing of its timer until it is at [L], after [chunks] firings,
    and the next firing ends the task.  For the reveal that a reply
    starts, that firing updates the placeholder in place: at its position
    in the store stands a message with the placeholder's timestamp and
    charts, the raw reply as content, the whole formatted text as
    displayed content and the typing flag false.  The store keeps its
    length and the messages with another timestamp are unchanged. *)
Theorem typing_reveal_completes
        (content : jsstring) (cb : option Callback) (w0 : World)
        (data : ChatResponse) (now : jsstring) (w : World) :
  (let w1 := simulateTyping content cb w0 in
   let i := length (typing w0) in
   let cursor k := Nat.min (k * chunkSize content) (length content) in
   (forall k, k <= chunks content ->
      exists task,
        nth_error (typing (run_ticks i k w1)) i = Some task
        /\ live task = true /\ index task = cursor k)
   /\ (forall k, k < chunks content -> cursor k < cursor (S k))
   /\ cursor (chunks content) = length content
   /\ enabled (run_ticks i (S (chunks content)) w1) (TypingTimeout i)
      = false)
  /\ (let w1 := sendMessage_settled JSON_parse (Resolved data) now w in
      let shown := formatAIResponse (analysis data) in
      let w2 := run_ticks (length (typing w)) (S (chunks shown)) w1 in
      enabled w2 (TypingTimeout (length (typing w))) = false
      /\ length (messages (state w2)) = S (length (messages (state w)))
      /\ nth_error (messages (state w2)) (length (messages (state w)))
         = Some {| Message.role := Message.assistant;
                   Message.content := analysis data;
                   Message.formattedContent := Some shown;
                   Message.timestamp := now;
                   Message.charts :=
                     Message.charts
                       (placeholder_for
                          (charts_of JSON_parse (analysis data)) now);
                   Message.isTyping := Some false |}
      /\ (forall j m,
             nth_error (messages (state w)) j = Some m ->
             Message.timestamp m <> now ->
             nth_error (messages (state w2)) j = Some m)).
Proof.
  split.
  { set (task := {| text := content; index := 0;
                    timer := typingInterval content;
                    callback := cb; live := true |}).
    assert (Hi : nth_error (typing (simulateTyping content cb w0))
                           (length (typing w0)) = Some task).
    { unfold simulateTyping. cbn.
      rewrite nth_error_app2, Nat.sub_diag by lia. reflexivity. }
    destruct (fresh_task_terminates _ _ task Hi eq_refl eq_refl)
      as (H1 & H2 & H3 & H4 & _).
    cbn zeta. auto. }
  intros w1 shown w2.
  set (final := {| Message.role := Message.assistant;
                   Message.content := analysis data;
                   Message.formattedContent := Some shown;
                   Message.timestamp := now;
                   Message.charts :=
                     Message.charts
                       (placeholder_for
                          (charts_of JSON_parse (analysis data)) now);
                   Message.isTyping := Some false |}).
  destruct (sendMessage_settled_resolved data now w)
    as (Hmsgs & Htyping & _).
  fold w1 shown in Hmsgs, Htyping.
  set (task := {| text := shown; index := 0; timer := typingInterval shown;
                  callback := Some (onTypingDone now (analysis data) shown);
                  live := true |}) in *.
  assert (Hi : nth_error (typing w1) (length (typing w)) = Some task).
  { rewrite Htyping, nth_error_app2, Nat.sub_diag by lia. reflexivity. }
  destruct (fresh_task_terminates _ _ task Hi eq_refl eq_refl)
    as (_ & _ & _ & Hoff & _ & Hstore).
  change (run_ticks (length (typing w)) (S (chunks (text task))) w1)
    with w2 in Hoff, Hstore.
  assert (Hstore' : messages (state w2)
                    = updateByTimestamp now (analysis data) shown
                        (messages (state w)) ++ [final]).
  { rewrite Hstore.
    change (messages (run_callback (callback task) (state w1)))
      with (updateByTimestamp now (analysis data) shown
              (messages (state w1))).
    rewrite Hmsgs, updateByTimestamp_app. f_equal.
    cbn. rewrite strict_eq_refl. reflexivity. }
  split; [exact Hoff|].
  split.
  { rewrite Hstore', length_app, updateByTimestamp_length. simpl. lia. }
  split.
  { rewrite Hstore', nth_error_app2; rewrite updateByTimestamp_length; [|lia].
    rewrite Nat.sub_diag. reflexivity. }
  intros j m Hj Hts.
  rewrite Hstore', nth_error_app1.
  - unfold updateByTimestamp. rewrite nth_error_map, Hj. cbn.
    apply strict_eq_false in Hts. rewrite Hts. reflexivity.
  - rewrite updateByTimestamp_length. apply nth_error_Some. congruence.
Qed.

End RevealProofs.

(* ================================================================== *)
(** ** Sessions *)
(* ================================================================== *)

Section SessionProofs.

Variable JSON_parse : jsstring -> option json.
Variable toLowerCase : jsstring -> jsstring.

Local Abbreviation step := (step JSON_parse toLowerCase).
Local Abbreviation reachable := (reachable JSON_parse toLowerCase).

Lemma sendMessage_in_keeps_invariant
      (closure : State) (messageText : option jsstring) (now : jsstring)
      (w : World) :
  activeFileId closure = activeFileId (state w) ->
  session_invariant w ->
  session_invariant (sendMessage_in closure messageText now w).
Proof.
  intros Hclosure Hinv. unfold sendMessage_in.
  destruct (trim (messageContent messageText (newMessage closure)));
    [exact Hinv|].
  rewrite Hclosure.
  destruct (activeFileId (state w)) as [[|i d]|] eqn:Hid;
    try exact Hinv.
  destruct Hinv as (HA & HB & HC & HD). rewrite Hid in HC.
  unfold session_invariant; cbn; rewrite ?Hid.
  repeat split; intros; auto; discriminate.
Qed.

Lemma step_keeps_invariant (w : World) (e : Event) :
  session_invariant w -> enabled w e = true -> session_invariant (step w e).
Proof.
  intros (HA & HB & HC & HD) Hen.
  pose proof (fun H => proj1 (HD H)) as HD1.
  pose proof (fun H => proj2 (HD H)) as HD2.
  destruct e as
    [file | outcome now | | | value | now | insight now | outcome now | i];
    simpl in Hen.
  - (* the file input *)
    apply andb_true_iff in Hen as [Hfile Hup].
    apply negb_true_iff in Hfile, Hup. specialize (HA Hup).
    destruct file as [file|]; simpl; [|repeat split; auto].
    destruct (negb (endsWith (toLowerCase (name file)) (js ".xlsx"))
              && negb (endsWith (toLowerCase (name file)) (js ".xls"))
              && negb (endsWith (toLowerCase (name file)) (js ".csv")));
      unfold session_invariant; cbn; repeat split; intros; auto;
      try discriminate; lia.
  - (* the upload settles *)
    apply Nat.ltb_lt in Hen. specialize (HC Hen).
    upload_cases outcome data;
      unfold session_invariant; cbn; repeat split; intros; auto;
      try discriminate; try lia;
      match goal with
      | Hx : isUploading (state w) = false |- _ => specialize (HA Hx); lia
      end.
  - (* the progress interval *)
    simpl. unfold progressTick.
    destruct (N.leb 95 (uploadProgress (state w)));
      unfold session_invariant; cbn; repeat split; intros; auto.
  - (* the timer that clears isUploading *)
    apply Nat.ltb_lt in Hen.
    unfold session_invariant; cbn; repeat split; intros; auto; lia.
  - (* typing in the textarea *)
    unfold session_invariant; cbn; repeat split; intros; auto.
  - (* a message is submitted *)
    apply sendMessage_in_keeps_invariant; [reflexivity|].
    repeat split; auto.
  - (* an insight is clicked *)
    apply sendMessage_in_keeps_invariant; [reflexivity|].
    unfold session_invariant; cbn; repeat split; intros; auto.
  - (* a chat request settles *)
    apply Nat.ltb_lt in Hen.
    assert (Hactive : truthy (activeFileId (state w)) = true).
    { destruct (truthy (activeFileId (state w))) eqn:E; [reflexivity|].
      specialize (HD2 eq_refl). lia. }
    simpl. unfold sendMessage_settled.
    destruct (sendChatMessage outcome) as [data|].
    + rewrite parseChartDataFromResponse_run.
      destruct (charts_of JSON_parse (analysis data));
        unfold session_invariant; cbn; repeat split; intros; auto;
        congruence.
    + unfold session_invariant; cbn; repeat split; intros; auto;
        congruence.
  - (* the timer of a typing task *)
    simpl. unfold typeNextCharacter.
    destruct (nth_error (typing w) i) as [task|]; [|repeat split; auto].
    destruct (live task); cbn [negb]; [|repeat split; auto].
    destruct (Nat.ltb (index task) (length (text task))).
    + unfold session_invariant; cbn; repeat split; intros; auto.
    + destruct (callback task) as [[ts analysis formatted]|];
        unfold session_invariant; cbn; repeat split; intros; auto.
Qed.

Lemma reachable_invariant (w : World) :
  reachable w -> session_invariant w.
Proof.
  induction 1 as [|w e Hw IH Hen].
  - unfold session_invariant; cbn. repeat split; auto; lia.
  - apply step_keeps_invariant; assumption.
Qed.


(** The welcome message of a dataset that has every field. *)
Lemma welcomeMessage_document (data : UploadResponse) :
  welcomeMessage (document data)
  = Some (welcomeText
            (filename data)
            (Number_toString (rows (summary data)))
            (Number_toString (N.of_nat (length (columns (summary data)))))).
Proof. reflexivity. Qed.


End SessionProofs.



(** C1 fails on the code.  The text area is enabled again as soon as a
    reply has arrived, while its reveal is still running.  In this
    session every event is enabled when it occurs; the second message is
    sent after the first reply has arrived and before its reveal is over,
    and once the second reply is there two messages of the store have the
    typing flag set.  Both are displayed from the one typing text of the
    component, which the second reveal has emptied and to which both
    tasks now add their chunks. *)
Theorem overlapping_reveals :
  legal JSON.parse ascii_toLowerCase initial Scenario.overlapping_trace
  = true
  /\ revealing (messages (state Scenario.overlapping)) = 2
  /\ typingText (state Scenario.overlapping) = []
  /\ typingText (state (run_ticks 1 1 (run_ticks 0 1 Scenario.overlapping)))
     = js "lo Goo".
Proof. vm_compute. repeat split; reflexivity. Qed.

(* ================================================================== *)
(** ** The matcher *)
(* ================================================================== *)

Lemma match_here_nil (s : jsstring) : match_here [] s = Some 0.
Proof. destruct s; reflexivity. Qed.

Lemma match_here_chr (c : N) (re : regex) (s : jsstring) :
  match_here (Chr c :: re) s
  = match s with
    | x :: r => if N.eqb x c then option_map S (match_here re r) else None
    | [] => None
    end.
Proof. destruct s; reflexivity. Qed.

Lemma match_here_rep_S (m : nat) (g : bool) (cls : N -> bool)
      (re : regex) (s : jsstring) :
  match_here (Rep (S m) g cls :: re) s
  = match s with
    | x :: r =>
        if cls x then option_map S (match_here (Rep m g cls :: re) r)
        else None
    | [] => None
    end.
Proof. destruct s; reflexivity. Qed.

Lemma match_here_greedy (cls : N -> bool) (re : regex) (s : jsstring) :
  match_here (Rep 0 true cls :: re) s
  = match (match s with
           | x :: r =>
               if cls x
               then option_map S (match_here (Rep 0 true cls :: re) r)
               else None
           | [] => None
           end) with
    | Some n => Some n
    | None => match_here re s
    end.
Proof. destruct s; reflexivity. Qed.

Lemma match_here_lazy (cls : N -> bool) (re : regex) (s : jsstring) :
  match_here (Rep 0 false cls :: re) s
  = match match_here re s with
    | Some n => Some n
    | None =>
        match s with
        | x :: r =>
            if cls x
            then option_map S (match_here (Rep 0 false cls :: re) r)
            else None
        | [] => None
        end
    end.
Proof. destruct s; reflexivity. Qed.

(** A match never runs past the end of the string. *)
Lemma match_here_le (re : regex) :
  forall (s : jsstring) (n : nat), match_here re s = Some n -> n <= length s.
Proof.
  induction re as [|a re IH]; intros s n H.
  - rewrite match_here_nil in H. injection H as <-. lia.
  - destruct a as [c | min g cls].
    + rewrite match_here_chr in H. destruct s as [|x r]; [discriminate|].
      destruct (N.eqb x c); [|discriminate].
      destruct (match_here re r) as [k|] eqn:E; [|discriminate].
      injection H as <-. apply IH in E. simpl. lia.
    + revert min n H. induction s as [|x r IHs]; intros min n H.
      * destruct min as [|m]; [|rewrite match_here_rep_S in H; discriminate].
        destruct g; [rewrite match_here_greedy in H
                    | rewrite match_here_lazy in H].
        -- apply IH in H. exact H.
        -- destruct (match_here re []) eqn:E; [|discriminate].
           injection H as <-. apply IH in E. exact E.
      * assert (Hmore : forall m k,
                   (if cls x
                    then option_map S (match_here (Rep m g cls :: re) r)
                    else None) = Some k -> k <= length (x :: r)).
        { intros m k Hk. destruct (cls x); [|discriminate].
          destruct (match_here (Rep m g cls :: re) r) as [j|] eqn:E;
            [|discriminate].
          injection Hk as <-. apply IHs in E. simpl. lia. }
        destruct min as [|m].
        -- destruct g; [rewrite match_here_greedy in H
                       | rewrite match_here_lazy in H].
           ++ destruct (if cls x
                        then option_map S
                               (match_here (Rep 0 true cls :: re) r)
                        else None) as [k|] eqn:E.
              ** injection H as <-. exact (Hmore 0 k E).
              ** apply IH in H. exact H.
           ++ destruct (match_here re (x :: r)) as [k|] eqn:E.
              ** injection H as <-. apply IH in E. exact E.
              ** exact (Hmore 0 n H).
        -- rewrite match_here_rep_S in H. exact (Hmore m n H).
Qed.

Lemma startsWith_nil (s : jsstring) : startsWith s [] = true.
Proof. destruct s; reflexivity. Qed.

Lemma startsWith_app (p rest : jsstring) : startsWith (p ++ rest) p = true.
Proof.
  induction p as [|x p IH]; simpl; [apply startsWith_nil|].
  rewrite N.eqb_refl. exact IH.
Qed.

Lemma startsWith_true (s p : jsstring) :
  startsWith s p = true -> s = p ++ skipn (length p) s.
Proof.
  revert s; induction p as [|x p IH]; intros s H; [reflexivity|].
  destruct s as [|y s]; [discriminate|]. simpl in H.
  apply andb_true_iff in H as [Hx Hp]. apply N.eqb_eq in Hx. subst y.
  simpl. f_equal. apply IH, Hp.
Qed.

Lemma startsWith_app_long (t r p : jsstring) :
  length p <= length t -> startsWith (t ++ r) p = startsWith t p.
Proof.
  revert t; induction p as [|x p IH]; intros t H.
  - rewrite !startsWith_nil. reflexivity.
  - destruct t as [|y t]; [simpl in H; lia|]. simpl.
    rewrite IH by (simpl in H; lia). reflexivity.
Qed.

Lemma startsWith_nth (s p : jsstring) (i : nat) :
  startsWith s p = true -> i < length p -> nth_error s i = nth_error p i.
Proof.
  revert s i; induction p as [|x p IH]; intros s i H Hi;
    [simpl in Hi; lia|].
  destruct s as [|y s]; [discriminate|]. simpl in H.
  apply andb_true_iff in H as [Hx Hp]. apply N.eqb_eq in Hx. subst y.
  destruct i as [|i]; [reflexivity|]. simpl. apply IH; [exact Hp|].
  simpl in Hi. lia.
Qed.

Lemma includes_false_skipn (s p : jsstring) (k : nat) :
  includes s p = false -> startsWith (skipn k s) p = false.
Proof.
  revert k; induction s as [|x s IH]; intros k H.
  - rewrite skipn_nil. simpl in H. apply orb_false_iff in H. tauto.
  - simpl in H. apply orb_false_iff in H as [H0 Hr].
    destruct k as [|k]; [exact H0|]. simpl. apply IH, Hr.
Qed.

(** A literal matches exactly where the string starts with it. *)
Lemma match_here_lit (a : jsstring) (re : regex) (s : jsstring) :
  match_here (lit a ++ re) s
  = if startsWith s a
    then option_map (Nat.add (length a))
                    (match_here re (skipn (length a) s))
    else None.
Proof.
  revert s; induction a as [|x a IH]; intros s.
  - rewrite startsWith_nil. simpl. destruct (match_here re s); reflexivity.
  - change (lit (x :: a) ++ re) with (Chr x :: (lit a ++ re)).
    rewrite match_here_chr. destruct s as [|y s]; [reflexivity|].
    simpl. rewrite (N.eqb_sym y x). destruct (N.eqb x y); [|reflexivity].
    simpl. rewrite IH. destruct (startsWith s a); [|reflexivity].
    destruct (match_here re (skipn (length a) s)); reflexivity.
Qed.

Lemma match_here_lit_only (a s : jsstring) :
  match_here (lit a) s = if startsWith s a then Some (length a) else None.
Proof.
  rewrite <- (app_nil_r (lit a)), match_here_lit, match_here_nil.
  simpl. rewrite Nat.add_0_r. reflexivity.
Qed.

(** The lazy [[\s\S]*?] followed by a literal stops at the first place
    where the literal stands. *)
Lemma match_here_lazy_until (c body rest : jsstring) :
  (forall k, k < length body ->
             startsWith (skipn k (body ++ c ++ rest)) c = false) ->
  match_here (Rep 0 false any :: lit c) (body ++ c ++ rest)
  = Some (length body + length c).
Proof.
  induction body as [|x body IH]; intros Hfirst.
  - rewrite match_here_lazy, match_here_lit_only. simpl.
    rewrite startsWith_app. reflexivity.
  - pose proof (Hfirst 0 ltac:(simpl; lia)) as H0.
    change ((x :: body) ++ c ++ rest) with (x :: (body ++ c ++ rest))
      in H0 |- *.
    simpl skipn in H0.
    rewrite match_here_lazy, match_here_lit_only, H0.
    cbn [any]. rewrite IH; [reflexivity|].
    intros k Hk. apply (Hfirst (S k)). simpl. lia.
Qed.

(* ================================================================== *)
(** ** Global replacement and [matchAll] *)
(* ================================================================== *)

Section Scan.

Variable re : regex.
Variable repl : jsstring.

Lemma replace_from_skip (s : jsstring) (skip : nat) :
  skip <= length s ->
  replace_from re repl skip s = replace re repl (skipn skip s).
Proof.
  revert skip; induction s as [|c r IH]; intros skip H.
  - simpl in H. replace skip with 0 by lia. reflexivity.
  - destruct skip as [|k]; [reflexivity|]. simpl. apply IH.
    simpl in H. lia.
Qed.

Lemma matchAll_from_skip (s : jsstring) (skip : nat) :
  skip <= length s ->
  matchAll_from re skip s = matchAll re (skipn skip s).
Proof.
  revert skip; induction s as [|c r IH]; intros skip H.
  - simpl in H. replace skip with 0 by lia. reflexivity.
  - destruct skip as [|k]; [reflexivity|]. simpl. apply IH.
    simpl in H. lia.
Qed.

Lemma replace_cons_none (c : N) (r : jsstring) :
  match_here re (c :: r) = None ->
  replace re repl (c :: r) = c :: replace re repl r.
Proof. intros H. unfold replace. simpl. rewrite H. reflexivity. Qed.

Lemma matchAll_cons_none (c : N) (r : jsstring) :
  match_here re (c :: r) = None ->
  matchAll re (c :: r) = matchAll re r.
Proof. intros H. unfold matchAll. simpl. rewrite H. reflexivity. Qed.

Lemma replace_match (s : jsstring) (k : nat) :
  match_here re s = Some (S k) ->
  replace re repl s = repl ++ replace re repl (skipn (S k) s).
Proof.
  intros H. pose proof (match_here_le re s _ H) as Hle.
  destruct s as [|c r]; [simpl in Hle; lia|].
  unfold replace at 1. simpl. rewrite H. f_equal.
  apply replace_from_skip. simpl in Hle. lia.
Qed.

Lemma matchAll_match (s : jsstring) (k : nat) :
  match_here re s = Some (S k) ->
  matchAll re s = firstn (S k) s :: matchAll re (skipn (S k) s).
Proof.
  intros H. pose proof (match_here_le re s _ H) as Hle.
  destruct s as [|c r]; [simpl in Hle; lia|].
  unfold matchAll at 1. simpl. rewrite H. f_equal.
  apply matchAll_from_skip. simpl in Hle. lia.
Qed.

(** Units at which no match starts are copied. *)
Lemma replace_unmatched_prefix (p rest : jsstring) :
  (forall k, k < length p -> match_here re (skipn k (p ++ rest)) = None) ->
  replace re repl (p ++ rest) = p ++ replace re repl rest.
Proof.
  induction p as [|c p IH]; intros H; [reflexivity|].
  change ((c :: p) ++ rest) with (c :: (p ++ rest)).
  rewrite replace_cons_none by (apply (H 0); simpl; lia).
  simpl. f_equal. apply IH. intros k Hk. apply (H (S k)). simpl. lia.
Qed.

Lemma matchAll_unmatched_prefix (p rest : jsstring) :
  (forall k, k < length p -> match_here re (skipn k (p ++ rest)) = None) ->
  matchAll re (p ++ rest) = matchAll re rest.
Proof.
  induction p as [|c p IH]; intros H; [reflexivity|].
  change ((c :: p) ++ rest) with (c :: (p ++ rest)).
  rewrite matchAll_cons_none by (apply (H 0); simpl; lia).
  apply IH. intros k Hk. apply (H (S k)). simpl. lia.
Qed.

(** A string in which no match starts anywhere is returned as it is. *)
Lemma replace_unmatched (s : jsstring) :
  (forall k, match_here re (skipn k s) = None) ->
  replace re repl s = s.
Proof.
  intros H. rewrite <- (app_nil_r s) at 1.
  rewrite replace_unmatched_prefix.
  - unfold replace. simpl. specialize (H (length s)).
    rewrite skipn_all in H. rewrite H. apply app_nil_r.
  - intros k _. rewrite app_nil_r. apply H.
Qed.

(** Where nothing matches, nothing is replaced. *)
Lemma matchAll_nil_replace (s : jsstring) :
  matchAll re s = [] -> replace re repl s = s.
Proof.
  unfold matchAll, replace. induction s as [|c r IH]; simpl.
  - destruct (match_here re []); [discriminate | reflexivity].
  - destruct (match_here re (c :: r)) as [[|k]|]; try discriminate.
    intros H. f_equal. apply IH, H.
Qed.

End Scan.

(* ================================================================== *)
(** ** Chart blocks *)
(* ================================================================== *)

Lemma chartDataRegex_needs_open (s : jsstring) :
  startsWith s chartOpen = false -> match_here chartDataRegex s = None.
Proof.
  intros H. unfold chartDataRegex. rewrite match_here_lit, H. reflexivity.
Qed.

(** The opening fence does not overlap itself: only its last unit is a
    line break. *)
Lemma chartOpen_no_overlap (t rest : jsstring) :
  0 < length t < length chartOpen ->
  startsWith (t ++ chartOpen ++ rest) chartOpen = false.
Proof.
  intros [Hpos Hlt]. change (length chartOpen) with 14 in Hlt.
  destruct (startsWith (t ++ chartOpen ++ rest) chartOpen) eqn:E;
    [|reflexivity].
  pose proof (startsWith_nth _ _ 13 E
                ltac:(change (length chartOpen) with 14; lia)) as H.
  rewrite nth_error_app2 in H by lia.
  rewrite nth_error_app1 in H by (change (length chartOpen) with 14; lia).
  remember (13 - length t) as j eqn:Hj.
  assert (j < 13) by lia. exfalso.
  do 13 (destruct j as [|j]; [discriminate H|]). lia.
Qed.

(** Nor does the closing fence: only its first unit is a line break. *)
Lemma chartClose_no_overlap (t rest : jsstring) :
  0 < length t < length chartClose ->
  startsWith (t ++ chartClose ++ rest) chartClose = false.
Proof.
  intros [Hpos Hlt]. change (length chartClose) with 4 in Hlt.
  destruct (startsWith (t ++ chartClose ++ rest) chartClose) eqn:E;
    [|reflexivity].
  pose proof (startsWith_nth _ _ (length t) E
                ltac:(change (length chartClose) with 4; lia)) as H.
  rewrite nth_error_app2, Nat.sub_diag in H by lia.
  exfalso. remember (length t) as j eqn:Hj.
  destruct j as [|[|[|[|j]]]]; try discriminate H; lia.
Qed.

Lemma skipn_length_app {A} (a b : list A) : skipn (length a) (a ++ b) = b.
Proof. induction a; simpl; auto. Qed.

Lemma firstn_length_app {A} (a b : list A) : firstn (length a) (a ++ b) = a.
Proof. induction a; simpl; f_equal; auto. Qed.

Lemma skipn_app_short {A} (k : nat) (p rest : list A) :
  k <= length p -> skipn k (p ++ rest) = skipn k p ++ rest.
Proof.
  intros H. rewrite skipn_app. replace (k - length p) with 0 by lia.
  reflexivity.
Qed.

(** No match starts inside prose that is free of the opening fence,
    whether the reply ends there or a block follows. *)
Lemma prose_unmatched (p rest : jsstring) :
  includes p chartOpen = false ->
  rest = [] \/ startsWith rest chartOpen = true ->
  forall k, k < length p ->
            match_here chartDataRegex (skipn k (p ++ rest)) = None.
Proof.
  intros Hp Hrest k Hk. apply chartDataRegex_needs_open.
  rewrite skipn_app_short by lia.
  pose proof (includes_false_skipn p chartOpen k Hp) as Hhere.
  assert (Hlen : length (skipn k p) = length p - k) by apply length_skipn.
  destruct (le_lt_dec (length chartOpen) (length (skipn k p)))
    as [Hlong|Hshort].
  - rewrite startsWith_app_long by exact Hlong. exact Hhere.
  - destruct Hrest as [-> | Hrest].
    + rewrite app_nil_r. exact Hhere.
    + rewrite (startsWith_true _ _ Hrest).
      apply chartOpen_no_overlap. lia.
Qed.

(** A block whose body is free of the closing fence is matched whole. *)
Lemma chartBlock_match (body rest : jsstring) :
  includes body chartClose = false ->
  match_here chartDataRegex (chartBlock body ++ rest)
  = Some (length (chartBlock body)).
Proof.
  intros Hbody. unfold chartDataRegex, chartBlock.
  rewrite <- !app_assoc, match_here_lit, startsWith_app, skipn_length_app.
  change ([Rep 0 false any] ++ lit chartClose)
    with (Rep 0 false any :: lit chartClose).
  rewrite match_here_lazy_until.
  - simpl option_map. rewrite !length_app. reflexivity.
  - intros k Hk. rewrite skipn_app_short by lia.
    pose proof (includes_false_skipn body chartClose k Hbody) as Hhere.
    assert (Hlen : length (skipn k body) = length body - k)
      by apply length_skipn.
    destruct (le_lt_dec (length chartClose) (length (skipn k body)))
      as [Hlong|Hshort].
    + rewrite startsWith_app_long by exact Hlong. exact Hhere.
    + apply chartClose_no_overlap. lia.
Qed.

Lemma group1_chartBlock (body : jsstring) : group1 (chartBlock body) = body.
Proof.
  unfold group1, chartBlock.
  rewrite skipn_length_app, !length_app.
  replace (length chartOpen + (length body + length chartClose)
           - length chartOpen - length chartClose) with (length body) by lia.
  apply firstn_length_app.
Qed.

Lemma chartBlock_length (body : jsstring) :
  length (chartBlock body) = S (17 + length body).
Proof. unfold chartBlock. rewrite !length_app. cbn. lia. Qed.

Lemma well_delimited_cons (prose body after : jsstring)
      (rest : list (jsstring * jsstring)) :
  well_delimited prose ((body, after) :: rest) = true ->
  includes prose chartOpen = false
  /\ includes body chartClose = false
  /\ well_delimited after rest = true.
Proof.
  cbn [well_delimited]. rewrite !andb_true_iff, !negb_true_iff. tauto.
Qed.

Lemma well_delimited_nil (prose : jsstring) :
  well_delimited prose [] = true -> matchAll chartDataRegex prose = [].
Proof.
  cbn [well_delimited].
  destruct (matchAll chartDataRegex prose); [reflexivity | discriminate].
Qed.

(** The matches of a reply written as prose and blocks are its blocks, in
    order, and the global replacement leaves its prose. *)
Lemma matchAll_render
      (prose : jsstring) (blocks : list (jsstring * jsstring)) :
  well_delimited prose blocks = true ->
  matchAll chartDataRegex (render prose blocks)
  = map (fun bp => chartBlock (fst bp)) blocks.
Proof.
  revert prose; induction blocks as [|[body after] rest IH]; intros prose H.
  - apply well_delimited_nil in H. exact H.
  - apply well_delimited_cons in H as (Hp & Hb & Hrest).
    cbn [render map fst]. rewrite matchAll_unmatched_prefix.
    + pose proof (chartBlock_match body (render after rest) Hb) as Hm.
      rewrite chartBlock_length in Hm.
      rewrite (matchAll_match _ _ _ Hm), <- chartBlock_length.
      rewrite firstn_length_app, skipn_length_app, IH by exact Hrest.
      reflexivity.
    + apply prose_unmatched; [exact Hp|]. right.
      unfold chartBlock. rewrite <- app_assoc. apply startsWith_app.
Qed.

Lemma replace_render
      (prose : jsstring) (blocks : list (jsstring * jsstring)) :
  well_delimited prose blocks = true ->
  replace chartDataRegex [] (render prose blocks) = prose_of prose blocks.
Proof.
  unfold prose_of.
  revert prose; induction blocks as [|[body after] rest IH]; intros prose H.
  - apply well_delimited_nil in H. cbn [render map concat].
    rewrite app_nil_r. apply matchAll_nil_replace, H.
  - apply well_delimited_cons in H as (Hp & Hb & Hrest).
    cbn [render map snd concat]. rewrite replace_unmatched_prefix.
    + pose proof (chartBlock_match body (render after rest) Hb) as Hm.
      rewrite chartBlock_length in Hm.
      rewrite (replace_match _ _ _ _ Hm), <- chartBlock_length.
      rewrite skipn_length_app, IH by exact Hrest. reflexivity.
    + apply prose_unmatched; [exact Hp|]. right.
      unfold chartBlock. rewrite <- app_assoc. apply startsWith_app.
Qed.

Lemma formatAIResponse_render
      (prose : jsstring) (blocks : list (jsstring * jsstring)) :
  well_delimited prose blocks = true ->
  formatAIResponse (render prose blocks) = tidy (prose_of prose blocks).
Proof.
  intros H. unfold formatAIResponse, tidy. rewrite replace_render by exact H.
  reflexivity.
Qed.

(* ================================================================== *)
(** ** Parsing a reply written as prose and blocks *)
(* ================================================================== *)

Section RenderProofs.

Variable JSON_parse : jsstring -> option json.

Lemma parsed_or_null_chartBlock (body : jsstring) :
  parsed_or_null JSON_parse (chartBlock body)
  = match JSON_parse body with Some v => v | None => JNull end.
Proof. unfold parsed_or_null. rewrite group1_chartBlock. reflexivity. Qed.

Lemma well_formed_blocks (bodies : list jsstring) (charts : list json) :
  Forall2 (well_formed JSON_parse) bodies charts ->
  filter (fun chart => negb (is_null chart))
         (map (parsed_or_null JSON_parse) (map chartBlock bodies)) = charts
  /\ parse_errors JSON_parse (map chartBlock bodies) = [].
Proof.
  induction 1 as [|body chart bodies charts [Hparse Hnull] _ [IHc IHe]];
    [split; reflexivity|].
  cbn [map filter]. rewrite parsed_or_null_chartBlock, Hparse, Hnull.
  cbn [negb]. rewrite IHc. split; [reflexivity|].
  unfold parse_errors in *. cbn [map flat_map].
  rewrite group1_chartBlock, Hparse, IHe. reflexivity.
Qed.




End RenderProofs.


(* ================================================================== *)
(** ** What the tidying expressions match *)
(* ================================================================== *)

Lemma unmatched_nil (re : regex) :
  match_here re [] = None -> unmatched re [].
Proof. intros H k. rewrite skipn_nil. exact H. Qed.

Lemma unmatched_cons (re : regex) (c : N) (r : jsstring) :
  unmatched re (c :: r) <-> match_here re (c :: r) = None /\ unmatched re r.
Proof.
  split.
  - intros H. split; [exact (H 0) | intros k; exact (H (S k))].
  - intros [H0 Hr] [|k]; [exact H0 | exact (Hr k)].
Qed.

Lemma unmatched_skipn (re : regex) (s : jsstring) (k : nat) :
  unmatched re s -> unmatched re (skipn k s).
Proof. intros H j. rewrite skipn_skipn. apply H. Qed.

Lemma greedy_star_end (cls : N -> bool) (s : jsstring) :
  match_here [Rep 0 true cls] s = Some (lead cls s).
Proof.
  induction s as [|x r IH]; rewrite match_here_greedy, match_here_nil.
  - reflexivity.
  - rewrite IH. cbn [lead option_map]. destruct (cls x); reflexivity.
Qed.

Lemma greedy_min_end (m : nat) (cls : N -> bool) (s : jsstring) :
  match_here [Rep m true cls] s
  = if Nat.leb m (lead cls s) then Some (lead cls s) else None.
Proof.
  revert s; induction m as [|m IH]; intros s.
  - rewrite greedy_star_end. reflexivity.
  - rewrite match_here_rep_S. destruct s as [|x r]; [reflexivity|].
    rewrite IH. cbn [lead]. destruct (cls x); [|reflexivity].
    cbn [Nat.leb]. destruct (Nat.leb m (lead cls r)); reflexivity.
Qed.

(** [/\n{3,}/] matches a run of line breaks, whole, when it has three
    or more. *)
Lemma lineBreaksRegex_match (s : jsstring) :
  match_here lineBreaksRegex s
  = if Nat.leb 3 (lead (only nl) s) then Some (lead (only nl) s) else None.
Proof. apply greedy_min_end. Qed.

Lemma isWhiteSpace_nl (c : N) : N.eqb c nl = true -> isWhiteSpace c = true.
Proof. intros H. apply N.eqb_eq in H. subst c. reflexivity. Qed.

Lemma last_break_none (s : jsstring) : last_break s = None <-> breaks s = 0.
Proof.
  induction s as [|c r IH]; simpl; [tauto|].
  destruct (isWhiteSpace c); [|tauto].
  destruct (last_break r) as [n|].
  - split; [discriminate|]. intros H.
    assert (breaks r = 0) by lia. apply IH in H0. discriminate.
  - destruct (N.eqb c nl); simpl.
    + split; [discriminate | lia].
    + split; [intros _; apply IH; reflexivity | reflexivity].
Qed.

(** [\s*\n], greedy: up to the last line break of the white space. *)
Lemma to_last_break (s : jsstring) :
  match_here [Rep 0 true isWhiteSpace; Chr nl] s = last_break s.
Proof.
  induction s as [|c r IH]; rewrite match_here_greedy, match_here_chr.
  - reflexivity.
  - rewrite IH, match_here_nil. cbn [last_break option_map].
    destruct (isWhiteSpace c) eqn:Hws.
    + destruct (last_break r); reflexivity.
    + destruct (N.eqb c nl) eqn:Hnl; [|reflexivity].
      apply isWhiteSpace_nl in Hnl. congruence.
Qed.

(** [\s*\n\s*\n], greedy: the same end, when the white space has two
    line breaks or more. *)
Lemma to_last_of_two_breaks (s : jsstring) :
  match_here [Rep 0 true isWhiteSpace; Chr nl;
              Rep 0 true isWhiteSpace; Chr nl] s
  = if Nat.leb 2 (breaks s) then last_break s else None.
Proof.
  induction s as [|c r IH]; rewrite match_here_greedy, match_here_chr.
  - reflexivity.
  - rewrite IH, to_last_break. cbn [last_break breaks].
    pose proof (last_break_none r) as [Hnone Hsome].
    destruct (isWhiteSpace c) eqn:Hws.
    + destruct (last_break r) as [n|] eqn:El;
        destruct (breaks r) as [|[|b]] eqn:Eb;
        destruct (N.eqb c nl); cbn; try reflexivity;
        try discriminate (Hnone eq_refl); discriminate (Hsome eq_refl).
    + destruct (N.eqb c nl) eqn:Hnl; [|reflexivity].
      apply isWhiteSpace_nl in Hnl. congruence.
Qed.

(** [/---\s*\n\s*\n/] matches three dashes and the white space after
    them up to its last line break, when it has two or more. *)
Lemma ruleRegex_match (s : jsstring) :
  match_here ruleRegex s
  = if startsWith s (js "---") && Nat.leb 2 (breaks (skipn 3 s))
    then option_map (Nat.add 3) (last_break (skipn 3 s))
    else None.
Proof.
  unfold ruleRegex. rewrite match_here_lit.
  destruct (startsWith s (js "---")); [|reflexivity].
  change (length (js "---")) with 3. rewrite to_last_of_two_breaks.
  destruct (Nat.leb 2 (breaks (skipn 3 s))); reflexivity.
Qed.

(** [/```\s*```/] and the chart expression match at a fence only. *)
Lemma emptyBlockRegex_needs_fence (s : jsstring) :
  startsWith s fence = false -> match_here emptyBlockRegex s = None.
Proof.
  intros H. unfold emptyBlockRegex. rewrite match_here_lit.
  fold fence. rewrite H. reflexivity.
Qed.

Lemma startsWith_prefix (s a b : jsstring) :
  startsWith s (a ++ b) = true -> startsWith s a = true.
Proof.
  revert s; induction a as [|x a IH]; intros s H; [apply startsWith_nil|].
  destruct s as [|y s]; [discriminate|]. simpl in *.
  apply andb_true_iff in H as [Hx Ha]. rewrite Hx. simpl. apply IH, Ha.
Qed.

Lemma chartDataRegex_needs_fence (s : jsstring) :
  startsWith s fence = false -> match_here chartDataRegex s = None.
Proof.
  intros H. apply chartDataRegex_needs_open.
  destruct (startsWith s chartOpen) eqn:E; [|reflexivity].
  change chartOpen with (fence ++ js "chart-data" ++ [nl]) in E.
  apply startsWith_prefix in E. congruence.
Qed.

(* ================================================================== *)
(** ** Runs of line breaks *)
(* ================================================================== *)

Lemma lead_skipn (cls : N -> bool) (s : jsstring) :
  lead cls (skipn (lead cls s) s) = 0.
Proof.
  induction s as [|c r IH]; [reflexivity|]. simpl.
  destruct (cls c) eqn:E; [exact IH|]. simpl. rewrite E. reflexivity.
Qed.

Lemma lead_app_le (cls : N -> bool) (a b : jsstring) :
  lead cls a <= lead cls (a ++ b).
Proof.
  induction a as [|c a IH]; simpl; [lia|]. destruct (cls c); lia.
Qed.

Lemma lineBreaksRegex_none (s : jsstring) :
  match_here lineBreaksRegex s = None <-> lead (only nl) s < 3.
Proof.
  rewrite lineBreaksRegex_match.
  destruct (Nat.leb 3 (lead (only nl) s)) eqn:E.
  - apply Nat.leb_le in E. split; [discriminate | lia].
  - apply Nat.leb_gt in E. tauto.
Qed.

Lemma replace_nil_none (re : regex) (repl : jsstring) :
  match_here re [] = None -> replace re repl [] = [].
Proof. intros H. unfold replace. simpl. rewrite H. reflexivity. Qed.

(** The step of [replace] at the head of a string, for an expression
    that has no empty match. *)
Lemma replace_step (re : regex) (repl : jsstring) (c : N) (r : jsstring) :
  match_here re (c :: r) <> Some 0 ->
  (match_here re (c :: r) = None
   /\ replace re repl (c :: r) = c :: replace re repl r)
  \/ (exists k, match_here re (c :: r) = Some (S k)
                /\ replace re repl (c :: r)
                   = repl ++ replace re repl (skipn k r)).
Proof.
  intros Hne. destruct (match_here re (c :: r)) as [[|k]|] eqn:E.
  - congruence.
  - right. exists k. split; [reflexivity|]. apply (replace_match _ _ _ _ E).
  - left. split; [reflexivity|]. apply replace_cons_none, E.
Qed.

Lemma lineBreaksRegex_not_empty (s : jsstring) :
  match_here lineBreaksRegex s <> Some 0.
Proof.
  rewrite lineBreaksRegex_match.
  destruct (Nat.leb 3 (lead (only nl) s)) eqn:E; [|discriminate].
  apply Nat.leb_le in E. intros H. injection H as H. lia.
Qed.

(** After [/\n{3,}/g -> "\n\n"] no run of three line breaks is left. *)
Lemma collapse_bounds :
  forall (n : nat) (s : jsstring),
    length s <= n ->
    lead (only nl) (replace lineBreaksRegex [nl; nl] s) <= lead (only nl) s
    /\ unmatched lineBreaksRegex (replace lineBreaksRegex [nl; nl] s).
Proof.
  induction n as [|n IH]; intros s Hn.
  - destruct s; [|simpl in Hn; lia]. rewrite replace_nil_none by reflexivity.
    split; [lia | apply unmatched_nil; reflexivity].
  - destruct s as [|c r].
    { rewrite replace_nil_none by reflexivity.
      split; [lia | apply unmatched_nil; reflexivity]. }
    destruct (replace_step lineBreaksRegex [nl; nl] c r
                (lineBreaksRegex_not_empty _)) as [[Hm ->] | (k & Hm & ->)].
    + destruct (IH r ltac:(simpl in Hn; lia)) as [Hlead Hun].
      apply lineBreaksRegex_none in Hm.
      assert (Hle : lead (only nl) (c :: replace lineBreaksRegex [nl; nl] r)
                    <= lead (only nl) (c :: r)).
      { simpl. destruct (only nl c); lia. }
      split; [exact Hle|]. apply unmatched_cons. split; [|exact Hun].
      apply lineBreaksRegex_none. lia.
    + rewrite lineBreaksRegex_match in Hm.
      destruct (Nat.leb 3 (lead (only nl) (c :: r))) eqn:E; [|discriminate].
      apply Nat.leb_le in E. injection Hm as Hm.
      change (lead (only nl) (c :: r) = S k) in Hm.
      pose proof (lead_skipn (only nl) (c :: r)) as Hz.
      rewrite Hm in Hz. simpl skipn in Hz.
      assert (Hlen : length (skipn k r) <= n).
      { rewrite length_skipn. simpl in Hn. lia. }
      destruct (IH (skipn k r) Hlen) as [Hlead Hun].
      assert (H0 : lead (only nl) (replace lineBreaksRegex [nl; nl]
                                     (skipn k r)) = 0) by lia.
      set (rest := replace lineBreaksRegex [nl; nl] (skipn k r)) in *.
      assert (H1 : lead (only nl) (nl :: rest) = 1)
        by (change (lead (only nl) (nl :: rest))
              with (S (lead (only nl) rest)); lia).
      assert (H2 : lead (only nl) (nl :: nl :: rest) = 2)
        by (change (lead (only nl) (nl :: nl :: rest))
              with (S (lead (only nl) (nl :: rest))); lia).
      change ([nl; nl] ++ rest) with (nl :: nl :: rest).
      split; [lia|].
      apply unmatched_cons. split; [apply lineBreaksRegex_none; lia|].
      apply unmatched_cons. split; [apply lineBreaksRegex_none; lia|].
      exact Hun.
Qed.

Lemma collapse_unmatched (s : jsstring) :
  unmatched lineBreaksRegex (replace lineBreaksRegex [nl; nl] s).
Proof. apply (collapse_bounds (length s) s (le_n _)). Qed.

(* ================================================================== *)
(** ** Code fences *)
(* ================================================================== *)

Lemma includes_cons (c : N) (r p : jsstring) :
  includes (c :: r) p = startsWith (c :: r) p || includes r p.
Proof. reflexivity. Qed.

Lemma startsWith_fence (s : jsstring) :
  startsWith s fence = Nat.leb 3 (lead (only backtick) s).
Proof.
  change fence with [backtick; backtick; backtick]. unfold only.
  destruct s as [|a [|b [|c r]]]; cbn [startsWith lead];
    rewrite ?(N.eqb_sym backtick);
    try destruct (N.eqb a backtick); try destruct (N.eqb b backtick);
    try destruct (N.eqb c backtick); rewrite ?startsWith_nil; reflexivity.
Qed.

Lemma includes_false_tail (c : N) (r p : jsstring) :
  includes (c :: r) p = false -> includes r p = false.
Proof. rewrite includes_cons. intros H. apply orb_false_iff in H. tauto. Qed.

Lemma includes_skipn_false (s p : jsstring) (k : nat) :
  includes s p = false -> includes (skipn k s) p = false.
Proof.
  revert s; induction k as [|k IH]; intros s H; [exact H|].
  destruct s as [|c r]; [exact H|]. simpl. apply IH.
  apply (includes_false_tail c), H.
Qed.

Lemma startsWith_app_true (a b p : jsstring) :
  startsWith a p = true -> startsWith (a ++ b) p = true.
Proof.
  revert a; induction p as [|x p IH]; intros a H; [apply startsWith_nil|].
  destruct a as [|y a]; [discriminate|]. simpl in *.
  apply andb_true_iff in H as [Hx Hp]. rewrite Hx. simpl. apply IH, Hp.
Qed.

Lemma includes_false_prefix (a b p : jsstring) :
  includes (a ++ b) p = false -> includes a p = false.
Proof.
  induction a as [|c a IH]; intros H.
  - destruct p as [|x p]; [|reflexivity].
    exfalso. destruct b; simpl in H; discriminate.
  - change ((c :: a) ++ b) with (c :: (a ++ b)) in H.
    rewrite includes_cons in *. apply orb_false_iff in H as [H0 Hr].
    apply orb_false_iff. split; [|apply IH, Hr].
    destruct (startsWith (c :: a) p) eqn:E; [|reflexivity].
    apply (startsWith_app_true _ b) in E.
    change (startsWith (c :: a ++ b) p = true) in E. congruence.
Qed.

(** A fence-free string has no match of the two expressions that start
    with a fence. *)
Lemma fence_free_unmatched (s : jsstring) :
  includes s fence = false ->
  unmatched chartDataRegex s /\ unmatched emptyBlockRegex s.
Proof.
  intros H. split; intros k.
  - apply chartDataRegex_needs_fence, includes_false_skipn, H.
  - apply emptyBlockRegex_needs_fence, includes_false_skipn, H.
Qed.

(** A replacement text without backtick, put in place of non-empty
    matches, brings no fence in. *)
Lemma replace_keeps_fence_free (re : regex) (repl : jsstring) :
  (forall s, match_here re s <> Some 0) ->
  match_here re [] = None ->
  repl <> [] ->
  Forall (fun c => only backtick c = false) repl ->
  forall (n : nat) (s : jsstring),
    length s <= n ->
    includes s fence = false ->
    lead (only backtick) (replace re repl s) <= lead (only backtick) s
    /\ includes (replace re repl s) fence = false.
Proof.
  intros Hne Hnil Hrepl Hticks.
  assert (Hput : forall x, includes x fence = false ->
                           lead (only backtick) (repl ++ x) = 0
                           /\ includes (repl ++ x) fence = false).
  { intros x Hx. split.
    - destruct repl as [|c0 repl']; [congruence|].
      inversion Hticks as [|? ? Hc0 _]; subst. simpl. rewrite Hc0.
      reflexivity.
    - clear Hrepl. induction Hticks as [|c0 repl' Hc0 _ IHr]; [exact Hx|].
      change ((c0 :: repl') ++ x) with (c0 :: (repl' ++ x)).
      rewrite includes_cons, startsWith_fence, IHr. simpl.
      rewrite Hc0. reflexivity. }
  induction n as [|n IH]; intros s Hn Hfree.
  - destruct s; [|simpl in Hn; lia]. rewrite replace_nil_none by exact Hnil.
    split; [lia | reflexivity].
  - destruct s as [|c r].
    { rewrite replace_nil_none by exact Hnil. split; [lia | reflexivity]. }
    destruct (replace_step re repl c r (Hne _)) as [[Hm ->] | (k & Hm & ->)].
    + destruct (IH r ltac:(simpl in Hn; lia) (includes_false_tail _ _ _ Hfree))
        as [Hlead Hfr].
      assert (Hle : lead (only backtick) (c :: replace re repl r)
                    <= lead (only backtick) (c :: r)).
      { simpl. destruct (only backtick c); lia. }
      split; [exact Hle|].
      rewrite includes_cons, Hfr, startsWith_fence, orb_false_r.
      rewrite includes_cons, startsWith_fence in Hfree.
      apply orb_false_iff in Hfree as [Hfree _].
      apply Nat.leb_gt in Hfree. apply Nat.leb_gt. lia.
    + assert (Hlen : length (skipn k r) <= n).
      { rewrite length_skipn. simpl in Hn. lia. }
      assert (Hfk : includes (skipn k r) fence = false).
      { apply includes_skipn_false, (includes_false_tail c), Hfree. }
      destruct (IH (skipn k r) Hlen Hfk) as [_ Hfr].
      destruct (Hput _ Hfr) as [H0 Hf]. split; [lia | exact Hf].
Qed.

(* ================================================================== *)
(** ** Every reply is prose and chart blocks *)
(* ================================================================== *)

(** Conversely, what the chart expression matches is a block whose body
    is free of the closing fence. *)
Lemma match_here_lazy_until_inv (c : jsstring) :
  forall (s : jsstring) (n : nat),
    match_here (Rep 0 false any :: lit c) s = Some n ->
    exists body rest,
      s = body ++ c ++ rest /\ n = length body + length c
      /\ forall k, k < length body -> startsWith (skipn k s) c = false.
Proof.
  induction s as [|x r IH]; intros n H;
    rewrite match_here_lazy, match_here_lit_only in H.
  - destruct (startsWith [] c) eqn:E; [|discriminate].
    injection H as <-. exists [], []. apply startsWith_true in E.
    rewrite skipn_nil, app_nil_r in E.
    repeat split; [rewrite app_nil_r; exact E | intros k Hk; inversion Hk].
  - destruct (startsWith (x :: r) c) eqn:E.
    + injection H as <-. exists [], (skipn (length c) (x :: r)).
      repeat split; [apply startsWith_true, E | intros k Hk; inversion Hk].
    + cbn [any] in H.
      destruct (match_here (Rep 0 false any :: lit c) r) as [m|] eqn:Em;
        [|discriminate].
      injection H as <-.
      destruct (IH m eq_refl) as (body & rest & -> & -> & Hfirst).
      exists (x :: body), rest. repeat split.
      intros [|k] Hk; [exact E|]. apply Hfirst. simpl in Hk. lia.
Qed.

Lemma includes_false_intro (s p : jsstring) :
  (forall k, startsWith (skipn k s) p = false) -> includes s p = false.
Proof.
  induction s as [|c r IH]; intros H; pose proof (H 0) as H0;
    cbn [skipn] in H0.
  - cbn [includes]. rewrite H0. reflexivity.
  - rewrite includes_cons, H0. apply IH. intros k. exact (H (S k)).
Qed.

Lemma chartDataRegex_match_inv (s : jsstring) (n : nat) :
  match_here chartDataRegex s = Some n ->
  exists body rest,
    s = chartBlock body ++ rest
    /\ includes body chartClose = false
    /\ n = length (chartBlock body).
Proof.
  unfold chartDataRegex. rewrite match_here_lit. intros H.
  destruct (startsWith s chartOpen) eqn:Hopen; [|discriminate].
  apply startsWith_true in Hopen.
  change ([Rep 0 false any] ++ lit chartClose)
    with (Rep 0 false any :: lit chartClose) in H.
  destruct (match_here (Rep 0 false any :: lit chartClose)
                       (skipn (length chartOpen) s)) as [m|] eqn:Em;
    [|discriminate].
  injection H as <-.
  destruct (match_here_lazy_until_inv _ _ _ Em)
    as (body & rest & Hs & -> & Hfirst).
  exists body, rest. split; [|split].
  - unfold chartBlock. rewrite <- !app_assoc, <- Hs. exact Hopen.
  - apply includes_false_intro. intros k.
    destruct (le_lt_dec (length body) k) as [Hk | Hk].
    + rewrite skipn_all2 by exact Hk. reflexivity.
    + specialize (Hfirst k Hk). rewrite Hs, skipn_app_short in Hfirst by lia.
      destruct (startsWith (skipn k body) chartClose) eqn:E; [|reflexivity].
      apply (startsWith_app_true _ (chartClose ++ rest)) in E. congruence.
  - unfold chartBlock. rewrite !length_app. reflexivity.
Qed.

(** An opening fence with a closing fence somewhere after it starts a
    match. *)
Lemma match_here_lazy_exists (c a b : jsstring) :
  match_here (Rep 0 false any :: lit c) (a ++ c ++ b) <> None.
Proof.
  induction a as [|x a IH]; rewrite match_here_lazy, match_here_lit_only.
  - simpl app. rewrite startsWith_app. discriminate.
  - destruct (startsWith ((x :: a) ++ c ++ b) c); [discriminate|].
    change ((x :: a) ++ c ++ b) with (x :: (a ++ c ++ b)). cbn [any].
    destruct (match_here (Rep 0 false any :: lit c) (a ++ c ++ b));
      [discriminate | contradiction].
Qed.

Lemma open_then_close_matches (s a b : jsstring) :
  startsWith s chartOpen = true ->
  skipn (length chartOpen) s = a ++ chartClose ++ b ->
  match_here chartDataRegex s <> None.
Proof.
  intros Hopen Hrest. unfold chartDataRegex.
  rewrite match_here_lit, Hopen, Hrest.
  change ([Rep 0 false any] ++ lit chartClose)
    with (Rep 0 false any :: lit chartClose).
  pose proof (match_here_lazy_exists chartClose a b) as H.
  destruct (match_here (Rep 0 false any :: lit chartClose)
                       (a ++ chartClose ++ b));
    [discriminate | contradiction].
Qed.

(** Every reply is prose and chart blocks in turn. *)
Lemma every_reply_is_rendered_upto :
  forall (n : nat) (s : jsstring),
    length s <= n ->
    exists prose blocks,
      s = render prose blocks /\ well_delimited prose blocks = true.
Proof.
  induction n as [|n IH]; intros s Hn.
  - destruct s; [|simpl in Hn; lia]. exists [], []. split; reflexivity.
  - destruct s as [|c r]; [exists [], []; split; reflexivity|].
    destruct (match_here chartDataRegex (c :: r)) as [m|] eqn:Hm.
    + destruct (chartDataRegex_match_inv _ _ Hm)
        as (body & rest & Hs & Hbody & _).
      assert (Hlen : length rest <= n).
      { apply (f_equal (@length N)) in Hs.
        rewrite length_app, chartBlock_length in Hs. simpl in Hs, Hn. lia. }
      destruct (IH rest Hlen) as (after & blocks & -> & Hrest).
      exists [], ((body, after) :: blocks). split; [exact Hs|].
      cbn [well_delimited]. rewrite Hbody, Hrest. reflexivity.
    + destruct (IH r ltac:(simpl in Hn; lia)) as (prose & blocks & -> & Hd).
      exists (c :: prose), blocks. split.
      { destruct blocks as [|[body after] rest]; reflexivity. }
      destruct blocks as [|[body after] rest].
      * cbn [well_delimited render] in *.
        rewrite (matchAll_cons_none _ _ _ Hm).
        exact Hd.
      * apply well_delimited_cons in Hd as (Hp & Hb & Hrest).
        cbn [well_delimited]. rewrite Hb, Hrest, !andb_true_r.
        apply negb_true_iff. rewrite includes_cons, Hp, orb_false_r.
        destruct (startsWith (c :: prose) chartOpen) eqn:E; [|reflexivity].
        exfalso. cbn [render] in Hm.
        change (c :: prose ++ chartBlock body ++ render after rest)
          with ((c :: prose) ++ chartBlock body ++ render after rest) in Hm.
        revert Hm.
        apply (open_then_close_matches _
                 (skipn (length chartOpen) (c :: prose) ++ chartOpen ++ body)
                 (render after rest)).
        -- apply startsWith_app_true, E.
        -- assert (Hlong : length chartOpen <= length (c :: prose)).
           { apply startsWith_true in E. rewrite E, length_app. lia. }
           rewrite skipn_app_short by exact Hlong.
           unfold chartBlock. rewrite <- !app_assoc. reflexivity.
Qed.

Lemma every_reply_is_rendered (s : jsstring) :
  exists prose blocks,
    s = render prose blocks /\ well_delimited prose blocks = true.
Proof. apply (every_reply_is_rendered_upto (length s) s (le_n _)). Qed.

(* ================================================================== *)
(** ** Horizontal rules *)
(* ================================================================== *)

Section Rules.

Local Abbreviation dash := 45%N.
Local Abbreviation rule := (replace ruleRegex (js "---" ++ [nl])).

Lemma startsWith_dashes (s : jsstring) :
  startsWith s (js "---") = Nat.leb 3 (lead (only dash) s).
Proof.
  change (js "---") with [dash; dash; dash]. unfold only.
  destruct s as [|a [|b [|c r]]]; cbn [startsWith lead];
    rewrite ?(N.eqb_sym dash);
    try destruct (N.eqb a dash); try destruct (N.eqb b dash);
    try destruct (N.eqb c dash); rewrite ?startsWith_nil; reflexivity.
Qed.

Lemma last_break_rest (y : jsstring) (e : nat) :
  last_break y = Some e ->
  1 <= e <= length y /\ breaks (skipn e y) = 0.
Proof.
  revert e; induction y as [|c r IH]; intros e H; [discriminate|].
  simpl in H. destruct (isWhiteSpace c); [|discriminate].
  destruct (last_break r) as [n|] eqn:E.
  - injection H as <-. destruct (IH n eq_refl) as [Hn Hb].
    simpl. split; [lia | exact Hb].
  - destruct (N.eqb c nl); [|discriminate]. injection H as <-.
    simpl. split; [lia|]. apply last_break_none, E.
Qed.

Lemma breaks_zero_lead (s : jsstring) :
  breaks s = 0 -> lead (only nl) s = 0.
Proof.
  destruct s as [|c r]; [reflexivity|]. simpl. unfold only.
  destruct (N.eqb c nl) eqn:E; [|reflexivity].
  rewrite (isWhiteSpace_nl c E). simpl. discriminate.
Qed.

Lemma breaks_app_le (a b : jsstring) : breaks a <= breaks (a ++ b).
Proof.
  induction a as [|c a IH]; simpl; [lia|].
  destruct (isWhiteSpace c); lia.
Qed.

Lemma ruleRegex_some (s : jsstring) (n : nat) :
  match_here ruleRegex s = Some n ->
  exists y e, s = dash :: dash :: dash :: y
              /\ 2 <= breaks y /\ last_break y = Some e /\ n = 3 + e.
Proof.
  rewrite ruleRegex_match. intros H.
  destruct (startsWith s (js "---")) eqn:Hs; [|discriminate].
  destruct (Nat.leb 2 (breaks (skipn 3 s))) eqn:Hb; [|discriminate].
  cbn [andb] in H. apply startsWith_true in Hs.
  change (length (js "---")) with 3 in Hs.
  destruct (last_break (skipn 3 s)) as [e|] eqn:He; [|discriminate].
  cbn [option_map] in H. injection H as <-. exists (skipn 3 s), e.
  apply Nat.leb_le in Hb. repeat split; auto.
Qed.

Lemma ruleRegex_none (s : jsstring) :
  match_here ruleRegex s = None
  <-> startsWith s (js "---") && Nat.leb 2 (breaks (skipn 3 s)) = false.
Proof.
  rewrite ruleRegex_match.
  destruct (startsWith s (js "---") && Nat.leb 2 (breaks (skipn 3 s)))
    eqn:E; [|tauto].
  apply andb_true_iff in E as [_ E]. apply Nat.leb_le in E.
  destruct (last_break (skipn 3 s)) as [e|] eqn:He.
  - split; discriminate.
  - apply last_break_none in He. lia.
Qed.

Lemma ruleRegex_not_empty (s : jsstring) : match_here ruleRegex s <> Some 0.
Proof.
  intros H. apply ruleRegex_some in H as (y & e & _ & _ & _ & H). lia.
Qed.

Lemma ruleRegex_needs_dash (c : N) (r : jsstring) :
  N.eqb c dash = false -> match_here ruleRegex (c :: r) = None.
Proof.
  intros H. apply ruleRegex_none. rewrite startsWith_dashes. simpl.
  unfold only. rewrite H. reflexivity.
Qed.

(** The three shapes of one step of the rule clean-up. *)
Lemma rule_step (x : jsstring) :
  (x = [] /\ rule x = [])
  \/ (exists c r, x = c :: r /\ match_here ruleRegex x = None
                  /\ rule x = c :: rule r)
  \/ (exists y e, x = dash :: dash :: dash :: y
                  /\ 2 <= breaks y /\ last_break y = Some e
                  /\ rule x = dash :: dash :: dash :: nl :: rule (skipn e y)).
Proof.
  destruct x as [|c r]; [left; split; reflexivity|]. right.
  destruct (replace_step ruleRegex (js "---" ++ [nl]) c r
              (ruleRegex_not_empty _)) as [[Hm Hr] | (k & Hm & Hr)].
  - left. exists c, r. auto.
  - right. apply ruleRegex_some in Hm as (y & e & Hx & Hb & He & Hk).
    exists y, e. injection Hx as -> ->. repeat split; auto.
    rewrite Hr. replace k with (2 + e) by lia. reflexivity.
Qed.

Lemma rule_head (y : jsstring) : hd_error (rule y) = hd_error y.
Proof.
  destruct (rule_step y) as [[-> ->] | [(c & r & -> & _ & ->)
                                       | (z & e & -> & _ & _ & ->)]];
    reflexivity.
Qed.

Lemma breaks_rule (y : jsstring) : breaks (rule y) = breaks y.
Proof.
  induction y as [|c r IH]; [reflexivity|].
  destruct (isWhiteSpace c) eqn:Hws.
  - assert (Hd : N.eqb c dash = false).
    { destruct (N.eqb c dash) eqn:E; [|reflexivity].
      apply N.eqb_eq in E. subst c. discriminate. }
    rewrite replace_cons_none by (apply ruleRegex_needs_dash, Hd).
    cbn [breaks]. rewrite Hws, IH. reflexivity.
  - pose proof (rule_head (c :: r)) as Hh.
    destruct (rule (c :: r)) as [|c' r']; [discriminate|].
    injection Hh as ->. cbn [breaks]. rewrite Hws. reflexivity.
Qed.

Lemma lead_breaks_rule (y : jsstring) :
  lead (only nl) (rule y) <= lead (only nl) y.
Proof.
  induction y as [|c r IH]; [cbn; lia|].
  destruct (N.eqb c nl) eqn:Hnl.
  - assert (Hd : N.eqb c dash = false).
    { apply N.eqb_eq in Hnl. subst c. reflexivity. }
    rewrite replace_cons_none by (apply ruleRegex_needs_dash, Hd).
    cbn [lead]. unfold only at 1 3. rewrite Hnl. lia.
  - pose proof (rule_head (c :: r)) as Hh.
    destruct (rule (c :: r)) as [|c' r']; [discriminate|].
    injection Hh as ->. cbn [lead]. unfold only at 1. rewrite Hnl. lia.
Qed.

Lemma dashes_rule (x : jsstring) :
  lead (only dash) (rule x) = lead (only dash) x.
Proof.
  induction x as [|c r IH]; [reflexivity|].
  destruct (rule_step (c :: r))
    as [[H _] | [(c' & r' & Hx & _ & ->) | (y & e & Hx & Hb & _ & ->)]].
  - discriminate.
  - injection Hx as <- <-. cbn [lead]. rewrite IH. reflexivity.
  - rewrite Hx. destruct y as [|w y]; [simpl in Hb; lia|].
    simpl in Hb. destruct (isWhiteSpace w) eqn:Hws; [|lia].
    assert (Hd : only dash w = false).
    { unfold only. destruct (N.eqb w dash) eqn:E; [|reflexivity].
      apply N.eqb_eq in E. subst w. discriminate. }
    cbn [lead]. rewrite Hd. reflexivity.
Qed.

Lemma dashes_three (x : jsstring) :
  lead (only dash) x = 3 ->
  exists y, x = dash :: dash :: dash :: y /\ lead (only dash) y = 0.
Proof.
  unfold only. intros H.
  destruct x as [|a [|b [|c y]]]; cbn [lead] in H;
    try destruct (N.eqb a dash) eqn:Ea; try destruct (N.eqb b dash) eqn:Eb;
    try destruct (N.eqb c dash) eqn:Ec; try discriminate.
  apply N.eqb_eq in Ea, Eb, Ec. subst. exists y. split; [reflexivity|].
  lia.
Qed.

Lemma dashes_four (x : jsstring) :
  4 <= lead (only dash) x -> breaks (skipn 3 x) = 0.
Proof.
  unfold only. intros H.
  destruct x as [|a [|b [|c [|d y]]]]; cbn [lead] in H;
    try destruct (N.eqb a dash) eqn:Ea; try destruct (N.eqb b dash) eqn:Eb;
    try destruct (N.eqb c dash) eqn:Ec; try destruct (N.eqb d dash) eqn:Ed;
    try lia.
  apply N.eqb_eq in Ed. subst d. reflexivity.
Qed.

(** No match starts at the head of a cleaned string... *)
Lemma rule_head_unmatched (x : jsstring) :
  match_here ruleRegex (rule x) = None.
Proof.
  destruct (rule_step x)
    as [[_ ->] | [(c & r & Hx & Hm & Hr) | (y & e & _ & _ & He & ->)]].
  - reflexivity.
  - apply ruleRegex_none. rewrite startsWith_dashes, dashes_rule.
    destruct (Nat.leb 3 (lead (only dash) x)) eqn:H3; [|reflexivity].
    apply Nat.leb_le in H3. cbn [andb].
    destruct (Nat.eq_dec (lead (only dash) x) 3) as [Heq | Hne].
    + destruct (dashes_three x Heq) as (y & -> & Hy).
      assert (H1 : match_here ruleRegex (dash :: y) = None).
      { apply ruleRegex_none. rewrite startsWith_dashes.
        change (lead (only dash) (dash :: y))
          with (S (lead (only dash) y)).
        rewrite Hy. reflexivity. }
      assert (H2 : match_here ruleRegex (dash :: dash :: y) = None).
      { apply ruleRegex_none. rewrite startsWith_dashes.
        change (lead (only dash) (dash :: dash :: y))
          with (S (S (lead (only dash) y))).
        rewrite Hy. reflexivity. }
      rewrite (replace_cons_none _ _ _ _ Hm).
      rewrite (replace_cons_none _ _ _ _ H2).
      rewrite (replace_cons_none _ _ _ _ H1).
      cbn [skipn]. rewrite breaks_rule.
      apply ruleRegex_none in Hm. rewrite startsWith_dashes, Heq in Hm.
      exact Hm.
    + rewrite dashes_four; [reflexivity|]. rewrite dashes_rule. lia.
  - apply ruleRegex_none. cbn [skipn].
    destruct (last_break_rest y e He) as [_ Hb].
    assert (H1 : breaks (nl :: rule (skipn e y)) = 1).
    { change (breaks (nl :: rule (skipn e y)))
        with (1 + breaks (rule (skipn e y))).
      rewrite breaks_rule. lia. }
    rewrite H1. apply andb_false_r.
Qed.

(** ... nor anywhere in it. *)
Lemma rule_unmatched_upto :
  forall (n : nat) (x : jsstring),
    length x <= n -> unmatched ruleRegex (rule x).
Proof.
  induction n as [|n IH]; intros x Hn.
  - destruct x; [|simpl in Hn; lia]. apply unmatched_nil. reflexivity.
  - pose proof (rule_head_unmatched x) as Hhead.
    destruct (rule_step x)
      as [[_ ->] | [(c & r & -> & Hm & Hr) | (y & e & -> & _ & He & Hr)]].
    + apply unmatched_nil. reflexivity.
    + rewrite Hr in *. apply unmatched_cons. split; [exact Hhead|].
      apply IH. simpl in Hn. lia.
    + rewrite Hr in *.
      destruct (last_break_rest y e He) as [He' _].
      apply unmatched_cons. split; [exact Hhead|].
      apply unmatched_cons. split; [apply ruleRegex_none; reflexivity|].
      apply unmatched_cons. split; [apply ruleRegex_none; reflexivity|].
      apply unmatched_cons. split; [apply ruleRegex_needs_dash; reflexivity|].
      apply IH. rewrite length_skipn. simpl in Hn. lia.
Qed.

Lemma rule_unmatched (x : jsstring) : unmatched ruleRegex (rule x).
Proof. apply (rule_unmatched_upto (length x) x (le_n _)). Qed.

(** The clean-up of rules makes no run of three line breaks. *)
Lemma rule_keeps_breaks_upto :
  forall (n : nat) (y : jsstring),
    length y <= n ->
    unmatched lineBreaksRegex y -> unmatched lineBreaksRegex (rule y).
Proof.
  induction n as [|n IH]; intros y Hn Hy.
  - destruct y; [|simpl in Hn; lia]. apply unmatched_nil. reflexivity.
  - pose proof (lead_breaks_rule y) as Hlead.
    destruct (rule_step y)
      as [[_ ->] | [(c & r & -> & Hm & Hr) | (z & e & -> & _ & He & Hr)]].
    + apply unmatched_nil. reflexivity.
    + rewrite Hr in *. apply unmatched_cons in Hy as [Hy0 Hyr].
      apply lineBreaksRegex_none in Hy0.
      apply unmatched_cons. split.
      * apply lineBreaksRegex_none. lia.
      * apply IH; [simpl in Hn; lia | exact Hyr].
    + rewrite Hr in *.
      destruct (last_break_rest z e He) as [He' Hb].
      pose proof (lead_breaks_rule (skipn e z)) as Hle.
      rewrite (breaks_zero_lead _ Hb) in Hle.
      assert (H1 : lead (only nl) (nl :: rule (skipn e z)) = 1).
      { change (lead (only nl) (nl :: rule (skipn e z)))
          with (S (lead (only nl) (rule (skipn e z)))). lia. }
      apply unmatched_cons. split; [apply lineBreaksRegex_none; cbn; lia|].
      apply unmatched_cons. split; [apply lineBreaksRegex_none; cbn; lia|].
      apply unmatched_cons. split; [apply lineBreaksRegex_none; cbn; lia|].
      apply unmatched_cons. split; [apply lineBreaksRegex_none; lia|].
      apply IH; [rewrite length_skipn; simpl in Hn; lia|].
      apply (unmatched_skipn _ _ (3 + e)) in Hy. exact Hy.
Qed.

Lemma rule_keeps_breaks (y : jsstring) :
  unmatched lineBreaksRegex y -> unmatched lineBreaksRegex (rule y).
Proof. apply (rule_keeps_breaks_upto (length y) y (le_n _)). Qed.

End Rules.

(* ================================================================== *)
(** ** Trimming *)
(* ================================================================== *)

Lemma trimStart_skipn (s : jsstring) : exists k, trimStart s = skipn k s.
Proof.
  induction s as [|c r [k IH]]; [exists 0; reflexivity|]. simpl.
  destruct (isWhiteSpace c); [exists (S k); exact IH | exists 0; reflexivity].
Qed.

Lemma trimStart_fixed (s : jsstring) :
  match s with c :: _ => isWhiteSpace c = false | [] => True end ->
  trimStart s = s.
Proof. destruct s as [|c r]; [reflexivity|]. simpl. intros ->. reflexivity. Qed.

Lemma trimStart_head (s : jsstring) :
  match trimStart s with c :: _ => isWhiteSpace c = false | [] => True end.
Proof.
  induction s as [|c r IH]; [exact I|]. simpl.
  destruct (isWhiteSpace c) eqn:E; [exact IH | exact E].
Qed.

Lemma trimStart_idem (s : jsstring) : trimStart (trimStart s) = trimStart s.
Proof. apply trimStart_fixed, trimStart_head. Qed.

Lemma trimEnd_prefix (s : jsstring) : exists w, s = trimEnd s ++ w.
Proof.
  unfold trimEnd. destruct (trimStart_skipn (rev s)) as [k Hk].
  exists (rev (firstn k (rev s))).
  rewrite Hk, <- rev_app_distr, firstn_skipn, rev_involutive. reflexivity.
Qed.

Lemma trimEnd_idem (s : jsstring) : trimEnd (trimEnd s) = trimEnd s.
Proof. unfold trimEnd. rewrite rev_involutive, trimStart_idem. reflexivity. Qed.

Lemma trim_idem (s : jsstring) : trim (trim s) = trim s.
Proof.
  unfold trim. set (u := trimStart s).
  assert (Hhead : match trimEnd u with
                  | c :: _ => isWhiteSpace c = false
                  | [] => True
                  end).
  { destruct (trimEnd_prefix u) as [w Hw].
    pose proof (trimStart_head s) as Hu. fold u in Hu.
    destruct (trimEnd u) as [|c t]; [exact I|].
    rewrite Hw in Hu. exact Hu. }
  rewrite (trimStart_fixed _ Hhead). apply trimEnd_idem.
Qed.

Lemma unmatched_prefix (re : regex) (a w : jsstring) :
  (forall t, match_here re (t ++ w) = None -> match_here re t = None) ->
  unmatched re (a ++ w) -> unmatched re a.
Proof.
  intros Hmono H k.
  destruct (le_lt_dec k (length a)) as [Hk | Hk].
  - apply Hmono. rewrite <- skipn_app_short by exact Hk. apply H.
  - rewrite skipn_all2 by lia. apply (Hmono []).
    rewrite <- (skipn_length_app a w). apply H.
Qed.

Lemma lineBreaksRegex_prefix (t w : jsstring) :
  match_here lineBreaksRegex (t ++ w) = None ->
  match_here lineBreaksRegex t = None.
Proof.
  rewrite !lineBreaksRegex_none. pose proof (lead_app_le (only nl) t w). lia.
Qed.

Lemma ruleRegex_prefix (t w : jsstring) :
  match_here ruleRegex (t ++ w) = None -> match_here ruleRegex t = None.
Proof.
  rewrite !ruleRegex_none. intros H.
  destruct (startsWith t (js "---")) eqn:Hs; [|reflexivity].
  rewrite (startsWith_app_true _ w _ Hs) in H. cbn [andb] in *.
  assert (Hlen : 3 <= length t).
  { apply startsWith_true in Hs. rewrite Hs, length_app. cbn. lia. }
  rewrite skipn_app_short in H by exact Hlen.
  apply Nat.leb_gt in H. apply Nat.leb_gt.
  pose proof (breaks_app_le (skipn 3 t) w). lia.
Qed.

Lemma trim_unmatched (re : regex) (s : jsstring) :
  (forall t w, match_here re (t ++ w) = None -> match_here re t = None) ->
  unmatched re s -> unmatched re (trim s).
Proof.
  intros Hmono H. unfold trim.
  destruct (trimStart_skipn s) as [k Hk].
  destruct (trimEnd_prefix (trimStart s)) as [w Hw].
  apply (unmatched_prefix re _ w); [intros t; apply Hmono|].
  rewrite <- Hw, Hk. apply unmatched_skipn, H.
Qed.

Lemma trim_fence_free (s : jsstring) :
  includes s fence = false -> includes (trim s) fence = false.
Proof.
  intros H. unfold trim.
  destruct (trimStart_skipn s) as [k Hk].
  destruct (trimEnd_prefix (trimStart s)) as [w Hw].
  apply (includes_false_prefix _ w). rewrite <- Hw, Hk.
  apply includes_skipn_false, H.
Qed.

(* ================================================================== *)
(** ** The display text *)
(* ================================================================== *)

(** The display text is in normal form: no run of three line breaks, no
    rule followed by a blank line, no white space at either end. *)
Lemma tidy_normal (x : jsstring) :
  unmatched lineBreaksRegex (tidy x)
  /\ unmatched ruleRegex (tidy x)
  /\ trim (tidy x) = tidy x.
Proof.
  unfold tidy. split; [|split].
  - apply trim_unmatched; [apply lineBreaksRegex_prefix|].
    apply rule_keeps_breaks, collapse_unmatched.
  - apply trim_unmatched; [apply ruleRegex_prefix|]. apply rule_unmatched.
  - apply trim_idem.
Qed.

Lemma tidy_fence_free (x : jsstring) :
  includes x fence = false ->
  tidy x = trim (replace ruleRegex (js "---" ++ [nl])
                   (replace lineBreaksRegex [nl; nl] x))
  /\ includes (tidy x) fence = false.
Proof.
  intros H. unfold tidy.
  destruct (fence_free_unmatched x H) as [_ He].
  rewrite (replace_unmatched _ _ _ He). split; [reflexivity|].
  apply trim_fence_free.
  destruct (replace_keeps_fence_free lineBreaksRegex [nl; nl]
              lineBreaksRegex_not_empty eq_refl ltac:(discriminate)
              ltac:(repeat constructor) (length x) x (le_n _) H) as [_ Hc].
  apply (replace_keeps_fence_free ruleRegex (js "---" ++ [nl])
           ruleRegex_not_empty eq_refl ltac:(discriminate)
           ltac:(repeat constructor) _ _ (le_n _) Hc).
Qed.

(** A fence-free text in normal form is displayed as it is. *)
Lemma formatAIResponse_fixed (t : jsstring) :
  includes t fence = false ->
  unmatched lineBreaksRegex t ->
  unmatched ruleRegex t ->
  trim t = t ->
  formatAIResponse t = t.
Proof.
  intros Hf Hb Hr Ht. unfold formatAIResponse.
  destruct (fence_free_unmatched t Hf) as [Hc He].
  rewrite (replace_unmatched _ _ _ Hc), (replace_unmatched _ _ _ He).
  rewrite (replace_unmatched _ _ _ Hb), (replace_unmatched _ _ _ Hr).
  exact Ht.
Qed.

Lemma includes_pattern_prefix (t a b : jsstring) :
  includes t a = false -> includes t (a ++ b) = false.
Proof.
  induction t as [|c r IH]; intros H.
  - destruct a as [|x a]; [discriminate H | reflexivity].
  - rewrite includes_cons in *. apply orb_false_iff in H as [H0 Hr].
    rewrite (IH Hr), orb_false_r.
    destruct (startsWith (c :: r) (a ++ b)) eqn:E; [|reflexivity].
    apply startsWith_prefix in E. congruence.
Qed.

Lemma includes_pattern_tail (t : jsstring) (x : N) (p : jsstring) :
  includes t p = false -> includes t (x :: p) = false.
Proof.
  induction t as [|c r IH]; intros H; [reflexivity|].
  rewrite includes_cons in *. apply orb_false_iff in H as [H0 Hr].
  rewrite (IH Hr), orb_false_r. simpl.
  destruct (N.eqb x c); [|reflexivity]. simpl.
  destruct r as [|d r]; simpl in Hr |- *.
  - apply orb_false_iff in Hr. tauto.
  - apply orb_false_iff in Hr. tauto.
Qed.

Lemma fence_free_no_marker (t : jsstring) :
  includes t fence = false ->
  includes t chartOpen = false /\ includes t chartClose = false.
Proof.
  intros H. split.
  - change chartOpen with (fence ++ js "chart-data" ++ [nl]).
    apply includes_pattern_prefix, H.
  - change chartClose with (nl :: fence). apply includes_pattern_tail, H.
Qed.

Section DisplayProofs.

Variable JSON_parse : jsstring -> option json.

(** C3 as amended. For a reply written as prose and N chart blocks, each
    with a well-formed body, parsing returns exactly the N charts of the
    bodies in source order, and the display text is the tidied prose of
    the reply.  When that prose has no code fence (three backticks in a
    row), the display text has none either, so it contains neither the
    opening nor the closing marker of a chart block. *)
Theorem charts_in_source_order
        (prose : jsstring) (blocks : list (jsstring * jsstring))
        (charts : list json) :
  well_delimited prose blocks = true ->
  Forall2 (well_formed JSON_parse) (map fst blocks) charts ->
  (forall log,
      parseChartDataFromResponse JSON_parse (render prose blocks) log
      = (Normal charts, log))
  /\ length charts = length blocks
  /\ formatAIResponse (render prose blocks) = tidy (prose_of prose blocks)
  /\ (includes (prose_of prose blocks) fence = false ->
      includes (formatAIResponse (render prose blocks)) fence = false
      /\ includes (formatAIResponse (render prose blocks)) chartOpen = false
      /\ includes (formatAIResponse (render prose blocks)) chartClose
         = false).
Proof.
  intros Hdelim Hwf.
  destruct (well_formed_blocks JSON_parse _ _ Hwf) as [Hc He].
  assert (Hmatches : matchAll chartDataRegex (render prose blocks)
                     = map chartBlock (map fst blocks)).
  { rewrite matchAll_render by exact Hdelim. rewrite map_map. reflexivity. }
  pose proof (formatAIResponse_render prose blocks Hdelim) as Hshown.
  split; [|split; [|split]].
  - intros log. rewrite parseChartDataFromResponse_run.
    unfold charts_of. rewrite Hmatches, Hc, He, app_nil_r. reflexivity.
  - apply Forall2_length in Hwf. rewrite length_map in Hwf. auto.
  - exact Hshown.
  - intros Hfree. rewrite Hshown.
    destruct (tidy_fence_free _ Hfree) as [_ Hf].
    split; [exact Hf | apply fence_free_no_marker, Hf].
Qed.

(** C7 as amended. For a text without chart block, parsing returns no
    chart and the display text is the tidied text: empty fences removed,
    no run of three line breaks left, no rule followed by a blank line
    left, no white space at either end.  When the text has no code fence
    (three backticks in a row), formatting the display text again returns
    it unchanged. *)
Theorem display_without_chart_blocks (s : jsstring) :
  matchAll chartDataRegex s = [] ->
  (forall log,
      parseChartDataFromResponse JSON_parse s log = (Normal [], log))
  /\ formatAIResponse s = tidy s
  /\ unmatched lineBreaksRegex (formatAIResponse s)
  /\ unmatched ruleRegex (formatAIResponse s)
  /\ trim (formatAIResponse s) = formatAIResponse s
  /\ (includes s fence = false ->
      formatAIResponse (formatAIResponse s) = formatAIResponse s).
Proof.
  intros Hnone.
  assert (Hshown : formatAIResponse s = tidy s).
  { unfold formatAIResponse, tidy.
    rewrite (matchAll_nil_replace _ _ _ Hnone). reflexivity. }
  destruct (tidy_normal s) as (Hb & Hr & Ht).
  rewrite Hshown. repeat split; auto.
  - intros log. rewrite parseChartDataFromResponse_run.
    unfold charts_of. rewrite Hnone, app_nil_r. reflexivity.
  - intros Hfree. destruct (tidy_fence_free s Hfree) as [_ Hf].
    apply formatAIResponse_fixed; assumption.
Qed.

End DisplayProofs.

(** The witness of [charts_in_source_order]: the reply of the scenario
    of the specification, with one bar chart. *)
Lemma charts_in_source_order_witness :
  let text := render Scenario.totals [(Scenario.bar_chart, Scenario.done)] in
  (forall log,
      parseChartDataFromResponse JSON.parse text log
      = (Normal [Scenario.bar_chart_value], log))
  /\ JSON.get (js "type") Scenario.bar_chart_value
     = Some (JString (js "bar"))
  /\ formatAIResponse text = js "Totals:" ++ [nl; nl] ++ js "Done."
  /\ includes (formatAIResponse text) chartOpen = false.
Proof.
  destruct (charts_in_source_order JSON.parse Scenario.totals
              [(Scenario.bar_chart, Scenario.done)]
              [Scenario.bar_chart_value])
    as (Hparse & _ & Hshown & Hfree).
  - reflexivity.
  - repeat constructor.
  - split; [exact Hparse|]. split; [reflexivity|].
    split; [etransitivity; [exact Hshown | vm_compute; reflexivity]|].
    apply Hfree. reflexivity.
Defined.

(** C3 as stated fails.  A reply cut short inside its second chart block
    has exactly one chart block, whose body is well formed, and parsing
    returns its chart; the display text keeps the opening marker of the
    block that was never closed.  In the other reply, which also has
    exactly one well-formed block, the display text is a whole chart
    block, made of the text before and after the block taken out. *)
Lemma display_keeps_a_chart_marker :
  (matchAll chartDataRegex Scenario.cut_short
   = [chartBlock Scenario.bar_chart]
   /\ well_formed JSON.parse Scenario.bar_chart Scenario.bar_chart_value
   /\ parseChartDataFromResponse JSON.parse Scenario.cut_short []
      = (Normal [Scenario.bar_chart_value], [])
   /\ formatAIResponse Scenario.cut_short
      = js "Totals:" ++ [nl; nl] ++ chartOpen ++ jsq "{'title':"
   /\ includes (formatAIResponse Scenario.cut_short) chartOpen = true)
  /\ (matchAll chartDataRegex Scenario.split_fence
      = [chartBlock Scenario.bar_chart]
      /\ parseChartDataFromResponse JSON.parse Scenario.split_fence []
         = (Normal [Scenario.bar_chart_value], [])
      /\ formatAIResponse Scenario.split_fence
         = chartBlock Scenario.bar_chart
      /\ includes (formatAIResponse Scenario.split_fence) chartOpen = true
      /\ includes (formatAIResponse Scenario.split_fence) chartClose
         = true).
Proof. vm_compute. repeat split; reflexivity. Qed.

(** The witness of [display_without_chart_blocks]. *)
Lemma display_without_chart_blocks_witness :
  (forall log,
      parseChartDataFromResponse JSON.parse Scenario.untidy log
      = (Normal [], log))
  /\ formatAIResponse Scenario.untidy
     = js "Totals:" ++ [nl; nl] ++ js "---" ++ [nl] ++ js "Done."
  /\ formatAIResponse (formatAIResponse Scenario.untidy)
     = formatAIResponse Scenario.untidy.
Proof.
  destruct (display_without_chart_blocks JSON.parse Scenario.untidy)
    as (Hparse & _ & _ & _ & _ & Hidem).
  - reflexivity.
  - split; [exact Hparse|]. split; [vm_compute; reflexivity|].
    apply Hidem. reflexivity.
Defined.

(** C7 as stated fails: this text has no chart block, yet its display
    text is a chart block, which a second formatting removes. *)
Lemma nested_fence_is_not_stable :
  matchAll chartDataRegex Scenario.nested_fence = []
  /\ formatAIResponse Scenario.nested_fence = chartBlock (js "X")
  /\ formatAIResponse (formatAIResponse Scenario.nested_fence) = []
  /\ formatAIResponse (formatAIResponse Scenario.nested_fence)
     <> formatAIResponse Scenario.nested_fence.
Proof. vm_compute. repeat split; try reflexivity. discriminate. Qed.

(* ================================================================== *)
(** ** The suggested insights *)
(* ================================================================== *)

Lemma trimStart_keeps_last (a : jsstring) (c : N) :
  isWhiteSpace c = false -> trimStart (a ++ [c]) <> [].
Proof.
  intros Hc. induction a as [|x a IH]; simpl.
  - rewrite Hc. discriminate.
  - destruct (isWhiteSpace x); [exact IH | discriminate].
Qed.

(** A text that starts with a unit that is not white space is not
    blank. *)
Lemma trim_not_blank (c : N) (r : jsstring) :
  isWhiteSpace c = false -> trim (c :: r) <> [].
Proof.
  intros Hc. unfold trim. simpl. rewrite Hc. unfold trimEnd.
  destruct (rev (c :: r)) as [|y t] eqn:E.
  - apply (f_equal (@length N)) in E. rewrite length_rev in E. discriminate.
  - assert (Hlast : exists a, y :: t = a ++ [c]).
    { rewrite <- E. simpl. eexists. reflexivity. }
    destruct Hlast as [a Ha]. rewrite Ha. intros Hnil.
    apply (f_equal (@rev N)) in Hnil. rewrite rev_involutive in Hnil.
    exact (trimStart_keeps_last a c Hc Hnil).
Qed.

Lemma firstn_subset {A} (n : nat) (l : list A) (x : A) :
  In x (firstn n l) -> In x l.
Proof.
  intros H. rewrite <- (firstn_skipn n l). apply in_or_app. left. exact H.
Qed.

Lemma pushed_first {A} (d n t : list A) (c : A) :
  Permutation ((d ++ [c]) ++ n ++ t) (c :: d ++ n ++ t).
Proof.
  rewrite <- app_assoc. apply Permutation_sym, Permutation_middle.
Qed.

Lemma pushed_second {A} (d n t : list A) (c : A) :
  Permutation (d ++ (n ++ [c]) ++ t) (c :: d ++ n ++ t).
Proof.
  replace (d ++ (n ++ [c]) ++ t) with ((d ++ n) ++ c :: t)
    by (rewrite <- !app_assoc; reflexivity).
  rewrite (app_assoc d n t). apply Permutation_sym, Permutation_middle.
Qed.

Lemma pushed_third {A} (d n t : list A) (c : A) :
  Permutation (d ++ n ++ t ++ [c]) (c :: d ++ n ++ t).
Proof.
  rewrite !app_assoc. apply Permutation_sym, Permutation_cons_append.
Qed.

Section SuggestionProofs.

Variable toLowerCase : jsstring -> jsstring.
Variable number : Type.
Variable parseFloat : jsstring -> number.
Variable Number : jsstring -> number.
Variable isNaN : number -> bool.
Variable isFinite : number -> bool.

Local Abbreviation categorize :=
  (categorize toLowerCase parseFloat Number isNaN isFinite).
Local Abbreviation categorized :=
  (categorized toLowerCase parseFloat Number isNaN isFinite).
Local Abbreviation generateSuggestions :=
  (generateSuggestions toLowerCase parseFloat Number isNaN isFinite).
Local Abbreviation suggestedInsights :=
  (suggestedInsights toLowerCase parseFloat Number isNaN isFinite).

Lemma fallback_length (found : list jsstring) :
  3 <= length (firstn 5 (if Nat.ltb (length found) 3
                         then found ++ generalSuggestions
                         else found)) <= 5.
Proof.
  destruct (Nat.ltb (length found) 3) eqn:E.
  - rewrite length_firstn, length_app. cbn [generalSuggestions length]. lia.
  - apply Nat.ltb_ge in E. rewrite length_firstn. lia.
Qed.

Lemma fallback_short (found : list jsstring) :
  length found <= 2 ->
  firstn 5 (if Nat.ltb (length found) 3
            then found ++ generalSuggestions
            else found)
  = found ++ generalSuggestions.
Proof.
  intros H. assert (E : Nat.ltb (length found) 3 = true)
    by (apply Nat.ltb_lt; lia).
  rewrite E. apply firstn_all2. rewrite length_app.
  cbn [generalSuggestions length]. lia.
Qed.

(** X1. Whatever the dataset, the generator returns at least three and
    at most five suggestions. *)
Theorem generateSuggestions_length (data : UploadResponse) :
  3 <= length (generateSuggestions data) <= 5.
Proof. unfold generateSuggestions. cbv zeta. apply fallback_length. Qed.

(** Every suggestion starts with a letter of its template. *)
Lemma generateSuggestions_heads (data : UploadResponse) :
  Forall (fun s => exists c r, s = c :: r /\ isWhiteSpace c = false)
         (generateSuggestions data).
Proof.
  unfold generateSuggestions. cbv zeta.
  match goal with
  | |- Forall _ (firstn 5 (if _ then ?found ++ _ else _)) =>
      assert (Hfound : Forall (fun s => exists c r,
                                   s = c :: r /\ isWhiteSpace c = false)
                              found)
  end.
  { repeat match goal with
           | |- Forall _ (_ ++ _) => apply Forall_app; split
           | |- Forall _ [] => constructor
           | |- Forall _ (_ :: _) =>
               constructor; [eexists _, _; split; reflexivity|]
           | |- Forall _ (match ?x with _ => _ end) => destruct x
           end. }
  apply Forall_forall. intros s Hs. apply firstn_subset in Hs.
  rewrite Forall_forall in Hfound.
  match type of Hs with
  | In _ (if ?b then _ else _) => destruct b
  end; [apply in_app_or in Hs as [Hs | Hs]|]; auto.
  cbn in Hs.
  destruct Hs as [<- | [<- | [<- | []]]]; eexists _, _; split; reflexivity.
Qed.

(** The generator reads the data types and the preview of its argument,
    and nothing else. *)
Lemma categorize_reads (a b : UploadResponse) (cols : Columns)
      (entry : jsstring * jsstring) :
  data_preview a = data_preview b ->
  categorize a cols entry = categorize b cols entry.
Proof.
  intros Hpreview. unfold categorize, containsNumericData.
  rewrite Hpreview. reflexivity.
Qed.

Lemma categorized_reads (a b : UploadResponse) :
  data_types (summary a) = data_types (summary b) ->
  data_preview a = data_preview b ->
  categorized a = categorized b.
Proof.
  intros Htypes Hpreview. unfold categorized. rewrite Htypes.
  clear Htypes. generalize {| numericColumns := []; dateColumns := [];
                textColumns := []; locationColumns := [] |}.
  induction (data_types (summary b)) as [|entry entries IH]; intros cols.
  - reflexivity.
  - cbn [fold_left]. rewrite (categorize_reads a b cols entry Hpreview).
    apply IH.
Qed.

Lemma generateSuggestions_reads (a b : UploadResponse) :
  data_types (summary a) = data_types (summary b) ->
  data_preview a = data_preview b ->
  generateSuggestions a = generateSuggestions b.
Proof.
  intros Htypes Hpreview. unfold generateSuggestions.
  rewrite (categorized_reads a b Htypes Hpreview). reflexivity.
Qed.

(** On a dataset that has every field the effect stores the suggestions
    generated from it. *)
Lemma suggestedInsights_document (s : State) (data : UploadResponse) :
  fileData s = Some (document data) ->
  suggestedInsights s = Some (generateSuggestions data).
Proof.
  intros Hdata. unfold suggestedInsights. rewrite Hdata.
  cbn [suggestionData document summary_of data_types_of data_preview_of
       option_map].
  f_equal.
Qed.

(** X2. Every suggested insight, initial or generated from the object in
    [fileData], is a text that is not blank: none is stopped by the guard
    of [sendMessage]. *)
Theorem suggested_insights_are_not_blank
        (s : State) (insights : list jsstring) :
  suggestedInsights s = Some insights ->
  Forall (fun insight => trim insight <> []) insights.
Proof.
  intros Hcell.
  assert (Hheads : Forall (fun s => exists c r,
                               s = c :: r /\ isWhiteSpace c = false)
                          insights).
  { unfold suggestedInsights in Hcell.
    destruct (fileData s) as [doc|].
    - destruct (suggestionData doc) as [data|]; [|discriminate].
      cbn in Hcell. injection Hcell as <-.
      apply generateSuggestions_heads.
    - injection Hcell as <-.
      repeat constructor; eexists _, _; split; reflexivity. }
  apply (Forall_impl _ (P := fun s => exists c r,
                                 s = c :: r /\ isWhiteSpace c = false));
    [|exact Hheads].
  intros insight (c & r & -> & Hc). apply trim_not_blank, Hc.
Qed.

(** X3. When some column is numeric, the first two suggestions are about
    the first numeric column; when none is, the three general suggestions
    are given, after at most two others. *)
Theorem numeric_column_leads_suggestions (data : UploadResponse) :
  match numericColumns (categorized data) with
  | n0 :: _ =>
      firstn 2 (generateSuggestions data)
      = [js "Show top 5 items by " ++ n0;
         js "Analyze distribution of " ++ n0]
  | [] =>
      exists others,
        generateSuggestions data = others ++ generalSuggestions
        /\ length others <= 2
  end.
Proof.
  unfold generateSuggestions. cbv zeta.
  destruct (numericColumns (categorized data)) as [|n0 ns].
  - match goal with
    | |- exists _, firstn 5 (if _ then ?found ++ _ else _) = _ /\ _ =>
        assert (Hshort : length found <= 2)
    end.
    { unfold findColumnByKeywords. cbn [find truthy andb app].
      destruct (dateColumns (categorized data)) as [|d0 ds];
        destruct (textColumns (categorized data)) as [|t0 ts];
        destruct (locationColumns (categorized data)) as [|l0 ls];
        repeat match goal with
               | |- context [truthy ?x] => destruct (truthy x)
               end;
        cbn [app length]; lia. }
    eexists. split; [apply fallback_short, Hshort | exact Hshort].
  - cbn [app].
    match goal with
    | |- firstn 2 (firstn 5 (if ?b then _ else _)) = _ => destruct b
    end; reflexivity.
Qed.

Lemma categorize_step (data : UploadResponse) (cols : Columns)
      (column type : jsstring) :
  let r := categorize data cols (column, type) in
  Permutation (dateColumns r ++ numericColumns r ++ textColumns r)
              (column :: dateColumns cols ++ numericColumns cols
                         ++ textColumns cols)
  /\ (forall c, In c (numericColumns r ++ textColumns r) ->
                In c (numericColumns cols ++ textColumns cols)
                \/ (includes (toLowerCase c) (js "date") = false
                    /\ includes (toLowerCase c) (js "time") = false))
  /\ (forall c, In c (locationColumns r) ->
                In c (locationColumns cols) \/ c = column).
Proof.
  unfold categorize.
  destruct (includes type (js "date") || includes type (js "time")
            || includes (toLowerCase column) (js "date")
            || includes (toLowerCase column) (js "time")) eqn:Hdate;
    repeat match goal with
           | |- context [if ?b then _ else _] => destruct b
           end;
    cbn [numericColumns dateColumns textColumns locationColumns];
    (split; [|split]);
    try apply pushed_first; try apply pushed_second;
    try apply pushed_third;
    intros c Hc; rewrite ?in_app_iff in *; cbn [In] in Hc;
    try (apply orb_false_iff in Hdate as [Hdate Htime];
         apply orb_false_iff in Hdate as [_ Hdate]);
    intuition (subst; auto).
Qed.

Lemma categorize_fold (data : UploadResponse)
      (entries : list (jsstring * jsstring)) :
  forall cols : Columns,
    let r := fold_left (categorize data) entries cols in
    Permutation (dateColumns r ++ numericColumns r ++ textColumns r)
                (dateColumns cols ++ numericColumns cols ++ textColumns cols
                 ++ map fst entries)
    /\ (forall c, In c (numericColumns r ++ textColumns r) ->
                  In c (numericColumns cols ++ textColumns cols)
                  \/ (includes (toLowerCase c) (js "date") = false
                      /\ includes (toLowerCase c) (js "time") = false))
    /\ (forall c, In c (locationColumns r) ->
                  In c (locationColumns cols) \/ In c (map fst entries)).
Proof.
  induction entries as [|[column type] entries IH]; intros cols.
  - cbn. rewrite !app_nil_r. split; [apply Permutation_refl|]. auto.
  - cbn [fold_left map fst].
    destruct (IH (categorize data cols (column, type)))
      as (Hperm & Hnames & Hloc).
    destruct (categorize_step data cols column type)
      as (Hperm1 & Hnames1 & Hloc1).
    cbv zeta in *. split; [|split].
    + etransitivity; [exact Hperm|].
      rewrite !app_assoc. etransitivity;
        [apply Permutation_app_tail; rewrite <- !app_assoc; exact Hperm1|].
      rewrite <- !app_assoc. cbn.
      rewrite !app_assoc. apply Permutation_middle.
    + intros c Hc. destruct (Hnames c Hc) as [Hin | Hok];
        [apply Hnames1, Hin | right; exact Hok].
    + intros c Hc. destruct (Hloc c Hc) as [Hin | Hin];
        [|right; right; exact Hin].
      destruct (Hloc1 c Hin) as [Hin1 | ->]; [left; exact Hin1|].
      right. left. reflexivity.
Qed.

(** X4. The first pass of the generator puts every column of the dataset
    on exactly one of the date, numeric and text lists: the three lists
    together are the columns, none lost and none twice.  The name of a
    numeric or text column, lower-cased, mentions neither date nor time,
    whatever its type; the location columns are columns of the
    dataset. *)
Theorem columns_are_partitioned (data : UploadResponse) :
  let cols := categorized data in
  Permutation (dateColumns cols ++ numericColumns cols ++ textColumns cols)
              (map fst (data_types (summary data)))
  /\ Forall (fun c => includes (toLowerCase c) (js "date") = false
                      /\ includes (toLowerCase c) (js "time") = false)
            (numericColumns cols ++ textColumns cols)
  /\ incl (locationColumns cols) (map fst (data_types (summary data))).
Proof.
  destruct (categorize_fold data (data_types (summary data))
              {| numericColumns := []; dateColumns := [];
                 textColumns := []; locationColumns := [] |})
    as (Hperm & Hnames & Hloc).
  cbv zeta. split; [exact Hperm|]. split.
  - apply Forall_forall. intros c Hc.
    destruct (Hnames c Hc) as [[] | Hok]. exact Hok.
  - intros c Hc. destruct (Hloc c Hc) as [[] | Hin]. exact Hin.
Qed.

End SuggestionProofs.

(** The witness of [suggested_insights_are_not_blank]: the suggestions
    for sales.csv.  Its preview is empty, so that none of the number
    functions is called; constants stand for them. *)
Lemma suggested_insights_are_not_blank_witness :
  Forall (fun insight => trim insight <> [])
         [js "Show top 5 items by revenue";
          js "Analyze distribution of revenue";
          js "Compare revenue by region";
          js "View revenue by region";
          js "Show top performers by revenue"].
Proof.
  apply (suggested_insights_are_not_blank
           ascii_toLowerCase unit (fun _ => tt) (fun _ => tt)
           (fun _ => true) (fun _ => false) (state Scenario.uploaded)).
  reflexivity.
Defined.

(* ================================================================== *)
(** ** Sending a message *)
(* ================================================================== *)

Lemma sendMessage_in_sends
      (closure : State) (messageText : option jsstring) (now : jsstring)
      (w : World) (id : jsstring) :
  activeFileId closure = Some id ->
  id <> [] ->
  trim (messageContent messageText (newMessage closure)) <> [] ->
  let content := messageContent messageText (newMessage closure) in
  let w' := sendMessage_in closure messageText now w in
  requests w' = requests w ++ [POST_chat id content]
  /\ messages (state w')
     = messages (state w)
         ++ [{| Message.role := Message.user;
                Message.content := content;
                Message.formattedContent := None;
                Message.timestamp := now;
                Message.charts := None;
                Message.isTyping := None |}]
  /\ newMessage (state w') = []
  /\ isSending (state w') = true
  /\ chatsPending w' = S (chatsPending w)
  /\ toasts w' = toasts w.
Proof.
  intros Hid Hne Htrim. cbv zeta. unfold sendMessage_in.
  destruct (trim (messageContent messageText (newMessage closure)));
    [contradiction|].
  rewrite Hid. destruct id as [|i d]; [contradiction|].
  cbn. repeat split; reflexivity.
Qed.

(** X5. A message that is not blank is sent as it was typed, white space
    around it included: with a file active, [sendMessage] issues one chat
    request for that file with the text of the text area, appends the
    text as a user message, empties the text area and sets [isSending];
    it shows no notification. *)
Theorem message_is_sent_as_typed (w : World) (now id : jsstring) :
  activeFileId (state w) = Some id ->
  id <> [] ->
  trim (newMessage (state w)) <> [] ->
  let w' := sendMessage None now w in
  requests w' = requests w ++ [POST_chat id (newMessage (state w))]
  /\ messages (state w')
     = messages (state w)
         ++ [{| Message.role := Message.user;
                Message.content := newMessage (state w);
                Message.formattedContent := None;
                Message.timestamp := now;
                Message.charts := None;
                Message.isTyping := None |}]
  /\ newMessage (state w') = []
  /\ isSending (state w') = true
  /\ chatsPending w' = S (chatsPending w)
  /\ toasts w' = toasts w.
Proof.
  intros Hid Hne Htrim.
  exact (sendMessage_in_sends (state w) None now w id Hid Hne Htrim).
Qed.

(** X6. A click on an insight that is not blank sends the insight,
    whatever the text area holds and whether or not a reply is awaited:
    one chat request for the active file with the insight as message, the
    insight appended as a user message, and the text area emptied, so
    that a draft is lost. *)
Theorem insight_click_sends_the_insight
        (w : World) (insight now id : jsstring) :
  activeFileId (state w) = Some id ->
  id <> [] ->
  trim insight <> [] ->
  let w' := handleInsightClick insight now w in
  requests w' = requests w ++ [POST_chat id insight]
  /\ messages (state w')
     = messages (state w)
         ++ [{| Message.role := Message.user;
                Message.content := insight;
                Message.formattedContent := None;
                Message.timestamp := now;
                Message.charts := None;
                Message.isTyping := None |}]
  /\ newMessage (state w') = []
  /\ isSending (state w') = true
  /\ chatsPending w' = S (chatsPending w)
  /\ toasts w' = toasts w.
Proof.
  intros Hid Hne Htrim. unfold handleInsightClick.
  assert (Hcontent : messageContent (Some insight) (newMessage (state w))
                     = insight).
  { destruct insight; [contradiction Htrim; reflexivity | reflexivity]. }
  pose proof (sendMessage_in_sends (state w) (Some insight) now
                (onState (setNewMessage insight) w) id Hid Hne) as H.
  rewrite Hcontent in H. exact (H Htrim).
Qed.

Section ReplyProofs.

Variable JSON_parse : jsstring -> option json.

Local Abbreviation sendMessage_settled := (sendMessage_settled JSON_parse).

(** X7. When the chat request fails, by a transport error, by a response
    outside the 2xx range or by a body that is not the expected
    document, the apology is appended to the conversation as an assistant
    message and shown as it is, an error notification is shown and the
    error logged; [isSending] is cleared, no reveal is started and the
    charts on display stay. *)
Theorem chat_failure_appends_apology
        (outcome : FetchOutcome ChatResponse) (now : jsstring) (w : World) :
  outcome = NetworkError
  \/ (exists status body,
         outcome = HttpResponse status body
         /\ (response_ok status = false \/ body = None)) ->
  let w' := sendMessage_settled (sendChatMessage outcome) now w in
  let apology :=
    {| Message.role := Message.assistant;
       Message.content :=
         js "**Sorry!** I encountered an error. Please try again.";
       Message.formattedContent :=
         Some (js "**Sorry!** I encountered an error. Please try again.");
       Message.timestamp := now;
       Message.charts := None;
       Message.isTyping := None |} in
  messages (state w') = messages (state w) ++ [apology]
  /\ (forall typingText,
         messageBody typingText apology
         = js "**Sorry!** I encountered an error. Please try again.")
  /\ toasts w'
     = toasts w ++ [toast_error "Failed to get a response. Please try again."]
  /\ console w' = console w ++ ["Error sending message:"%string]
  /\ isSending (state w') = false
  /\ typing w' = typing w
  /\ visualizationCharts (state w') = visualizationCharts (state w)
  /\ chatsPending w' = pred (chatsPending w).
Proof.
  intros Hfail.
  assert (Hrej : sendChatMessage outcome = Rejected).
  { unfold sendChatMessage.
    destruct Hfail as [-> | (status & body & -> & [Hok | ->])]; simpl;
      [reflexivity | rewrite Hok; reflexivity|].
    destruct (response_ok status); reflexivity. }
  rewrite Hrej. cbn. repeat split; reflexivity.
Qed.

(** X8. A reply with at least one chart that parses puts its charts on
    display in place of the former ones; a reply without such a chart
    leaves the charts on display as they are, and its message carries no
    chart.  In both cases [isSending] is cleared. *)
Theorem reply_charts_replace_or_keep
        (data : ChatResponse) (now : jsstring) (w : World) :
  let w' := sendMessage_settled (Resolved data) now w in
  let charts := charts_of JSON_parse (analysis data) in
  visualizationCharts (state w')
  = match charts with
    | _ :: _ => charts
    | [] => visualizationCharts (state w)
    end
  /\ nth_error (messages (state w')) (length (messages (state w)))
     = Some {| Message.role := Message.assistant;
               Message.content := [];
               Message.formattedContent := Some [];
               Message.timestamp := now;
               Message.charts :=
                 match charts with _ :: _ => Some charts | [] => None end;
               Message.isTyping := Some true |}
  /\ isSending (state w') = false.
Proof.
  unfold sendMessage_settled.
  rewrite parseChartDataFromResponse_run.
  destruct (charts_of JSON_parse (analysis data)); cbn;
    rewrite nth_error_app2, Nat.sub_diag by lia; repeat split; reflexivity.
Qed.

(** The store once the reveal of a reply is over: the messages that carry
    the timestamp of the reply updated, then the message of the reply. *)
Lemma reveal_store (data : ChatResponse) (now : jsstring) (w : World) :
  let shown := formatAIResponse (analysis data) in
  let w2 := run_ticks (length (typing w)) (S (chunks shown))
                      (sendMessage_settled (Resolved data) now w) in
  messages (state w2)
  = updateByTimestamp now (analysis data) shown (messages (state w))
    ++ [{| Message.role := Message.assistant;
           Message.content := analysis data;
           Message.formattedContent := Some shown;
           Message.timestamp := now;
           Message.charts :=
             Message.charts
               (placeholder_for (charts_of JSON_parse (analysis data)) now);
           Message.isTyping := Some false |}].
Proof.
  intros shown w2.
  destruct (sendMessage_settled_resolved JSON_parse data now w)
    as (Hmsgs & Htyping & _).
  fold shown in Hmsgs, Htyping.
  set (w1 := sendMessage_settled (Resolved data) now w) in *.
  set (task := {| text := shown; index := 0; timer := typingInterval shown;
                  callback := Some (onTypingDone now (analysis data) shown);
                  live := true |}) in *.
  assert (Hi : nth_error (typing w1) (length (typing w)) = Some task).
  { rewrite Htyping, nth_error_app2, Nat.sub_diag by lia. reflexivity. }
  destruct (fresh_task_terminates _ _ task Hi eq_refl eq_refl)
    as (_ & _ & _ & _ & _ & Hstore).
  change (run_ticks (length (typing w)) (S (chunks (text task))) w1)
    with w2 in Hstore.
  rewrite Hstore.
  change (messages (run_callback (callback task) (state w1)))
    with (updateByTimestamp now (analysis data) shown (messages (state w1))).
  rewrite Hmsgs, updateByTimestamp_app. f_equal.
  cbn. rewrite strict_eq_refl. reflexivity.
Qed.

(** X9. Once its reveal is over, the message of a reply shows the
    formatted text of the reply, unless that text is empty: it then shows
    the raw reply.  The formatted text of a reply that is one chart block
    and nothing else is empty, so that such a reply is shown with its
    chart block. *)
Theorem revealed_message_body
        (data : ChatResponse) (now : jsstring) (w : World) :
  let shown := formatAIResponse (analysis data) in
  let w2 := run_ticks (length (typing w)) (S (chunks shown))
                      (sendMessage_settled (Resolved data) now w) in
  (exists m,
      nth_error (messages (state w2)) (length (messages (state w))) = Some m
      /\ forall typingText,
           messageBody typingText m
           = match shown with
             | _ :: _ => shown
             | [] => analysis data
             end)
  /\ (forall body,
         analysis data = chartBlock body ->
         includes body chartClose = false ->
         shown = []).
Proof.
  intros shown w2. split.
  - eexists. split.
    + unfold w2, shown. rewrite reveal_store.
      rewrite nth_error_app2; rewrite updateByTimestamp_length; [|lia].
      rewrite Nat.sub_diag. reflexivity.
    + intros typingText. unfold messageBody. cbn.
      destruct (formatAIResponse (analysis data)); reflexivity.
  - intros body Hbody Hclose. unfold shown. rewrite Hbody.
    replace (chartBlock body) with (render [] [(body, [])])
      by (cbn [render app]; apply app_nil_r).
    rewrite formatAIResponse_render; [reflexivity|].
    cbn. rewrite Hclose. reflexivity.
Qed.

End ReplyProofs.

(** The witness of [message_is_sent_as_typed]: a question typed with
    spaces around it. *)
Lemma message_is_sent_as_typed_witness :
  let w := onState (setNewMessage (js "  total?  ")) Scenario.uploaded in
  let w' := sendMessage None (js "t1") w in
  requests w'
  = requests w ++ [POST_chat (js "f-1") (js "  total?  ")]
  /\ messages (state w')
     = messages (state w)
         ++ [{| Message.role := Message.user;
                Message.content := js "  total?  ";
                Message.formattedContent := None;
                Message.timestamp := js "t1";
                Message.charts := None;
                Message.isTyping := None |}]
  /\ newMessage (state w') = []
  /\ isSending (state w') = true
  /\ chatsPending w' = 1
  /\ toasts w' = toasts w.
Proof.
  apply (message_is_sent_as_typed
           (onState (setNewMessage (js "  total?  ")) Scenario.uploaded)
           (js "t1") (js "f-1")).
  - reflexivity.
  - discriminate.
  - vm_compute. discriminate.
Defined.

(** The witness of [insight_click_sends_the_insight]: an insight is
    clicked while a draft is in the text area. *)
Lemma insight_click_sends_the_insight_witness :
  let w := onState (setNewMessage (js "draft")) Scenario.uploaded in
  let w' := handleInsightClick (js "Show summary statistics") (js "t1") w in
  requests w'
  = requests w ++ [POST_chat (js "f-1") (js "Show summary statistics")]
  /\ messages (state w')
     = messages (state w)
         ++ [{| Message.role := Message.user;
                Message.content := js "Show summary statistics";
                Message.formattedContent := None;
                Message.timestamp := js "t1";
                Message.charts := None;
                Message.isTyping := None |}]
  /\ newMessage (state w') = []
  /\ isSending (state w') = true
  /\ chatsPending w' = 1
  /\ toasts w' = toasts w.
Proof.
  apply (insight_click_sends_the_insight
           (onState (setNewMessage (js "draft")) Scenario.uploaded)
           (js "Show summary statistics") (js "t1") (js "f-1")).
  - reflexivity.
  - discriminate.
  - vm_compute. discriminate.
Defined.

(** The witness of [chat_failure_appends_apology]: a 500 response to a
    question. *)
Lemma chat_failure_appends_apology_witness :
  let w := sendMessage (Some (js "total?")) (js "t1") Scenario.uploaded in
  let w' := sendMessage_settled JSON.parse
              (sendChatMessage (HttpResponse 500 None)) (js "t2") w in
  length (messages (state w')) = 3
  /\ toasts w'
     = toasts w ++ [toast_error "Failed to get a response. Please try again."]
  /\ isSending (state w') = false
  /\ typing w' = []
  /\ chatsPending w' = 0.
Proof.
  destruct (chat_failure_appends_apology JSON.parse
              (HttpResponse 500 None) (js "t2")
              (sendMessage (Some (js "total?")) (js "t1") Scenario.uploaded))
    as (Hmsgs & _ & Htoasts & _ & Hsending & Htyping & _ & Hpending).
  - right. exists 500%N, None. split; [reflexivity | left; reflexivity].
  - cbv zeta in *. rewrite Hmsgs, Htoasts, Hsending, Htyping, Hpending.
    repeat split; reflexivity.
Defined.

(** The witness of [revealed_message_body]: a reply that is one bar chart
    and nothing else. *)
Lemma revealed_message_body_witness :
  let data := {| chat_file_id := js "f-1"; chat_filename := js "sales.csv";
                 analysis := chartBlock Scenario.bar_chart;
                 conversation_length := None |} in
  let w := sendMessage (Some (js "total?")) (js "t1") Scenario.uploaded in
  let w2 := run_ticks 0 1
              (sendMessage_settled JSON.parse (Resolved data) (js "t2") w) in
  formatAIResponse (analysis data) = []
  /\ exists m,
      nth_error (messages (state w2)) 2 = Some m
      /\ messageBody (typingText (state w2)) m
         = chartBlock Scenario.bar_chart.
Proof.
  destruct (revealed_message_body JSON.parse
              {| chat_file_id := js "f-1"; chat_filename := js "sales.csv";
                 analysis := chartBlock Scenario.bar_chart;
                 conversation_length := None |}
              (js "t2")
              (sendMessage (Some (js "total?")) (js "t1") Scenario.uploaded))
    as ((m & Hm & Hbody) & Hempty).
  cbv zeta in *.
  assert (Hshown : formatAIResponse (chartBlock Scenario.bar_chart) = [])
    by (apply (Hempty Scenario.bar_chart); reflexivity).
  split; [exact Hshown|].
  exists m. cbn [analysis] in *. rewrite Hshown in Hm, Hbody.
  split; [exact Hm | apply Hbody].
Defined.

(* ================================================================== *)
(** ** An upload answered without a file identifier *)
(* ================================================================== *)

Section EmptyIdProofs.

Variable JSON_parse : jsstring -> option json.
Variable toLowerCase : jsstring -> jsstring.

Local Abbreviation step := (step JSON_parse toLowerCase).

(** X10. When the server answers an upload with an empty file
    identifier, the upload is reported as a success and the dataset is
    stored, yet the component keeps rendering the upload card: the text
    area, the submit and the insights are not there, and [sendMessage]
    does nothing. *)
Theorem empty_file_id_keeps_upload_card
        (w : World) (status : N) (data : UploadResponse) (now : jsstring) :
  response_ok status = true ->
  file_id data = [] ->
  let w' :=
    step w (UploadSettled (HttpResponse status (Some (document data))) now) in
  toasts w' = toasts w ++ [toast_success "File uploaded successfully!"]
  /\ fileData (state w') = Some (document data)
  /\ card (state w') = UploadCard
  /\ (forall value, enabled w' (TextareaChange value) = false)
  /\ (forall now', enabled w' (SubmitMessage now') = false)
  /\ (forall insight now', enabled w' (InsightClick insight now') = false)
  /\ (forall messageText now', sendMessage messageText now' w' = w').
Proof.
  intros Hok Hid. simpl. rewrite Hok. unfold card, sendMessage, sendMessage_in.
  cbn. rewrite Hid. cbn. repeat split; try reflexivity.
  intros messageText now'.
  destruct (trim (messageContent messageText (newMessage (state w))));
    reflexivity.
Qed.

End EmptyIdProofs.

(** The witness of [empty_file_id_keeps_upload_card]. *)
Lemma empty_file_id_keeps_upload_card_witness :
  let data := {| file_id := []; filename := js "sales.csv";
                 summary := summary Scenario.sales; data_preview := [] |} in
  let w := step JSON.parse ascii_toLowerCase initial
                (FileInputChange (Some Scenario.sales_file)) in
  let w' := step JSON.parse ascii_toLowerCase w
                 (UploadSettled (HttpResponse 200 (Some (document data)))
                                (js "t0")) in
  toasts w' = [toast_success "File uploaded successfully!"]
  /\ fileData (state w') = Some (document data)
  /\ card (state w') = UploadCard
  /\ enabled w' (SubmitMessage (js "t1")) = false
  /\ sendMessage (Some (js "total?")) (js "t1") w' = w'.
Proof.
  destruct (empty_file_id_keeps_upload_card JSON.parse ascii_toLowerCase
              (step JSON.parse ascii_toLowerCase initial
                    (FileInputChange (Some Scenario.sales_file)))
              200%N
              {| file_id := []; filename := js "sales.csv";
                 summary := summary Scenario.sales; data_preview := [] |}
              (js "t0") eq_refl eq_refl)
    as (Htoasts & Hdata & Hcard & _ & Hsubmit & _ & Hsend).
  cbv zeta. rewrite Htoasts. repeat split; auto.
Defined.

(* ================================================================== *)
(** ** The typing text *)
(* ================================================================== *)

Lemma firstn_substring (text : jsstring) :
  forall i j : nat,
    i <= j -> firstn i text ++ substring text i j = firstn j text.
Proof.
  unfold substring.
  induction text as [|c r IH]; intros i j Hij.
  - rewrite skipn_nil, !firstn_nil. reflexivity.
  - destruct i as [|i].
    + rewrite Nat.sub_0_r. reflexivity.
    + destruct j as [|j]; [lia|]. cbn. f_equal. apply IH. lia.
Qed.

Lemma firstn_min_length {A} (n : nat) (l : list A) :
  firstn (Nat.min n (length l)) l = firstn n l.
Proof.
  destruct (le_lt_dec n (length l)) as [H | H].
  - rewrite Nat.min_l by exact H. reflexivity.
  - rewrite Nat.min_r by lia. rewrite firstn_all, firstn_all2 by lia.
    reflexivity.
Qed.

(** The task that [simulateTyping] starts, after [k] firings of its
    timer with no other task running in between. *)
Lemma typing_task_progress
      (content : jsstring) (cb : option Callback) (w0 : World) (k : nat) :
  let w := run_ticks (length (typing w0)) k (simulateTyping content cb w0) in
  exists task,
    nth_error (typing w) (length (typing w0)) = Some task
    /\ text task = content
    /\ index task <= length content
    /\ typingText (state w) = firstn (index task) content
    /\ fullResponse (state w) = content
    /\ (live task = true ->
        index task = Nat.min (k * chunkSize content) (length content)
        /\ isTyping (state w) = true)
    /\ (live task = false ->
        index task = length content
        /\ length content <= k * chunkSize content).
Proof.
  induction k as [|k IH].
  - cbn. rewrite nth_error_app2, Nat.sub_diag by lia. cbn.
    eexists. split; [reflexivity|]. cbn.
    repeat split; auto; try lia; discriminate.
  - destruct IH as (task & Hi & Htext & Hle & Htyped & Hfull & Hlive & Hdone).
    rewrite run_ticks_S. cbv zeta.
    set (w := run_ticks (length (typing w0)) k
                        (simulateTyping content cb w0)) in *.
    unfold typeNextCharacter. rewrite Hi.
    destruct (live task) eqn:El; cbn [negb].
    + destruct (Hlive eq_refl) as [Hidx Hflag]. rewrite Htext.
      destruct (Nat.ltb (index task) (length content)) eqn:Elt.
      * apply Nat.ltb_lt in Elt. cbn.
        rewrite nth_error_update_nth_eq, Hi. cbn.
        eexists. split; [reflexivity|]. cbn.
        split; [reflexivity|]. split; [lia|].
        split; [rewrite Htyped; apply firstn_substring; lia|].
        split; [exact Hfull|]. split; [|discriminate].
        intros _. split; [lia | exact Hflag].
      * apply Nat.ltb_ge in Elt. cbn.
        rewrite nth_error_update_nth_eq, Hi. cbn.
        eexists. split; [reflexivity|]. cbn.
        split; [reflexivity|]. split; [exact Hle|].
        destruct (callback task) as [[ts analysis formatted]|]; cbn;
          (split; [exact Htyped|]); (split; [exact Hfull|]);
          (split; [discriminate|]); intros _; split; lia.
    + destruct (Hdone eq_refl) as [Hidx Hlen].
      exists task. rewrite El. repeat split; auto; try discriminate. lia.
Qed.

(** X11. While a reveal runs alone, the typing text is always a prefix of
    the text being revealed: after [k] firings of the timer it is the
    first [k] chunks of the text, and the whole text from the last chunk
    on, however often the timer fires; [fullResponse] holds the text
    throughout. *)
Theorem typing_text_is_a_prefix
        (content : jsstring) (cb : option Callback) (w0 : World) (k : nat) :
  let w := run_ticks (length (typing w0)) k (simulateTyping content cb w0) in
  typingText (state w) = firstn (k * chunkSize content) content
  /\ fullResponse (state w) = content.
Proof.
  destruct (typing_task_progress content cb w0 k)
    as (task & _ & _ & _ & Htyped & Hfull & Hlive & Hdone).
  cbv zeta. split; [|exact Hfull]. rewrite Htyped.
  destruct (live task).
  - destruct (Hlive eq_refl) as [-> _]. apply firstn_min_length.
  - destruct (Hdone eq_refl) as [-> Hlen].
    rewrite firstn_all, firstn_all2 by lia. reflexivity.
Qed.

(* ================================================================== *)
(** ** The display text of every reply *)
(* ================================================================== *)

Lemma unmatched_breaks_no_run (t : jsstring) :
  unmatched lineBreaksRegex t -> includes t [nl; nl; nl] = false.
Proof.
  intros H. apply includes_false_intro. intros k.
  specialize (H k). apply lineBreaksRegex_none in H.
  destruct (startsWith (skipn k t) [nl; nl; nl]) eqn:E; [|reflexivity].
  apply startsWith_true in E. rewrite E in H. cbn in H. lia.
Qed.

(** X12. The display text of every reply, with or without chart blocks,
    is tidy: it has no run of three line breaks, no three dashes followed
    by white space with two line breaks in it, and no white space at
    either end. *)
Theorem display_text_is_tidy (s : jsstring) :
  let t := formatAIResponse s in
  includes t [nl; nl; nl] = false
  /\ (forall k, startsWith (skipn k t) (js "---")
                && Nat.leb 2 (breaks (skipn 3 (skipn k t))) = false)
  /\ trim t = t.
Proof.
  change (formatAIResponse s) with (tidy (replace chartDataRegex [] s)).
  destruct (tidy_normal (replace chartDataRegex [] s)) as (Hb & Hr & Ht).
  cbv zeta. split; [apply unmatched_breaks_no_run, Hb|]. split; [|exact Ht].
  intros k. apply ruleRegex_none, Hr.
Qed.

Lemma subsequence_refl (s : jsstring) : subsequence s s.
Proof. induction s; constructor; assumption. Qed.

Lemma subsequence_empty (s : jsstring) : subsequence [] s.
Proof. induction s; constructor; assumption. Qed.

Lemma subsequence_nil_inv (s : jsstring) : subsequence s [] -> s = [].
Proof. inversion 1; reflexivity. Qed.

Lemma subsequence_app (a a' b b' : jsstring) :
  subsequence a a' -> subsequence b b' -> subsequence (a ++ b) (a' ++ b').
Proof.
  intros Ha Hb. induction Ha; simpl; try constructor; assumption.
Qed.

Lemma subsequence_trans (a b c : jsstring) :
  subsequence a b -> subsequence b c -> subsequence a c.
Proof.
  intros Hab Hbc. revert a Hab.
  induction Hbc as [|x b c Hbc IH|x b c Hbc IH]; intros a Hab.
  - exact Hab.
  - inversion Hab; subst; constructor; apply IH; assumption.
  - constructor. apply IH. exact Hab.
Qed.

Lemma subsequence_length (a b : jsstring) :
  subsequence a b -> length a <= length b.
Proof. induction 1; simpl; lia. Qed.

Lemma subsequence_skipn (k : nat) (s : jsstring) : subsequence (skipn k s) s.
Proof.
  revert k; induction s as [|c r IH]; intros [|k]; simpl;
    try apply subsequence_refl.
  constructor. apply IH.
Qed.

Lemma subsequence_prefix (a w : jsstring) : subsequence a (a ++ w).
Proof.
  rewrite <- (app_nil_r a) at 1.
  apply subsequence_app; [apply subsequence_refl | apply subsequence_empty].
Qed.

Lemma subsequence_trim (s : jsstring) : subsequence (trim s) s.
Proof.
  unfold trim. destruct (trimStart_skipn s) as [k Hk].
  destruct (trimEnd_prefix (trimStart s)) as [w Hw].
  apply (subsequence_trans _ (trimStart s)).
  - rewrite Hw at 2. apply subsequence_prefix.
  - rewrite Hk. apply subsequence_skipn.
Qed.

(** A replacement that puts, for every match, a subsequence of the match
    in its place gives a subsequence of the text. *)
Lemma subsequence_replace_from (re : regex) (repl : jsstring) :
  (forall s n, match_here re s = Some n -> subsequence repl (firstn n s)) ->
  forall (s : jsstring) (skip : nat),
    subsequence (replace_from re repl skip s) (skipn skip s).
Proof.
  intros Hsub. induction s as [|c r IH]; intros skip.
  - rewrite skipn_nil. cbn.
    destruct skip; [|constructor].
    destruct (match_here re []) as [n|] eqn:E; [|constructor].
    apply Hsub in E. rewrite firstn_nil in E. exact E.
  - destruct skip as [|k]; [|apply IH]. cbn [replace_from skipn].
    destruct (match_here re (c :: r)) as [[|k]|] eqn:E.
    + apply Hsub in E. cbn in E. apply subsequence_nil_inv in E.
      pose proof (IH 0) as H0. rewrite E in H0 |- *.
      cbn. constructor. exact H0.
    + rewrite <- (firstn_skipn (S k) (c :: r)).
      apply subsequence_app; [apply Hsub, E | apply IH].
    + constructor. apply (IH 0).
Qed.

Lemma subsequence_replace (re : regex) (repl s : jsstring) :
  (forall s n, match_here re s = Some n -> subsequence repl (firstn n s)) ->
  subsequence (replace re repl s) s.
Proof. intros H. apply (subsequence_replace_from re repl H s 0). Qed.

Lemma lead_firstn (d : N) (s : jsstring) :
  firstn (lead (only d) s) s = repeat d (lead (only d) s).
Proof.
  induction s as [|c r IH]; [reflexivity|]. cbn [lead].
  destruct (only d c) eqn:E; [|reflexivity].
  apply N.eqb_eq in E. subst c. cbn. f_equal. exact IH.
Qed.

Lemma last_break_is_a_break (y : jsstring) :
  forall e, last_break y = Some e -> exists a, firstn e y = a ++ [nl].
Proof.
  induction y as [|c r IH]; intros e; cbn [last_break]; [discriminate|].
  destruct (isWhiteSpace c); [|discriminate].
  destruct (last_break r) as [n|].
  - intros [= <-]. destruct (IH n eq_refl) as [a Ha].
    exists (c :: a). cbn. rewrite Ha. reflexivity.
  - destruct (N.eqb c nl) eqn:E; [|discriminate].
    intros [= <-]. apply N.eqb_eq in E. subst c. exists []. reflexivity.
Qed.

(** X13. Formatting only leaves text out: the display text of a reply is
    the reply with some of its units removed, in the same order, and so
    it is never longer than the reply. *)
Theorem display_text_is_a_subsequence (s : jsstring) :
  subsequence (formatAIResponse s) s
  /\ length (formatAIResponse s) <= length s.
Proof.
  assert (H : subsequence (formatAIResponse s) s).
  { unfold formatAIResponse.
    eapply subsequence_trans; [apply subsequence_trim|].
    eapply subsequence_trans; [apply subsequence_replace|].
    { intros x n Hn. apply ruleRegex_some in Hn as (y & e & -> & _ & He & ->).
      destruct (last_break_is_a_break y e He) as [a Ha].
      cbn [firstn Nat.add]. rewrite Ha.
      do 3 constructor. change [nl] with ([] ++ [nl]).
      apply subsequence_app;
        [apply subsequence_empty | apply subsequence_refl]. }
    eapply subsequence_trans; [apply subsequence_replace|].
    { intros x n Hn. rewrite lineBreaksRegex_match in Hn.
      destruct (Nat.leb 3 (lead (only nl) x)) eqn:E; [|discriminate].
      injection Hn as <-. apply Nat.leb_le in E. rewrite lead_firstn.
      destruct (lead (only nl) x) as [|[|n]]; try lia. cbn.
      do 2 constructor. apply subsequence_empty. }
    eapply subsequence_trans; [apply subsequence_replace|].
    { intros x n _. apply subsequence_empty. }
    apply subsequence_replace. intros x n _. apply subsequence_empty. }
  split; [exact H | apply subsequence_length, H].
Qed.

Lemma no_run_unmatched_breaks (s : jsstring) :
  includes s [nl; nl; nl] = false -> unmatched lineBreaksRegex s.
Proof.
  intros H k. apply lineBreaksRegex_none.
  pose proof (includes_false_skipn s [nl; nl; nl] k H) as Hk.
  destruct (le_lt_dec 3 (lead (only nl) (skipn k s))) as [Hle | Hlt];
    [|exact Hlt].
  rewrite <- (firstn_skipn (lead (only nl) (skipn k s)) (skipn k s)) in Hk.
  rewrite lead_firstn in Hk.
  destruct (lead (only nl) (skipn k s)) as [|[|[|n]]]; try lia.
  change (repeat nl (S (S (S n)))) with (nl :: nl :: nl :: repeat nl n) in Hk.
  cbn in Hk. rewrite startsWith_nil in Hk. discriminate Hk.
Qed.

(** X14. A reply without code fence (three backticks in a row), without
    three line breaks in a row and without three dashes in a row is
    displayed as it is, but for the white space at its ends. *)
Theorem plain_reply_is_only_trimmed (s : jsstring) :
  includes s fence = false ->
  includes s [nl; nl; nl] = false ->
  includes s (js "---") = false ->
  formatAIResponse s = trim s.
Proof.
  intros Hfence Hbreaks Hrule. unfold formatAIResponse.
  destruct (fence_free_unmatched s Hfence) as [Hc He].
  rewrite (replace_unmatched _ _ _ Hc), (replace_unmatched _ _ _ He).
  rewrite (replace_unmatched _ _ _ (no_run_unmatched_breaks s Hbreaks)).
  rewrite replace_unmatched; [reflexivity|].
  intros k. apply ruleRegex_none.
  rewrite (includes_false_skipn s (js "---") k Hrule). reflexivity.
Qed.

(** The witness of [plain_reply_is_only_trimmed]. *)
Lemma plain_reply_is_only_trimmed_witness :
  formatAIResponse (js "  Total: 42." ++ [nl; nl] ++ js "Done. ")
  = js "Total: 42." ++ [nl; nl] ++ js "Done.".
Proof.
  rewrite (plain_reply_is_only_trimmed
             (js "  Total: 42." ++ [nl; nl] ++ js "Done. "));
    reflexivity.
Defined.

(* ================================================================== *)
(** ** Updates of the store by timestamp *)
(* ================================================================== *)

Lemma updateByTimestamp_timestamps ts analysis formatted prev :
  map Message.timestamp (updateByTimestamp ts analysis formatted prev)
  = map Message.timestamp prev.
Proof.
  unfold updateByTimestamp. rewrite map_map. apply map_ext.
  intros m. destruct (strict_eq (Message.timestamp m) ts); reflexivity.
Qed.

(** X15. How the completions of reveals compose.  A second update at the
    same timestamp overrides the first, so that an update repeated is the
    update done once; updates at two different timestamps can be done in
    either order: the store does not depend on which of two reveals ends
    first. *)
Theorem updateByTimestamp_composes
        (ts1 ts2 a1 f1 a2 f2 : jsstring) (prev : list Message.t) :
  updateByTimestamp ts1 a2 f2 (updateByTimestamp ts1 a1 f1 prev)
  = updateByTimestamp ts1 a2 f2 prev
  /\ (ts1 <> ts2 ->
      updateByTimestamp ts1 a1 f1 (updateByTimestamp ts2 a2 f2 prev)
      = updateByTimestamp ts2 a2 f2 (updateByTimestamp ts1 a1 f1 prev)).
Proof.
  unfold updateByTimestamp. rewrite !map_map. split.
  - apply map_ext. intros m.
    destruct (strict_eq (Message.timestamp m) ts1) eqn:E; cbn; rewrite E;
      reflexivity.
  - intros Hne. apply map_ext. intros m.
    destruct (strict_eq (Message.timestamp m) ts1) eqn:E1;
      destruct (strict_eq (Message.timestamp m) ts2) eqn:E2;
      cbn; rewrite ?E1, ?E2; try reflexivity.
    apply strict_eq_true in E1, E2. congruence.
Qed.

(** The witness of [updateByTimestamp_composes]: the reveals of two
    replies end in either order. *)
Lemma updateByTimestamp_composes_witness :
  let second :=
    {| Message.role := Message.assistant; Message.content := [];
       Message.formattedContent := Some []; Message.timestamp := js "t4";
       Message.charts := None; Message.isTyping := Some true |} in
  let store := [Scenario.question; Scenario.placeholder; second] in
  updateByTimestamp (js "t2") (js "raw") (js "shown")
    (updateByTimestamp (js "t4") (js "raw'") (js "shown'") store)
  = updateByTimestamp (js "t4") (js "raw'") (js "shown'")
      (updateByTimestamp (js "t2") (js "raw") (js "shown") store).
Proof.
  apply (updateByTimestamp_composes (js "t2") (js "t4") (js "raw")
           (js "shown") (js "raw'") (js "shown'")).
  vm_compute. discriminate.
Defined.

(* ================================================================== *)
(** ** What every session keeps *)
(* ================================================================== *)

Lemma chatRequests_app (a b : list Request) :
  chatRequests (a ++ b) = chatRequests a ++ chatRequests b.
Proof. apply flat_map_app. Qed.

Lemma userMessages_app (a b : list Message.t) :
  userMessages (a ++ b) = userMessages a ++ userMessages b.
Proof. apply filter_app. Qed.

Lemma userMessages_update ts analysis formatted prev :
  length (userMessages (updateByTimestamp ts analysis formatted prev))
  = length (userMessages prev).
Proof.
  unfold userMessages, updateByTimestamp.
  induction prev as [|m prev IH]; [reflexivity|]. cbn.
  destruct (strict_eq (Message.timestamp m) ts); cbn;
    destruct (Message.role m); cbn; rewrite ?IH; reflexivity.
Qed.

Arguments chatRequests : simpl never.
Arguments userMessages : simpl never.

Lemma In_update_nth {A} (f : A -> A) (l : list A) (i : nat) (x : A) :
  In x l -> In x (update_nth i f l) \/ In (f x) (update_nth i f l).
Proof.
  revert i; induction l as [|y l IH]; intros i []; subst.
  - destruct i; cbn; auto.
  - destruct i as [|i]; cbn; [auto|].
    destruct (IH i H); auto.
Qed.

Lemma In_update_nth_other {A} (f : A -> A) (l : list A) (i : nat) (x y : A) :
  nth_error l i = Some y -> x <> y -> In x l -> In x (update_nth i f l).
Proof.
  revert i; induction l as [|z l IH]; intros i Hi Hne []; subst.
  - destruct i as [|i]; cbn in *; [congruence | auto].
  - destruct i as [|i]; cbn in *; [auto|]. right. eapply IH; eauto.
Qed.

Section BookkeepingProofs.

Variable JSON_parse : jsstring -> option json.
Variable toLowerCase : jsstring -> jsstring.

Local Abbreviation step := (step JSON_parse toLowerCase).
Local Abbreviation reachable := (reachable JSON_parse toLowerCase).
Local Abbreviation legal := (legal JSON_parse toLowerCase).
Local Abbreviation run := (run JSON_parse toLowerCase).

Lemma legal_reachable (trace : list Event) :
  forall w, reachable w -> legal w trace = true -> reachable (run w trace).
Proof.
  induction trace as [|e trace IH]; intros w Hw Hlegal; [exact Hw|].
  cbn in Hlegal. apply andb_true_iff in Hlegal as [Hen Hrest].
  apply IH; [|exact Hrest]. apply reachable_step; assumption.
Qed.

Lemma sendMessage_in_keeps_requests
      (closure : State) (messageText : option jsstring) (now : jsstring)
      (w : World) :
  activeFileId closure = activeFileId (state w) ->
  requests_invariant w ->
  requests_invariant (sendMessage_in closure messageText now w).
Proof.
  intros Hclosure Hinv. unfold sendMessage_in.
  destruct (trim (messageContent messageText (newMessage closure)));
    [exact Hinv|].
  rewrite Hclosure.
  destruct (activeFileId (state w)) as [[|i d]|] eqn:Hid; try exact Hinv.
  destruct Hinv as (HA & HB & HC & HD). rewrite Hid in *.
  unfold requests_invariant; cbn; rewrite ?Hid.
  rewrite chatRequests_app, userMessages_app, !length_app, HD. cbn.
  repeat split; auto; try discriminate.
  intros id message Hin. apply in_app_or in Hin as [Hin | [[= <- <-] | []]];
    [apply HB in Hin; exact Hin | reflexivity].
Qed.

Lemma step_keeps_requests (w : World) (e : Event) :
  session_invariant w -> requests_invariant w -> enabled w e = true ->
  requests_invariant (step w e).
Proof.
  intros (SA & SB & SC & SD) (HA & HB & HC & HD) Hen.
  destruct e as
    [file | outcome now | | | value | now | insight now | outcome now | i];
    simpl in Hen.
  - destruct file as [file|]; simpl; [|repeat split; auto].
    destruct (negb (endsWith (toLowerCase (name file)) (js ".xlsx"))
              && negb (endsWith (toLowerCase (name file)) (js ".xls"))
              && negb (endsWith (toLowerCase (name file)) (js ".csv")));
      unfold requests_invariant; cbn;
      rewrite ?chatRequests_app, ?app_nil_r; repeat split; auto.
  - apply Nat.ltb_lt in Hen. specialize (SC Hen). specialize (HA SC).
    upload_cases outcome data;
      rewrite HA in HD; unfold requests_invariant; cbn; rewrite HA;
      repeat split; auto; intros id message [].
  - simpl. unfold progressTick.
    destruct (N.leb 95 (uploadProgress (state w)));
      unfold requests_invariant; cbn; repeat split; auto.
  - unfold requests_invariant; cbn; repeat split; auto.
  - unfold requests_invariant; cbn; repeat split; auto.
  - apply sendMessage_in_keeps_requests; [reflexivity|]. repeat split; auto.
  - apply sendMessage_in_keeps_requests; [reflexivity|].
    unfold requests_invariant; cbn; repeat split; auto.
  - simpl. unfold sendMessage_settled.
    destruct (sendChatMessage outcome) as [data|].
    + rewrite parseChartDataFromResponse_run.
      destruct (charts_of JSON_parse (analysis data));
        unfold requests_invariant; cbn;
        rewrite userMessages_app, app_nil_r; repeat split; auto.
    + unfold requests_invariant; cbn.
      rewrite userMessages_app, app_nil_r. repeat split; auto.
  - simpl. unfold typeNextCharacter.
    destruct (nth_error (typing w) i) as [task|]; [|repeat split; auto].
    destruct (live task); cbn [negb]; [|repeat split; auto].
    destruct (Nat.ltb (index task) (length (text task))).
    + unfold requests_invariant; cbn; repeat split; auto.
    + destruct (callback task) as [[ts analysis formatted]|];
        unfold requests_invariant; cbn; repeat split; auto.
      change (length (chatRequests (requests w))
              = length (userMessages
                          (updateByTimestamp ts analysis formatted
                                             (messages (state w))))).
      rewrite userMessages_update. exact HD.
Qed.

Lemma reachable_requests (w : World) :
  reachable w -> requests_invariant w.
Proof.
  induction 1 as [|w e Hw IH Hen].
  - unfold requests_invariant; cbn. repeat split; auto. intros id message [].
  - apply step_keeps_requests; auto.
    apply (reachable_invariant JSON_parse toLowerCase), Hw.
Qed.

Lemma step_keeps_busy (w : World) (e : Event) :
  session_invariant w -> busy_invariant w -> enabled w e = true ->
  busy_invariant (step w e).
Proof.
  intros (SA & SB & SC & SD) (HA & HB & HC) Hen.
  destruct e as
    [file | outcome now | | | value | now | insight now | outcome now | i];
    simpl in Hen.
  - apply andb_true_iff in Hen as [_ Hup]. apply negb_true_iff in Hup.
    specialize (SA Hup).
    destruct file as [file|]; simpl; [|repeat split; auto].
    destruct (negb (endsWith (toLowerCase (name file)) (js ".xlsx"))
              && negb (endsWith (toLowerCase (name file)) (js ".xls"))
              && negb (endsWith (toLowerCase (name file)) (js ".csv")));
      unfold busy_invariant; cbn; repeat split; auto; try (intros _; lia).
  - apply Nat.ltb_lt in Hen.
    upload_cases outcome data;
      unfold busy_invariant; cbn; repeat split; auto;
      intros Hup; specialize (HB Hup); lia.
  - simpl. unfold progressTick.
    destruct (N.leb 95 (uploadProgress (state w)));
      unfold busy_invariant; cbn; repeat split; auto.
  - unfold busy_invariant; cbn; repeat split; auto; try discriminate.
  - unfold busy_invariant; cbn; repeat split; auto.
  - simpl. unfold sendMessage, sendMessage_in.
    destruct (trim (messageContent None (newMessage (state w))));
      [repeat split; auto|].
    destruct (activeFileId (state w)) as [[|c d]|];
      unfold busy_invariant; cbn; repeat split; auto; try (intros _; lia).
  - simpl. unfold handleInsightClick, sendMessage_in.
    destruct (trim (messageContent (Some insight) (newMessage (state w))));
      [unfold busy_invariant; cbn; repeat split; auto|].
    destruct (activeFileId (state w)) as [[|c d]|];
      unfold busy_invariant; cbn; repeat split; auto; try (intros _; lia).
  - simpl. unfold sendMessage_settled.
    destruct (sendChatMessage outcome) as [data|].
    + rewrite parseChartDataFromResponse_run.
      destruct (charts_of JSON_parse (analysis data));
        unfold busy_invariant; cbn; repeat split; auto; try discriminate;
        intros _; eexists; (split; [apply in_or_app; right; left;
                                    reflexivity | reflexivity]).
    + unfold busy_invariant; cbn; repeat split; auto; try discriminate.
  - simpl. unfold typeNextCharacter.
    destruct (nth_error (typing w) i) as [task|]; [|repeat split; auto].
    destruct (live task) eqn:El; cbn [negb]; [|repeat split; auto].
    destruct (Nat.ltb (index task) (length (text task))).
    + unfold busy_invariant; cbn; repeat split; auto.
      intros Hty. destruct (HC Hty) as (t & Hin & Hlive).
      match goal with
      | |- context [update_nth i ?f (typing w)] =>
          destruct (In_update_nth f (typing w) i t Hin) as [H | H]
      end; eexists; (split; [exact H|]); [exact Hlive | reflexivity].
    + destruct (callback task) as [[ts analysis formatted]|];
        unfold busy_invariant; cbn; repeat split; auto; discriminate.
Qed.

Lemma reachable_busy (w : World) : reachable w -> busy_invariant w.
Proof.
  induction 1 as [|w e Hw IH Hen].
  - unfold busy_invariant; cbn. repeat split; discriminate.
  - apply step_keeps_busy; auto.
    apply (reachable_invariant JSON_parse toLowerCase), Hw.
Qed.

Lemma reveals_live_update (ts : jsstring) (t : TypingTask)
      (text0 : jsstring) (index0 : nat) (timer0 : N) :
  reveals ts t ->
  reveals ts {| text := text0; index := index0; timer := timer0;
                callback := callback t; live := true |}.
Proof. intros [_ H]. split; [reflexivity | exact H]. Qed.

Lemma sendMessage_in_keeps_reveals
      (closure : State) (messageText : option jsstring) (now : jsstring)
      (w w0 : World) :
  messages (state w) = messages (state w0) -> typing w = typing w0 ->
  reveal_invariant w0 ->
  reveal_invariant (sendMessage_in closure messageText now w).
Proof.
  intros Hmsgs Htyping Hinv. unfold sendMessage_in.
  assert (Hw : reveal_invariant w).
  { unfold reveal_invariant. rewrite Hmsgs, Htyping. exact Hinv. }
  destruct (trim (messageContent messageText (newMessage closure)));
    [exact Hw|].
  destruct (activeFileId closure) as [[|c d]|]; try exact Hw.
  unfold reveal_invariant; cbn. intros m Hin Hty.
  apply in_app_or in Hin as [Hin | [<- | []]]; [|discriminate].
  exact (Hw m Hin Hty).
Qed.

Lemma step_keeps_reveals (w : World) (e : Event) :
  reveal_invariant w -> reveal_invariant (step w e).
Proof.
  intros Hinv.
  destruct e as
    [file | outcome now | | | value | now | insight now | outcome now | i].
  - destruct file as [file|]; simpl; [|exact Hinv].
    destruct (negb (endsWith (toLowerCase (name file)) (js ".xlsx"))
              && negb (endsWith (toLowerCase (name file)) (js ".xls"))
              && negb (endsWith (toLowerCase (name file)) (js ".csv")));
      exact Hinv.
  - upload_cases outcome data; [|exact Hinv|exact Hinv].
    unfold reveal_invariant; cbn. intros m [<- | []]. discriminate.
  - simpl. unfold progressTick.
    destruct (N.leb 95 (uploadProgress (state w))); exact Hinv.
  - exact Hinv.
  - exact Hinv.
  - apply (sendMessage_in_keeps_reveals _ _ _ w w); auto.
  - apply (sendMessage_in_keeps_reveals _ _ _ _ w); auto.
  - simpl. unfold sendMessage_settled.
    destruct (sendChatMessage outcome) as [data|].
    + rewrite parseChartDataFromResponse_run.
      destruct (charts_of JSON_parse (analysis data));
        unfold reveal_invariant; cbn; intros m Hin Hty;
        (apply in_app_or in Hin as [Hin | [<- | []]];
         [destruct (Hinv m Hin Hty) as (t & Ht & Hr);
          exists t; split; [apply in_or_app; left; exact Ht | exact Hr]
         |eexists; split; [apply in_or_app; right; left; reflexivity|];
          split; [reflexivity | eexists _, _; reflexivity]]).
    + unfold reveal_invariant; cbn. intros m Hin Hty.
      apply in_app_or in Hin as [Hin | [<- | []]]; [|discriminate].
      exact (Hinv m Hin Hty).
  - simpl. unfold typeNextCharacter.
    destruct (nth_error (typing w) i) as [task|] eqn:Hi; [|exact Hinv].
    destruct (live task) eqn:El; cbn [negb]; [|exact Hinv].
    destruct (Nat.ltb (index task) (length (text task))).
    + unfold reveal_invariant; cbn. intros m Hin Hty.
      destruct (Hinv m Hin Hty) as (t & Ht & Hr).
      match goal with
      | |- context [update_nth i ?f (typing w)] =>
          destruct (In_update_nth f (typing w) i t Ht) as [H | H]
      end; eexists; (split; [exact H|]);
        [exact Hr | apply reveals_live_update, Hr].
    + assert (Hold : forall m,
                 In m (messages (state w)) ->
                 Message.isTyping m = Some true ->
                 (forall analysis formatted,
                     callback task
                     <> Some (onTypingDone (Message.timestamp m)
                                           analysis formatted)) ->
                 exists t,
                   In t (update_nth i
                           (fun t => {| text := text task; index := index t;
                                        timer := timer t;
                                        callback := callback t;
                                        live := false |}) (typing w))
                   /\ reveals (Message.timestamp m) t).
      { intros m Hin Hty Hcb. destruct (Hinv m Hin Hty) as (t & Ht & Hr).
        exists t. split; [|exact Hr].
        apply (In_update_nth_other _ _ _ _ task Hi); [|exact Ht].
        intros ->. destruct Hr as (_ & a & f & Hr). exact (Hcb a f Hr). }
      destruct (callback task) as [[ts analysis formatted]|] eqn:Ecb;
        unfold reveal_invariant; cbn; intros m Hin Hty.
      * apply in_map_iff in Hin as (m0 & <- & Hin).
        destruct (strict_eq (Message.timestamp m0) ts) eqn:Ets;
          [discriminate|].
        apply (Hold m0 Hin Hty). intros a f [= Heq _ _].
        apply strict_eq_false in Ets. congruence.
      * apply (Hold m Hin Hty). intros a f. discriminate.
Qed.

Lemma reachable_reveals (w : World) : reachable w -> reveal_invariant w.
Proof.
  induction 1 as [|w e Hw IH Hen].
  - intros m [].
  - apply step_keeps_reveals, IH.
Qed.

Lemma welcomeMessage_thrown (s : State) (data : Document) :
  welcomeMessage data = None ->
  fileInformationRenders (setActiveFileId (file_id_of data)
                            (setFileData (Some data) s)) = false.
Proof.
  unfold welcomeMessage, fileInformationRenders. cbn.
  destruct (filename_of data), (summary_of data) as [summary|];
    try reflexivity.
  destruct (columns_of summary); [discriminate | reflexivity].
Qed.

Lemma sendMessage_in_keeps_conversation
      (closure : State) (messageText : option jsstring) (now : jsstring)
      (w w0 : World) :
  messages (state w) = messages (state w0) ->
  activeFileId (state w) = activeFileId (state w0) ->
  fileData (state w) = fileData (state w0) ->
  conversation_invariant w0 ->
  conversation_invariant (sendMessage_in closure messageText now w).
Proof.
  intros Hmsgs Hid Hdata Hinv. unfold sendMessage_in.
  assert (Hw : conversation_invariant w).
  { unfold conversation_invariant, fileInformationRenders.
    rewrite Hmsgs, Hid, Hdata. exact Hinv. }
  destruct (trim (messageContent messageText (newMessage closure)));
    [exact Hw|].
  destruct (activeFileId closure) as [[|c d]|]; try exact Hw.
  unfold conversation_invariant, fileInformationRenders in Hw |- *; cbn.
  intros Hactive Hrenders.
  destruct (Hw Hactive Hrenders) as (m & rest & -> & Hrole).
  eexists _, _. split; [reflexivity | exact Hrole].
Qed.

Lemma step_keeps_conversation (w : World) (e : Event) :
  conversation_invariant w -> conversation_invariant (step w e).
Proof.
  intros Hinv.
  destruct e as
    [file | outcome now | | | value | now | insight now | outcome now | i].
  - destruct file as [file|]; simpl; [|exact Hinv].
    destruct (negb (endsWith (toLowerCase (name file)) (js ".xlsx"))
              && negb (endsWith (toLowerCase (name file)) (js ".xls"))
              && negb (endsWith (toLowerCase (name file)) (js ".csv")));
      exact Hinv.
  - simpl. unfold handleFileUpload_settled.
    destruct (uploadFile outcome) as [data|]; [|exact Hinv].
    destruct (welcomeMessage data) as [text|] eqn:Hwelcome.
    + unfold conversation_invariant; cbn. intros _ _.
      eexists _, _. split; reflexivity.
    + intros _ Hrenders. exfalso.
      pose proof (welcomeMessage_thrown (state w) data Hwelcome) as Hnot.
      cbn in Hrenders, Hnot. rewrite Hnot in Hrenders. discriminate.
  - simpl. unfold progressTick.
    destruct (N.leb 95 (uploadProgress (state w))); exact Hinv.
  - exact Hinv.
  - exact Hinv.
  - apply (sendMessage_in_keeps_conversation _ _ _ w w); auto.
  - apply (sendMessage_in_keeps_conversation _ _ _ _ w); auto.
  - simpl. unfold sendMessage_settled.
    unfold conversation_invariant, fileInformationRenders in Hinv.
    destruct (sendChatMessage outcome) as [data|].
    + rewrite parseChartDataFromResponse_run.
      destruct (charts_of JSON_parse (analysis data));
        unfold conversation_invariant, fileInformationRenders; cbn;
        intros Hactive Hrenders;
        destruct (Hinv Hactive Hrenders) as (m & rest & -> & Hrole);
        eexists _, _; (split; [reflexivity | exact Hrole]).
    + unfold conversation_invariant, fileInformationRenders; cbn.
      intros Hactive Hrenders.
      destruct (Hinv Hactive Hrenders) as (m & rest & -> & Hrole).
      eexists _, _. split; [reflexivity | exact Hrole].
  - simpl. unfold typeNextCharacter.
    destruct (nth_error (typing w) i) as [task|]; [|exact Hinv].
    destruct (live task); cbn [negb]; [|exact Hinv].
    destruct (Nat.ltb (index task) (length (text task))); [exact Hinv|].
    destruct (callback task) as [[ts analysis formatted]|]; [|exact Hinv].
    unfold conversation_invariant, fileInformationRenders in Hinv |- *; cbn.
    intros Hactive Hrenders.
    destruct (Hinv Hactive Hrenders) as (m & rest & -> & Hrole). cbn.
    eexists _, _. split; [reflexivity|].
    destruct (strict_eq (Message.timestamp m) ts); exact Hrole.
Qed.

Lemma reachable_conversation (w : World) :
  reachable w -> conversation_invariant w.
Proof.
  induction 1 as [|w e Hw IH Hen].
  - intros H. discriminate H.
  - apply step_keeps_conversation, IH.
Qed.

Lemma sendMessage_in_keeps_progress
      (closure : State) (messageText : option jsstring) (now : jsstring)
      (w : World) :
  progress_invariant w ->
  progress_invariant (sendMessage_in closure messageText now w).
Proof.
  intros Hinv. unfold sendMessage_in.
  destruct (trim (messageContent messageText (newMessage closure)));
    [exact Hinv|].
  destruct (activeFileId closure) as [[|c d]|]; exact Hinv.
Qed.

Lemma step_keeps_progress (w : World) (e : Event) :
  session_invariant w -> progress_invariant w -> enabled w e = true ->
  progress_invariant (step w e).
Proof.
  intros (SA & SB & SC & SD) ((k & HA) & HB & HC & HD) Hen.
  assert (Hinv : progress_invariant w)
    by (repeat split; auto; exists k; exact HA).
  destruct e as
    [file | outcome now | | | value | now | insight now | outcome now | i];
    simpl in Hen.
  - apply andb_true_iff in Hen as [Hfile _]. apply negb_true_iff in Hfile.
    destruct file as [file|]; simpl; [|exact Hinv].
    destruct (negb (endsWith (toLowerCase (name file)) (js ".xlsx"))
              && negb (endsWith (toLowerCase (name file)) (js ".xls"))
              && negb (endsWith (toLowerCase (name file)) (js ".csv")));
      [exact Hinv|].
    unfold progress_invariant; cbn. rewrite Hfile.
    repeat split; try lia; try discriminate. exists 0%N. reflexivity.
  - apply Nat.ltb_lt in Hen.
    upload_cases outcome data;
      unfold progress_invariant; cbn;
      (split; [exists 20%N; reflexivity|]); repeat split; try lia;
      intros H; try reflexivity; lia.
  - simpl. unfold progressTick.
    destruct (N.leb 95 (uploadProgress (state w))) eqn:E;
      [exact Hinv|].
    apply N.leb_gt in E.
    unfold progress_invariant; cbn -[N.mul].
    split; [exists (k + 1)%N; lia|]. repeat split; try lia.
    intros H. specialize (HD H). lia.
  - exact Hinv.
  - exact Hinv.
  - apply sendMessage_in_keeps_progress, Hinv.
  - apply sendMessage_in_keeps_progress. exact Hinv.
  - simpl. unfold sendMessage_settled.
    destruct (sendChatMessage outcome) as [data|]; [|exact Hinv].
    rewrite parseChartDataFromResponse_run.
    destruct (charts_of JSON_parse (analysis data)); exact Hinv.
  - simpl. unfold typeNextCharacter.
    destruct (nth_error (typing w) i) as [task|]; [|exact Hinv].
    destruct (live task); cbn [negb]; [|exact Hinv].
    destruct (Nat.ltb (index task) (length (text task))); [exact Hinv|].
    destruct (callback task) as [[ts analysis formatted]|]; exact Hinv.
Qed.

Lemma reachable_progress (w : World) : reachable w -> progress_invariant w.
Proof.
  induction 1 as [|w e Hw IH Hen].
  - unfold progress_invariant; cbn.
    split; [exists 0%N; reflexivity|]. repeat split; try lia; discriminate.
  - apply step_keeps_progress; auto.
    apply (reachable_invariant JSON_parse toLowerCase), Hw.
Qed.

Lemma chatRequests_In (rs : list Request) (id message : jsstring) :
  In (POST_chat id message) rs -> In (id, message) (chatRequests rs).
Proof.
  intros H. unfold chatRequests. apply in_flat_map.
  exists (POST_chat id message). split; [exact H | left; reflexivity].
Qed.

(** X16. In every session, each chat request that has been issued names
    the file that is active, whose identifier is not empty and is the
    [file_id] of the object in [fileData]. *)
Theorem chat_requests_name_the_active_file
        (w : World) (id message : jsstring) :
  reachable w ->
  In (POST_chat id message) (requests w) ->
  activeFileId (state w) = Some id
  /\ id <> []
  /\ exists data,
       fileData (state w) = Some data /\ file_id_of data = Some id.
Proof.
  intros Hw Hin. destruct (reachable_requests w Hw) as (HA & HB & HC & _).
  apply chatRequests_In in Hin. pose proof (HB id message Hin) as Hid.
  split; [exact Hid|]. split.
  - intros ->. rewrite Hid in HA. rewrite (HA eq_refl) in Hin. exact Hin.
  - rewrite Hid in HC. destruct (fileData (state w)) as [data|];
      [|discriminate]. exists data. split; [reflexivity|].
    symmetry. exact HC.
Qed.

(** X17. In every session there are as many chat requests issued as
    there are messages of the user in the conversation. *)
Theorem one_request_per_user_message (w : World) :
  reachable w ->
  length (chatRequests (requests w))
  = length (userMessages (messages (state w))).
Proof. intros Hw. apply (reachable_requests w Hw). Qed.

(** X18. In every session a busy flag that is set has the event that
    clears it still ahead: while [isSending] is set a chat request is
    awaited, while [isUploading] is set either the upload request or the
    timer that clears the flag is pending, and while [isTyping] is set a
    reveal is running. *)
Theorem busy_flags_have_pending_work (w : World) :
  reachable w ->
  (isSending (state w) = true -> 0 < chatsPending w)
  /\ (isUploading (state w) = true ->
      uploadsPending w + uploadingTimers w = 1)
  /\ (isTyping (state w) = true ->
      exists task, In task (typing w) /\ live task = true).
Proof. intros Hw. exact (reachable_busy w Hw). Qed.

(** X19. In every session, a message whose typing flag is set has a
    running reveal whose callback carries the timestamp of the message:
    the end of that reveal clears the flag. *)
Theorem revealing_message_has_a_running_reveal
        (w : World) (m : Message.t) :
  reachable w ->
  In m (messages (state w)) ->
  Message.isTyping m = Some true ->
  exists task,
    In task (typing w)
    /\ live task = true
    /\ exists analysis formatted,
         callback task
         = Some (onTypingDone (Message.timestamp m) analysis formatted).
Proof.
  intros Hw Hin Hty.
  destruct (reachable_reveals w Hw m Hin Hty) as (task & Ht & Hlive & Hcb).
  exists task. auto.
Qed.

(** A 2xx response whose body has no [summary]: the promise resolves,
    the object is stored and its file made the active one, then the
    template literal throws and the [catch] block runs.  The messages are
    as they were, and the File Information panel cannot be rendered. *)
Lemma upload_without_summary
      (w : World) (status : N) (data : Document) (now : jsstring) :
  response_ok status = true ->
  summary_of data = None ->
  let w' := step w (UploadSettled (HttpResponse status (Some data)) now) in
  fileData (state w') = Some data
  /\ activeFileId (state w') = file_id_of data
  /\ messages (state w') = messages (state w)
  /\ toasts w'
     = toasts w ++ [toast_error "Failed to upload file. Please try again."]
  /\ fileInformationRenders (state w') = false.
Proof.
  intros Hok Hsummary. simpl. rewrite Hok.
  unfold handleFileUpload_settled, welcomeMessage, fileInformationRenders.
  rewrite Hsummary. cbn. rewrite Hsummary.
  repeat split; try reflexivity. destruct (filename_of data); reflexivity.
Qed.

(** X20. In every session, whenever the chat card is the card to render
    and its File Information panel can be rendered, the object in
    [fileData] having the fields that the panel reads, the conversation
    is not empty and starts with a message of the assistant: the card
    never shows its placeholder for an empty conversation.  Without the
    second condition this fails ([upload_without_summary]), but then the
    render of the card throws. *)
Theorem chat_card_is_never_empty (w : World) :
  reachable w ->
  card (state w) = ChatCard ->
  fileInformationRenders (state w) = true ->
  exists m rest,
    messages (state w) = m :: rest /\ Message.role m = Message.assistant.
Proof.
  intros Hw Hcard Hrenders. apply (reachable_conversation w Hw).
  - unfold card in Hcard.
    destruct (truthy (activeFileId (state w)));
      [reflexivity | discriminate].
  - exact Hrenders.
Qed.

(** X21. In every session the upload progress is a multiple of 5 between
    0 and 100; it is at most 95 while the upload request is awaited and
    it is 100 once the chat card is rendered. *)
Theorem upload_progress_bounds (w : World) :
  reachable w ->
  (exists k, uploadProgress (state w) = (5 * k)%N)
  /\ (uploadProgress (state w) <= 100)%N
  /\ (0 < uploadsPending w -> (uploadProgress (state w) <= 95)%N)
  /\ (card (state w) = ChatCard -> uploadProgress (state w) = 100%N).
Proof.
  intros Hw. destruct (reachable_progress w Hw) as (HA & HB & HC & HD).
  repeat split; auto. intros Hcard. apply HD. unfold card in Hcard.
  destruct (truthy (activeFileId (state w))); [reflexivity | discriminate].
Qed.

(** X22. In every session at most one upload is in flight, its request
    awaited or its closing timer pending, and a request is awaited only
    while the upload card is rendered. *)
Theorem uploads_do_not_overlap (w : World) :
  reachable w ->
  uploadsPending w + uploadingTimers w <= 1
  /\ (0 < uploadsPending w -> card (state w) = UploadCard).
Proof.
  intros Hw.
  destruct (reachable_invariant JSON_parse toLowerCase w Hw)
    as (_ & HB & HC & _).
  split; [exact HB|]. intros H. unfold card. rewrite (HC H). reflexivity.
Qed.

(** X23. In every session, once a file is active it stays the active
    file: no event that can occur changes the active file identifier or
    the dataset on display, and the chat card stays. *)
Theorem active_file_is_never_replaced (w : World) (e : Event) :
  reachable w ->
  card (state w) = ChatCard ->
  enabled w e = true ->
  activeFileId (state (step w e)) = activeFileId (state w)
  /\ fileData (state (step w e)) = fileData (state w)
  /\ card (state (step w e)) = ChatCard.
Proof.
  intros Hw Hcard Hen.
  destruct (reachable_invariant JSON_parse toLowerCase w Hw)
    as (_ & _ & HC & _).
  assert (Hactive : truthy (activeFileId (state w)) = true).
  { unfold card in Hcard.
    destruct (truthy (activeFileId (state w))); [reflexivity|discriminate]. }
  assert (Hsame : activeFileId (state (step w e)) = activeFileId (state w)
                  /\ fileData (state (step w e)) = fileData (state w)).
  { destruct e as
      [file | outcome now | | | value | now | insight now | outcome now | i];
      simpl in Hen.
    - rewrite Hactive in Hen. discriminate.
    - apply Nat.ltb_lt in Hen. rewrite (HC Hen) in Hactive. discriminate.
    - simpl. unfold progressTick.
      destruct (N.leb 95 (uploadProgress (state w))); split; reflexivity.
    - split; reflexivity.
    - split; reflexivity.
    - simpl. unfold sendMessage, sendMessage_in.
      destruct (trim (messageContent None (newMessage (state w))));
        [split; reflexivity|].
      destruct (activeFileId (state w)) as [[|c d]|] eqn:Hid;
        cbn; rewrite ?Hid; split; reflexivity.
    - simpl. unfold handleInsightClick, sendMessage_in.
      destruct (trim (messageContent (Some insight)
                                     (newMessage (state w))));
        [split; reflexivity|].
      destruct (activeFileId (state w)) as [[|c d]|] eqn:Hid;
        cbn; rewrite ?Hid; split; reflexivity.
    - simpl. unfold sendMessage_settled.
      destruct (sendChatMessage outcome) as [data|]; [|split; reflexivity].
      rewrite parseChartDataFromResponse_run.
      destruct (charts_of JSON_parse (analysis data)); split; reflexivity.
    - simpl. unfold typeNextCharacter.
      destruct (nth_error (typing w) i) as [task|]; [|split; reflexivity].
      destruct (live task); cbn [negb]; [|split; reflexivity].
      destruct (Nat.ltb (index task) (length (text task)));
        [split; reflexivity|].
      destruct (callback task) as [[ts analysis formatted]|];
        split; reflexivity. }
  destruct Hsame as [Hid Hdata]. repeat split; auto.
  unfold card. rewrite Hid, Hactive. reflexivity.
Qed.

End BookkeepingProofs.

Lemma overlapping_reachable :
  reachable JSON.parse ascii_toLowerCase Scenario.overlapping.
Proof.
  apply (legal_reachable JSON.parse ascii_toLowerCase
           Scenario.overlapping_trace initial).
  - apply reachable_initial.
  - vm_compute. reflexivity.
Qed.

(** The witness of [chat_requests_name_the_active_file]: the second
    request of the session with two overlapping reveals. *)
Lemma chat_requests_name_the_active_file_witness :
  activeFileId (state Scenario.overlapping) = Some (js "f-1")
  /\ js "f-1" <> []
  /\ exists data,
      fileData (state Scenario.overlapping) = Some data
      /\ file_id_of data = Some (js "f-1").
Proof.
  apply (chat_requests_name_the_active_file JSON.parse ascii_toLowerCase
           Scenario.overlapping (js "f-1") (js "b")).
  - exact overlapping_reachable.
  - vm_compute. auto.
Defined.

(** The witness of [one_request_per_user_message]. *)
Lemma one_request_per_user_message_witness :
  length (chatRequests (requests Scenario.overlapping))
  = length (userMessages (messages (state Scenario.overlapping))).
Proof.
  apply (one_request_per_user_message JSON.parse ascii_toLowerCase
           Scenario.overlapping).
  exact overlapping_reachable.
Defined.

(** The witness of [busy_flags_have_pending_work]. *)
Lemma busy_flags_have_pending_work_witness :
  (isSending (state Scenario.overlapping) = true ->
   0 < chatsPending Scenario.overlapping)
  /\ (isUploading (state Scenario.overlapping) = true ->
      uploadsPending Scenario.overlapping
      + uploadingTimers Scenario.overlapping = 1)
  /\ (isTyping (state Scenario.overlapping) = true ->
      exists task,
        In task (typing Scenario.overlapping) /\ live task = true).
Proof.
  apply (busy_flags_have_pending_work JSON.parse ascii_toLowerCase
           Scenario.overlapping).
  exact overlapping_reachable.
Defined.

(** The witness of [revealing_message_has_a_running_reveal]: the
    placeholder of the second reply. *)
Lemma revealing_message_has_a_running_reveal_witness :
  exists task,
    In task (typing Scenario.overlapping)
    /\ live task = true
    /\ exists analysis formatted,
         callback task = Some (onTypingDone (js "t4") analysis formatted).
Proof.
  apply (revealing_message_has_a_running_reveal JSON.parse ascii_toLowerCase
           Scenario.overlapping
           {| Message.role := Message.assistant; Message.content := [];
              Message.formattedContent := Some [];
              Message.timestamp := js "t4"; Message.charts := None;
              Message.isTyping := Some true |}).
  - exact overlapping_reachable.
  - vm_compute. do 4 right. left. reflexivity.
  - reflexivity.
Defined.

(** The witness of [chat_card_is_never_empty]. *)
Lemma chat_card_is_never_empty_witness :
  exists m rest,
    messages (state Scenario.uploaded) = m :: rest
    /\ Message.role m = Message.assistant.
Proof.
  apply (chat_card_is_never_empty JSON.parse ascii_toLowerCase
           Scenario.uploaded).
  - apply (legal_reachable JSON.parse ascii_toLowerCase
             Scenario.uploaded_trace initial).
    + apply reachable_initial.
    + vm_compute. reflexivity.
  - reflexivity.
  - reflexivity.
Defined.

(** The session in which the server answers the upload of sales.csv with
    a file identifier and a file name only: every event is enabled when
    it occurs, and at the end the chat card is the card to render, with
    no message in the conversation and a File Information panel that
    cannot be rendered. *)
Lemma upload_without_summary_session :
  let body := {| file_id_of := Some (js "f-1");
                 filename_of := Some (js "sales.csv");
                 summary_of := None;
                 data_preview_of := None |} in
  let trace := [FileInputChange (Some Scenario.sales_file);
                UploadSettled (HttpResponse 200 (Some body)) (js "t0")] in
  let w := run JSON.parse ascii_toLowerCase initial trace in
  legal JSON.parse ascii_toLowerCase initial trace = true
  /\ card (state w) = ChatCard
  /\ fileData (state w) = Some body
  /\ messages (state w) = []
  /\ toasts w = [toast_error "Failed to upload file. Please try again."]
  /\ fileInformationRenders (state w) = false.
Proof. cbv zeta. repeat split; reflexivity. Qed.

(** The witness of [upload_progress_bounds]: the progress after two
    ticks of the interval. *)
Lemma upload_progress_bounds_witness :
  let w := run JSON.parse ascii_toLowerCase initial
               [FileInputChange (Some Scenario.sales_file);
                ProgressInterval; ProgressInterval] in
  uploadProgress (state w) = 10%N
  /\ (exists k, uploadProgress (state w) = (5 * k)%N)
  /\ (uploadProgress (state w) <= 100)%N
  /\ (0 < uploadsPending w -> (uploadProgress (state w) <= 95)%N)
  /\ (card (state w) = ChatCard -> uploadProgress (state w) = 100%N).
Proof.
  split; [reflexivity|].
  apply (upload_progress_bounds JSON.parse ascii_toLowerCase
           (run JSON.parse ascii_toLowerCase initial
                [FileInputChange (Some Scenario.sales_file);
                 ProgressInterval; ProgressInterval])).
  apply (legal_reachable JSON.parse ascii_toLowerCase _ initial).
  - apply reachable_initial.
  - vm_compute. reflexivity.
Defined.

(** The witness of [uploads_do_not_overlap]: the upload of the scenario
    while its request is awaited. *)
Lemma uploads_do_not_overlap_witness :
  let w := run JSON.parse ascii_toLowerCase initial
               [FileInputChange (Some Scenario.sales_file)] in
  uploadsPending w = 1
  /\ uploadsPending w + uploadingTimers w <= 1
  /\ (0 < uploadsPending w -> card (state w) = UploadCard).
Proof.
  split; [reflexivity|].
  apply (uploads_do_not_overlap JSON.parse ascii_toLowerCase
           (run JSON.parse ascii_toLowerCase initial
                [FileInputChange (Some Scenario.sales_file)])).
  apply (legal_reachable JSON.parse ascii_toLowerCase _ initial).
  - apply reachable_initial.
  - vm_compute. reflexivity.
Defined.

(** The witness of [active_file_is_never_replaced]: the arrival of the
    second reply in the session with two overlapping reveals. *)
Lemma active_file_is_never_replaced_witness :
  let w := Scenario.overlapping in
  let w' := step JSON.parse ascii_toLowerCase w (TypingTimeout 1) in
  activeFileId (state w') = activeFileId (state w)
  /\ fileData (state w') = fileData (state w)
  /\ card (state w') = ChatCard.
Proof.
  apply (active_file_is_never_replaced JSON.parse ascii_toLowerCase
           Scenario.overlapping (TypingTimeout 1)).
  - exact overlapping_reachable.
  - reflexivity.
  - reflexivity.
Defined.

(* ================================================================== *)
(** ** The visualization card *)
(* ================================================================== *)

Lemma SingleChart_not_null (chart : json) :
  is_null chart = false ->
  exists panel,
    Visualization.SingleChart chart = Some panel
    /\ Visualization.read (js "title") chart
       = Some (Visualization.title panel)
    /\ Visualization.chart panel
       = Visualization.renderChart (get (js "type") chart).
Proof.
  intros H. destruct chart; try discriminate H;
    (eexists; split; [reflexivity|]; split; reflexivity).
Qed.

Lemma panels_not_null (charts : list json) :
  Forall (fun chart => is_null chart = false) charts ->
  exists panels,
    Visualization.traverse Visualization.SingleChart charts = Some panels
    /\ Visualization.traverse (Visualization.read (js "title")) charts
       = Some (map Visualization.title panels)
    /\ Forall2 (fun chart panel =>
                  Visualization.chart panel
                  = Visualization.renderChart (get (js "type") chart))
               charts panels.
Proof.
  induction 1 as [|chart charts Hchart _ (panels & Hp & Ht & Hc)].
  - exists []. repeat split. constructor.
  - destruct (SingleChart_not_null chart Hchart) as (panel & H1 & H2 & H3).
    exists (panel :: panels). cbn [Visualization.traverse map].
    rewrite H1, H2, Hp, Ht. repeat split. constructor; assumption.
Qed.

Section VisualizationProofs.

Variable JSON_parse : jsstring -> option json.
Variable toLowerCase : jsstring -> jsstring.

Local Abbreviation step := (step JSON_parse toLowerCase).
Local Abbreviation reachable := (reachable JSON_parse toLowerCase).

Lemma step_keeps_charts (w : World) (e : Event) :
  Forall (fun chart => is_null chart = false)
         (visualizationCharts (state w)) ->
  Forall (fun chart => is_null chart = false)
         (visualizationCharts (state (step w e))).
Proof.
  intros Hinv.
  destruct e as
    [file | outcome now | | | value | now | insight now | outcome now | i].
  - destruct file as [file|]; simpl; [|exact Hinv].
    destruct (negb (endsWith (toLowerCase (name file)) (js ".xlsx"))
              && negb (endsWith (toLowerCase (name file)) (js ".xls"))
              && negb (endsWith (toLowerCase (name file)) (js ".csv")));
      exact Hinv.
  - upload_cases outcome data; exact Hinv.
  - simpl. unfold progressTick.
    destruct (N.leb 95 (uploadProgress (state w))); exact Hinv.
  - exact Hinv.
  - exact Hinv.
  - simpl. unfold sendMessage, sendMessage_in.
    destruct (trim (messageContent None (newMessage (state w))));
      [exact Hinv|].
    destruct (activeFileId (state w)) as [[|c d]|]; exact Hinv.
  - simpl. unfold handleInsightClick, sendMessage_in.
    destruct (trim (messageContent (Some insight) (newMessage (state w))));
      [exact Hinv|].
    destruct (activeFileId (state w)) as [[|c d]|]; exact Hinv.
  - simpl. unfold sendMessage_settled.
    destruct (sendChatMessage outcome) as [data|]; [|exact Hinv].
    rewrite parseChartDataFromResponse_run.
    destruct (charts_of JSON_parse (analysis data)) as [|c cs] eqn:E;
      [exact Hinv|].
    cbn. rewrite <- E. unfold charts_of. apply Forall_forall.
    intros x Hx. apply filter_In in Hx as [_ Hx].
    apply negb_true_iff in Hx. exact Hx.
  - simpl. unfold typeNextCharacter.
    destruct (nth_error (typing w) i) as [task|]; [|exact Hinv].
    destruct (live task); cbn [negb]; [|exact Hinv].
    destruct (Nat.ltb (index task) (length (text task))); [exact Hinv|].
    destruct (callback task) as [[ts analysis formatted]|]; exact Hinv.
Qed.

Lemma reachable_charts (w : World) :
  reachable w ->
  Forall (fun chart => is_null chart = false)
         (visualizationCharts (state w)).
Proof.
  induction 1 as [|w e Hw IH Hen]; [constructor|].
  apply step_keeps_charts, IH.
Qed.

(** X24. In every session no chart on display is [null], so that the
    reads of its title, description, type, labels and data sets in the
    visualization card do not throw.  The card shows its placeholder when
    there is no chart, one panel when there is one, and otherwise tabs in
    a grid of at most four columns with one trigger, labelled with the
    title, and one panel for each chart, in the order of the charts; the
    component of a panel is the one that [renderChart] chooses for the
    type of its chart.  What React and Chart.js do with the values read
    is not modelled. *)
Theorem visualization_card_reads_succeed (w : World) :
  reachable w ->
  exists panels,
    Forall2 (fun chart panel =>
               Visualization.chart panel
               = Visualization.renderChart (get (js "type") chart))
            (visualizationCharts (state w)) panels
    /\ visualizationCard (state w)
       = Some match panels with
              | [] => Placeholder
              | [panel] => Drawn (Visualization.Single panel)
              | _ =>
                  Drawn (Visualization.Tabs
                           (Nat.min (length panels) 4)
                           (map Visualization.title panels) panels)
              end.
Proof.
  intros Hw.
  destruct (panels_not_null _ (reachable_charts w Hw))
    as (panels & Hp & Ht & Hc).
  exists panels. split; [exact Hc|].
  pose proof (Forall2_length Hc) as Hlen.
  unfold visualizationCard, Visualization.DataVisualization.
  destruct (visualizationCharts (state w)) as [|c1 [|c2 cs]].
  - destruct panels; [reflexivity | discriminate Hlen].
  - destruct panels as [|p [|q ps]]; try discriminate Hlen.
    cbn in Hp. destruct (Visualization.SingleChart c1); [|discriminate].
    injection Hp as ->. reflexivity.
  - rewrite Hp, Ht. rewrite Hlen.
    destruct panels as [|p [|q ps]]; try discriminate Hlen. reflexivity.
Qed.

End VisualizationProofs.

(** The witness of [visualization_card_reads_succeed]: the bar chart of a
    reply is on display. *)
Lemma visualization_card_reads_succeed_witness :
  let w := run JSON.parse ascii_toLowerCase initial
               (Scenario.uploaded_trace ++
                [TextareaChange (js "a"); SubmitMessage (js "t1");
                 ChatSettled
                   (Scenario.reply
                      (render Scenario.totals
                              [(Scenario.bar_chart, Scenario.done)]))
                   (js "t2")]) in
  visualizationCharts (state w) = [Scenario.bar_chart_value]
  /\ exists panel,
      visualizationCard (state w) = Some (Drawn (Visualization.Single panel))
      /\ Visualization.chart panel
         = (Visualization.Bar, Visualization.options).
Proof.
  cbv zeta. split; [vm_compute; reflexivity|].
  destruct (visualization_card_reads_succeed JSON.parse ascii_toLowerCase
              (run JSON.parse ascii_toLowerCase initial
                   (Scenario.uploaded_trace ++
                    [TextareaChange (js "a"); SubmitMessage (js "t1");
                     ChatSettled
                       (Scenario.reply
                          (render Scenario.totals
                                  [(Scenario.bar_chart, Scenario.done)]))
                       (js "t2")])))
    as (panels & Hc & Hcard).
  - apply (legal_reachable JSON.parse ascii_toLowerCase _ initial).
    + apply reachable_initial.
    + vm_compute. reflexivity.
  - assert (Hcharts : visualizationCharts
                        (state (run JSON.parse ascii_toLowerCase initial
                          (Scenario.uploaded_trace ++
                           [TextareaChange (js "a"); SubmitMessage (js "t1");
                            ChatSettled
                              (Scenario.reply
                                 (render Scenario.totals
                                    [(Scenario.bar_chart, Scenario.done)]))
                              (js "t2")])))
                      = [Scenario.bar_chart_value])
      by (vm_compute; reflexivity).
    rewrite Hcharts in Hc.
    inversion Hc as [|c p cs ps Hp Hrest]; subst.
    inversion Hrest; subst.
    exists p. split; [exact Hcard|]. rewrite Hp. reflexivity.
Defined.

(* ================================================================== *)
(** ** The connection test *)
(* ================================================================== *)

Section ApiTestProofs.

Variable JSON_stringify : json -> jsstring.

(** X25. A connection test always ends with the loading flag cleared, a
    status line that is not empty and one notification.  When the test
    fails, by a rejected request, a response outside the 2xx range or a
    body that is not JSON, the notification is an error and the status
    line is red.  When it succeeds the notification is a success, and the
    status line is green unless the body, as [JSON.stringify] prints it,
    contains Error or failed: it is then red. *)
Theorem connection_test_report
        (outcome : ApiTest.Outcome) (w : ApiTest.World) :
  let w' := ApiTest.testApiConnection_settled JSON_stringify outcome w in
  ApiTest.isLoading (ApiTest.state w') = false
  /\ exists text notification,
      ApiTest.status (ApiTest.state w') = Some text
      /\ truthy (Some text) = true
      /\ ApiTest.toasts w' = ApiTest.toasts w ++ [notification]
      /\ match outcome with
         | ApiTest.Response status (ApiTest.Json data) =>
             if response_ok status then
               notification = toast_success "API connection successful!"
               /\ ApiTest.statusClass text
                  = (if includes (JSON_stringify data) (js "Error")
                        || includes (JSON_stringify data) (js "failed")
                     then ApiTest.red else ApiTest.green)
             else
               notification = toast_error "API connection failed"
               /\ ApiTest.statusClass text = ApiTest.red
         | _ =>
             notification = toast_error "API connection failed"
             /\ ApiTest.statusClass text = ApiTest.red
         end.
Proof.
  cbv zeta. split; [reflexivity|].
  unfold ApiTest.testApiConnection_settled. cbn [ApiTest.state ApiTest.status
    ApiTest.toasts].
  assert (Hfailed : forall n,
             ApiTest.statusClass
               (js "Connection failed with status: " ++ n) = ApiTest.red).
  { intros n. unfold ApiTest.statusClass.
    assert (H : includes (js "Connection failed with status: " ++ n)
                         (js "failed") = true) by reflexivity.
    rewrite H, orb_true_r. reflexivity. }
  destruct outcome as [message | status [data | message]];
    cbn [ApiTest.report]; try destruct (response_ok status); cbn [fst snd];
    eexists _, _; (split; [reflexivity|]); (split; [reflexivity|]);
    (split; [reflexivity|]); split;
    try reflexivity; apply Hfailed.
Qed.

End ApiTestProofs.
